(** * fm96: FM stereo multiplex encoder (src/fm96.c)

    A shallow embedding of [main] of fm96.c: the per-sample chain
    (oscillator, preemphasis, low-pass, stereo multiplexer), the block
    loop and the streaming loop with its device I/O, followed by the
    properties of the specification that are settled on it.

    C [float] is IEEE-754 binary32 with round-to-nearest-even; every
    arithmetic operation of the source is rounded to binary32 (no
    contraction, no extended intermediate precision).  The operations
    are those of the Standard Library's [SpecFloat] at precision 24 and
    maximal exponent 128, so every definition below evaluates. *)

From Stdlib Require Import ZArith Bool String Ascii Lia.
From Stdlib Require Import Floats.SpecFloat.
From stdpp Require Import base list.

Open Scope Z_scope.

(** ** Single-precision arithmetic *)

Module F32.

Definition prec : Z := 24.
Definition emax : Z := 128.

Definition f32 : Type := spec_float.

Definition fadd : f32 -> f32 -> f32 := SFadd prec emax.
Definition fsub : f32 -> f32 -> f32 := SFsub prec emax.
Definition fmul : f32 -> f32 -> f32 := SFmul prec emax.
Definition fdiv : f32 -> f32 -> f32 := SFdiv prec emax.

(** Integer to float conversion, as for the literal [2] in [x * 2]. *)
Definition of_Z (z : Z) : f32 := binary_normalize prec emax z 0 false.

Definition fzero : f32 := S754_zero false.

(** The literals [2.0f], [0.45f] and [0.09f] of the source: bit
    patterns 0x40000000, 0x3EE66666 and 0x3DB851EC. *)
Definition c_2_0 : f32 := S754_finite false 8388608 (-22).
Definition c_0_45 : f32 := S754_finite false 15099494 (-25).
Definition c_0_09 : f32 := S754_finite false 12079596 (-27).

(** A float used as a C condition: [if (x)] is [x != 0], which holds
    for every value but the two zeros (it holds for NaN). *)
Definition truthy (x : f32) : bool :=
  match x with
  | S754_zero _ => false
  | _ => true
  end.

Definition is_zero (x : f32) : bool := negb (truthy x).

Definition is_finite (x : f32) : bool :=
  match x with
  | S754_zero _ | S754_finite _ _ _ => true
  | _ => false
  end.

(** C's [==] on floats. *)
Definition feqb : f32 -> f32 -> bool := SFeqb.

(** Two floats denote the same value: they are the same datum, or they
    are the two zeros ([-0.0f == 0.0f]). *)
Definition same_value (x y : f32) : Prop :=
  x = y \/ (is_zero x = true /\ is_zero y = true).

(** A float is a well-formed binary32 datum. *)
Definition valid (x : f32) : bool := valid_binary prec emax x.

End F32.

Export F32.

Declare Scope f32_scope.
Delimit Scope f32_scope with f32.
Infix "+" := fadd : f32_scope.
Infix "-" := fsub : f32_scope.
Infix "*" := fmul : f32_scope.
Infix "/" := fdiv : f32_scope.

(** ** The stereo multiplexer (fm96.c, lines 187-195)

    [stereo] is the command-line flag ([int stereo], line 41, set by
    [--stereo] at line 61).  The loop body declares a [float stereo] at
    line 188, and the condition of line 190 reads that inner variable:
    the [let] below re-binds the name exactly as the C block does. *)
Definition stereo_encode (stereo : Z) (lpf_out_l lpf_out_r : f32)
    (pilot_s stereo_carrier : f32) : f32 :=
  let mono := ((lpf_out_l + lpf_out_r) / c_2_0)%f32 in
  let stereo := ((lpf_out_l - lpf_out_r) / c_2_0)%f32 in
  if truthy stereo
  then (mono * c_0_45 + pilot_s * c_0_09 + (stereo * stereo_carrier) * c_0_45)%f32
  else mono.

(** Lines 187-195 as one expression: what [output[i]] holds after
    [output[i] += mpx_in[i]] (line 195). *)
Definition multiplex (stereo : Z) (lpf_out_l lpf_out_r : f32)
    (pilot_s stereo_carrier : f32) (mpx_in_i : f32) : f32 :=
  (stereo_encode stereo lpf_out_l lpf_out_r pilot_s stereo_carrier + mpx_in_i)%f32.

(** ** Arrays

    C arrays are lists of fixed length.  Every index the program uses is
    below the length of the array it indexes ([wf_lengths] below); out
    of range a read gives [fzero] and a write does nothing. *)
Definition rd (a : list f32) (i : nat) : f32 := default fzero (a !! i).

Definition wr (a : list f32) (i : nat) (x : f32) : list f32 := <[i := x]> a.

(** [pa_simple_read] fills the whole buffer with the bytes it received:
    the buffer keeps its size whatever the collaborator hands over. *)
Definition fill (buf data : list f32) : list f32 :=
  take (length buf) (data ++ drop (length data) buf).

Definition BUFFER_SIZE : nat := 768.

(** ** The float variables of [main] that the DSP objects are bound to

    Lines 134-148 pass the addresses of these locals to the
    constructors; the objects read and write them on every call. *)
Inductive FloatVar :=
| pilot_sample
| lpf_preemp_l | lpf_preemp_r
| lpf_out_l | lpf_out_r
| preemp_input_l | preemp_input_r.

Record Vars := mkVars {
  v_pilot_sample : f32;
  v_lpf_preemp_l : f32; v_lpf_preemp_r : f32;
  v_lpf_out_l : f32; v_lpf_out_r : f32;
  v_preemp_input_l : f32; v_preemp_input_r : f32 }.

Definition load (x : FloatVar) (m : Vars) : f32 :=
  match x with
  | pilot_sample => v_pilot_sample m
  | lpf_preemp_l => v_lpf_preemp_l m
  | lpf_preemp_r => v_lpf_preemp_r m
  | lpf_out_l => v_lpf_out_l m
  | lpf_out_r => v_lpf_out_r m
  | preemp_input_l => v_preemp_input_l m
  | preemp_input_r => v_preemp_input_r m
  end.

Definition store (x : FloatVar) (y : f32) (m : Vars) : Vars :=
  let '(mkVars ps pl pr ol or il ir) := m in
  match x with
  | pilot_sample => mkVars y pl pr ol or il ir
  | lpf_preemp_l => mkVars ps y pr ol or il ir
  | lpf_preemp_r => mkVars ps pl y ol or il ir
  | lpf_out_l => mkVars ps pl pr y or il ir
  | lpf_out_r => mkVars ps pl pr ol y il ir
  | preemp_input_l => mkVars ps pl pr ol or y ir
  | preemp_input_r => mkVars ps pl pr ol or il y
  end.

(** ** The DSP library (dsp.h)

    fm96.c includes <dsp.h>, which is not part of the sources at hand.
    Its objects are modelled from the specification (sections 3, 4.1
    and 4.2); what the specification leaves open (the sine function on
    floats and the coefficient formulas of the two filter designs) is a
    parameter of the development.  fm96.c calls the constructors as
    statements and has no error path between them and the loop; how a
    constructor would refuse its parameters is not told, and they are
    modelled as total. *)
Module Dsp.

Record Coefficients := mkCoefficients {
  b0 : f32; b1 : f32; b2 : f32; a1 : f32; a2 : f32 }.

Record Library := mkLibrary {
  sinf : f32 -> f32;
  lpf_design : f32 -> f32 -> f32 -> Coefficients;
  preemphasis_design : f32 -> f32 -> Coefficients }.

(** The literal 2*pi as a float (0x40C90FDB). *)
Definition M_2PI : f32 := S754_finite false 13176795 (-21).

(** Modelled from the spec: the oscillator of dsp.h (section 3:
    "state = phase, frequency, sample rate"), bound to the float it
    writes its samples to. *)
Record Oscillator := mkOscillator {
  phase : f32;
  phase_increment : f32;
  osc_output : FloatVar }.

(** Modelled from the spec: [init_sine_oscillator] of dsp.h; the
    phase starts at zero and the step is 2*pi*frequency/sample_rate
    (section 4.1). *)
Definition init_sine_oscillator (out : FloatVar) (frequency sample_rate : f32)
  : Oscillator :=
  mkOscillator fzero ((M_2PI * frequency) / sample_rate)%f32 out.

(** Modelled from the spec: [evaluate(harmonic)] of section 4.1,
    "returns sin(harmonic*phase) without mutating phase". *)
Definition evaluate (lib : Library) (osc : Oscillator) (harmonic : Z) : f32 :=
  sinf lib (of_Z harmonic * phase osc)%f32.

(** Modelled from the spec: [compute_sine_oscillator_sin] of dsp.h is
    [evaluate(1)]; the sample goes to the bound variable. *)
Definition compute_sine_oscillator_sin (lib : Library) (osc : Oscillator)
    (m : Vars) : Vars :=
  store (osc_output osc) (evaluate lib osc 1) m.

(** Modelled from the spec: [compute_sine_oscillator_sin_multiplier]
    of dsp.h is [evaluate(harmonic)]. *)
Definition compute_sine_oscillator_sin_multiplier (lib : Library)
    (osc : Oscillator) (harmonic : Z) (m : Vars) : Vars :=
  store (osc_output osc) (evaluate lib osc harmonic) m.

(** Modelled from the spec: [advance_sine_oscillator] of dsp.h,
    "moves phase forward by 2*pi*frequency/sample_rate (mod one
    cycle)". *)
Definition advance_sine_oscillator (osc : Oscillator) : Oscillator :=
  let p := (phase osc + phase_increment osc)%f32 in
  let p := if SFleb M_2PI p then (p - M_2PI)%f32 else p in
  mkOscillator p (phase_increment osc) (osc_output osc).

(** Modelled from the spec: the biquad filter of dsp.h (section 3):
    five coefficients, a delay line of two inputs and two outputs,
    and the two floats bound at construction. *)
Record BiquadFilter := mkBiquadFilter {
  coeffs : Coefficients;
  x1 : f32; x2 : f32; y1 : f32; y2 : f32;
  bq_input : FloatVar;
  bq_output : FloatVar }.

Definition init_biquad (c : Coefficients) (input output : FloatVar)
  : BiquadFilter :=
  mkBiquadFilter c fzero fzero fzero fzero input output.

(** Modelled from the spec: [init_lpf(filter, in, out, cutoff, Q,
    sample_rate)] and [init_preemphasis(filter, in, out, tau,
    sample_rate)] of dsp.h. *)
Definition init_lpf (lib : Library) (input output : FloatVar)
    (cutoff q sample_rate : f32) : BiquadFilter :=
  init_biquad (lpf_design lib cutoff q sample_rate) input output.

Definition init_preemphasis (lib : Library) (input output : FloatVar)
    (tau sample_rate : f32) : BiquadFilter :=
  init_biquad (preemphasis_design lib tau sample_rate) input output.

(** Modelled from the spec: [apply(x) -> y] of section 4.2,
    y = b0*x + b1*x1 + b2*x2 - a1*y1 - a2*y2, then the delay line
    shifts. *)
Definition biquad_output (f : BiquadFilter) (x : f32) : f32 :=
  let c := coeffs f in
  (b0 c * x + b1 c * x1 f + b2 c * x2 f - a1 c * y1 f - a2 c * y2 f)%f32.

Definition biquad_shift (f : BiquadFilter) (x y : f32) : BiquadFilter :=
  mkBiquadFilter (coeffs f) x (x1 f) y (y1 f) (bq_input f) (bq_output f).

(** Modelled from the spec: [apply_biquad] of dsp.h reads the bound
    input float, and writes the bound output float. *)
Definition apply_biquad (f : BiquadFilter) (m : Vars) : BiquadFilter * Vars :=
  let x := load (bq_input f) m in
  let y := biquad_output f x in
  (biquad_shift f x y, store (bq_output f) y m).

End Dsp.

Export Dsp.

(** ** The state of [main] *)

Record Config := mkConfig {
  stereo : Z;                   (* int stereo = 1; --stereo: atoi *)
  sample_rate : Z;              (* int sample_rate = 192000; --sample_rate: atoi *)
  audio_mpx_device : string }.  (* char *audio_mpx_device = ""; --mpx *)

Definition default_config : Config := mkConfig 1 192000 "".

(** [strlen(audio_mpx_device) != 0] *)
Definition mpx_configured (cfg : Config) : bool :=
  negb (Nat.eqb (String.length (audio_mpx_device cfg)) 0).

Record State := mkState {
  running : bool;               (* volatile sig_atomic_t running *)
  vars : Vars;
  pilot : Oscillator;
  lpf_l : BiquadFilter; lpf_r : BiquadFilter;
  preemp_l : BiquadFilter; preemp_r : BiquadFilter;
  audio_stereo_input : list f32;     (* [BUFFER_SIZE*2] *)
  left : list f32; right : list f32; (* [BUFFER_SIZE+64] *)
  mpx_in : list f32;                 (* [BUFFER_SIZE] = {0} *)
  output : list f32 }.               (* [BUFFER_SIZE] *)

Definition set_running (b : bool) (s : State) : State :=
  mkState b (vars s) (pilot s) (lpf_l s) (lpf_r s) (preemp_l s) (preemp_r s)
    (audio_stereo_input s) (left s) (right s) (mpx_in s) (output s).
Definition set_vars (m : Vars) (s : State) : State :=
  mkState (running s) m (pilot s) (lpf_l s) (lpf_r s) (preemp_l s) (preemp_r s)
    (audio_stereo_input s) (left s) (right s) (mpx_in s) (output s).
Definition set_pilot (o : Oscillator) (s : State) : State :=
  mkState (running s) (vars s) o (lpf_l s) (lpf_r s) (preemp_l s) (preemp_r s)
    (audio_stereo_input s) (left s) (right s) (mpx_in s) (output s).
Definition set_lpf_l (f : BiquadFilter) (s : State) : State :=
  mkState (running s) (vars s) (pilot s) f (lpf_r s) (preemp_l s) (preemp_r s)
    (audio_stereo_input s) (left s) (right s) (mpx_in s) (output s).
Definition set_lpf_r (f : BiquadFilter) (s : State) : State :=
  mkState (running s) (vars s) (pilot s) (lpf_l s) f (preemp_l s) (preemp_r s)
    (audio_stereo_input s) (left s) (right s) (mpx_in s) (output s).
Definition set_preemp_l (f : BiquadFilter) (s : State) : State :=
  mkState (running s) (vars s) (pilot s) (lpf_l s) (lpf_r s) f (preemp_r s)
    (audio_stereo_input s) (left s) (right s) (mpx_in s) (output s).
Definition set_preemp_r (f : BiquadFilter) (s : State) : State :=
  mkState (running s) (vars s) (pilot s) (lpf_l s) (lpf_r s) (preemp_l s) f
    (audio_stereo_input s) (left s) (right s) (mpx_in s) (output s).
Definition set_audio_stereo_input (a : list f32) (s : State) : State :=
  mkState (running s) (vars s) (pilot s) (lpf_l s) (lpf_r s) (preemp_l s)
    (preemp_r s) a (left s) (right s) (mpx_in s) (output s).
Definition set_left_right (lr : list f32 * list f32) (s : State) : State :=
  mkState (running s) (vars s) (pilot s) (lpf_l s) (lpf_r s) (preemp_l s)
    (preemp_r s) (audio_stereo_input s) (fst lr) (snd lr) (mpx_in s) (output s).
Definition set_mpx_in (a : list f32) (s : State) : State :=
  mkState (running s) (vars s) (pilot s) (lpf_l s) (lpf_r s) (preemp_l s)
    (preemp_r s) (audio_stereo_input s) (left s) (right s) a (output s).
Definition set_output (a : list f32) (s : State) : State :=
  mkState (running s) (vars s) (pilot s) (lpf_l s) (lpf_r s) (preemp_l s)
    (preemp_r s) (audio_stereo_input s) (left s) (right s) (mpx_in s) a.

(** [stop] (lines 21-25): the signal handler clears [running]. *)
Definition stop (s : State) : State := set_running false s.

(** [uninterleave] (lines 27-32). *)
Definition uninterleave (input left right : list f32) (num_samples : nat)
  : list f32 * list f32 :=
  foldl (fun lr i => (wr (fst lr) i (rd input (i * 2)),
                      wr (snd lr) i (rd input (i * 2 + 1))))
        (left, right) (seq 0 (num_samples / 2)).

(** [apply_biquad(&f)] on one of the four filters of [main]. *)
Definition apply_to (get : State -> BiquadFilter)
    (set : BiquadFilter -> State -> State) (s : State) : State :=
  let fm := apply_biquad (get s) (vars s) in
  set_vars (snd fm) (set (fst fm) s).

Section Main.

Variable lib : Library.
Variable cfg : Config.

(** The oscillator part of the loop body (lines 174-178): the two
    local floats it leaves, and the state after [advance]. *)
Definition oscillator_step (s : State) : f32 * f32 * State :=
  let s := set_vars (compute_sine_oscillator_sin lib (pilot s) (vars s)) s in
  let pilot_s := load pilot_sample (vars s) in
  let s := set_vars
             (compute_sine_oscillator_sin_multiplier lib (pilot s) 2 (vars s)) s in
  let stereo_carrier := load pilot_sample (vars s) in
  let s := set_pilot (advance_sine_oscillator (pilot s)) s in
  (pilot_s, stereo_carrier, s).

(** The filter part (lines 180-185). *)
Definition filter_step (i : nat) (s : State) : State :=
  let s := set_vars (store preemp_input_l (rd (left s) i) (vars s)) s in
  let s := set_vars (store preemp_input_r (rd (right s) i) (vars s)) s in
  let s := apply_to preemp_l set_preemp_l s in
  let s := apply_to preemp_r set_preemp_r s in
  let s := apply_to lpf_l set_lpf_l s in
  let s := apply_to lpf_r set_lpf_r s in
  s.

(** The multiplexer part (lines 187-195): two writes to [output[i]]. *)
Definition multiplex_step (i : nat) (pilot_s stereo_carrier : f32)
    (s : State) : State :=
  let s := set_output
             (wr (output s) i
                 (stereo_encode (stereo cfg)
                    (load lpf_out_l (vars s)) (load lpf_out_r (vars s))
                    pilot_s stereo_carrier)) s in
  set_output (wr (output s) i (rd (output s) i + rd (mpx_in s) i)%f32) s.

(** One pass of the body of the [for] loop (lines 174-195). *)
Definition sample_step (i : nat) (s : State) : State :=
  let '(pilot_s, stereo_carrier, s) := oscillator_step s in
  let s := filter_step i s in
  multiplex_step i pilot_s stereo_carrier s.

(** The [for] loop of lines 173-196.  A signal may be delivered
    between any two samples: [sig i] tells whether the handler runs
    just before sample [i] is processed. *)
Definition deliver (b : bool) (s : State) : State :=
  if b then stop s else s.

Definition block_loop (sig : nat -> bool) (n : nat) (s : State) : State :=
  foldl (fun s i => sample_step i (deliver (sig i) s)) s (seq 0 n).

(** The state the body of sample [i] starts from. *)
Definition before_sample (sig : nat -> bool) (i : nat) (s : State) : State :=
  deliver (sig i) (block_loop sig i s).

End Main.

(** ** The streaming loop and its collaborators

    The PulseAudio calls and the signal are the environment.  One
    [IterEnv] scripts what the environment does during one pass of the
    [while] loop; the loop answers with the events it causes.  The
    handler only clears [running], so a signal that arrives between the
    test of [running] and the first sample counts as one before sample
    0, and one that arrives after the last sample as one before the
    next test. *)

Inductive Device := InputDevice | MpxDevice | OutputDevice.

Inductive Event :=
| EvOpen (d : Device) (ok : bool)          (* pa_simple_new *)
| EvRunning (b : bool)                     (* the condition of [while(running)] is read *)
| EvRead (d : Device) (ok : bool)          (* pa_simple_read *)
| EvWrite (block : list f32) (ok : bool)   (* pa_simple_write(output_device, output, sizeof(output)) *)
| EvStderr (msg : string).

Record IterEnv := mkIterEnv {
  (* a signal is delivered before the loop condition is read *)
  sig_before : bool;
  (* pa_simple_read(input_device, ...): [None] when it returns < 0 *)
  input_read : option (list f32);
  (* pa_simple_read(mpx_device, ...), called only when configured *)
  mpx_read : option (list f32);
  (* a signal is delivered just before sample [i] is processed *)
  sig_during : nat -> bool;
  (* pa_simple_write(output_device, ...) returns >= 0 *)
  write_ok : bool }.

(** What the program finds in its uninitialised locals. *)
Record Indeterminate := mkIndeterminate {
  i_vars : Vars;
  i_audio_stereo_input : nat -> f32;
  i_left : nat -> f32;
  i_right : nat -> f32;
  i_output : nat -> f32 }.

Record Startup := mkStartup {
  output_opens : bool;
  input_opens : bool;
  mpx_opens : bool;
  stack : Indeterminate }.

(** The literal [50e-6] as a float (0x3851B717). *)
Definition c_50e_6 : f32 := S754_finite false 13743895 (-38).

Section Loop.

Variable lib : Library.
Variable cfg : Config.

(** Lines 133-157: the DSP objects and the buffers. *)
Definition main_init (u : Indeterminate) : State :=
  let fs := of_Z (sample_rate cfg) in
  mkState true (i_vars u)
    (init_sine_oscillator pilot_sample (of_Z 19000) fs)
    (init_lpf lib lpf_preemp_l lpf_out_l (of_Z 15000) (of_Z 5) fs)
    (init_lpf lib lpf_preemp_r lpf_out_r (of_Z 15000) (of_Z 5) fs)
    (init_preemphasis lib preemp_input_l lpf_preemp_l c_50e_6 fs)
    (init_preemphasis lib preemp_input_r lpf_preemp_r c_50e_6 fs)
    (i_audio_stereo_input u <$> seq 0 (BUFFER_SIZE * 2))
    (i_left u <$> seq 0 (BUFFER_SIZE + 64))
    (i_right u <$> seq 0 (BUFFER_SIZE + 64))
    (replicate BUFFER_SIZE fzero)
    (i_output u <$> seq 0 BUFFER_SIZE).

(** Lines 171-196: the block is deinterleaved and processed. *)
Definition process_block (sig : nat -> bool) (s : State) : State :=
  let s := set_left_right
             (uninterleave (audio_stereo_input s) (left s) (right s)
                (BUFFER_SIZE * 2)) s in
  block_loop lib cfg sig BUFFER_SIZE s.

(** Lines 164-170: the optional read of the external multiplex. *)
Definition read_mpx (e : IterEnv) (s : State) : option State * list Event :=
  if mpx_configured cfg then
    match mpx_read e with
    | None =>
        (None, [EvRead MpxDevice false;
                EvStderr "Error reading from MPX device"])
    | Some d => (Some (set_mpx_in (fill (mpx_in s) d) s), [EvRead MpxDevice true])
    end
  else (Some s, []).

(** Lines 158-203: the [while] loop, one [IterEnv] per pass.  The
    result is the state when the loop is left, or the state reached
    when the script ends (a run that is still going on), and the events
    in program order. *)
Fixpoint streaming_loop (envs : list IterEnv) (s : State)
  : State * list Event :=
  match envs with
  | [] => (s, [])
  | e :: envs' =>
      let s := deliver (sig_before e) s in
      if negb (running s) then (s, [EvRunning false])
      else
        match input_read e with
        | None =>
            (set_running false s,
             [EvRunning true; EvRead InputDevice false;
              EvStderr "Error reading from input device"])
        | Some d =>
            let s := set_audio_stereo_input (fill (audio_stereo_input s) d) s in
            match read_mpx e s with
            | (None, t) =>
                (set_running false s,
                 EvRunning true :: EvRead InputDevice true :: t)
            | (Some s, t) =>
                let s := process_block (sig_during e) s in
                if write_ok e then
                  let r := streaming_loop envs' s in
                  (fst r,
                   EvRunning true :: EvRead InputDevice true :: t
                     ++ EvWrite (output s) true :: snd r)
                else
                  (set_running false s,
                   EvRunning true :: EvRead InputDevice true :: t
                     ++ [EvWrite (output s) false;
                         EvStderr "Error writing to output device"])
            end
        end
  end.

(** [main] from line 90 on: the exit status and the events. *)
Definition main (st : Startup) (envs : list IterEnv) : Z * list Event :=
  if negb (output_opens st) then
    (1, [EvOpen OutputDevice false; EvStderr "pa_simple_new() failed"])
  else if negb (input_opens st) then
    (1, [EvOpen OutputDevice true; EvOpen InputDevice false;
         EvStderr "pa_simple_new() failed"])
  else if mpx_configured cfg && negb (mpx_opens st) then
    (1, [EvOpen OutputDevice true; EvOpen InputDevice true;
         EvOpen MpxDevice false; EvStderr "pa_simple_new() failed"])
  else
    let r := streaming_loop envs (main_init (stack st)) in
    (0, EvOpen OutputDevice true :: EvOpen InputDevice true
          :: (if mpx_configured cfg then [EvOpen MpxDevice true] else [])
          ++ snd r).

End Loop.

(** ** The multiplexer of the specification (section 4.3)

    The formula as the specification words it, with its boolean
    [stereo_enabled]; it is compared with [multiplex] below. *)
Definition spec_composite (stereo_enabled : bool) (L R pilot subcarrier : f32)
    (external_mpx_sample : f32) : f32 :=
  let mono := ((L + R) / c_2_0)%f32 in
  let stereo_diff := ((L - R) / c_2_0)%f32 in
  let composite :=
    if stereo_enabled
    then (mono * c_0_45 + pilot * c_0_09 + stereo_diff * subcarrier * c_0_45)%f32
    else mono in
  (composite + external_mpx_sample)%f32.

(** The two values a composite sample can take before the external
    multiplex is added (lines 191 and 193). *)
Definition mono_of (l r : f32) : f32 := ((l + r) / c_2_0)%f32.
Definition half_difference (l r : f32) : f32 := ((l - r) / c_2_0)%f32.
Definition stereo_of (l r pilot_s stereo_carrier : f32) : f32 :=
  (mono_of l r * c_0_45 + pilot_s * c_0_09
   + (half_difference l r * stereo_carrier) * c_0_45)%f32.

(** ** Well-formed states

    [wired]: every DSP object is bound to the floats that lines 136-148
    pass to its constructor.  [wf_lengths]: the arrays have their
    declared sizes (lines 154-157). *)
Definition wired (s : State) : Prop :=
  osc_output (pilot s) = pilot_sample /\
  (bq_input (preemp_l s) = preemp_input_l /\ bq_output (preemp_l s) = lpf_preemp_l) /\
  (bq_input (preemp_r s) = preemp_input_r /\ bq_output (preemp_r s) = lpf_preemp_r) /\
  (bq_input (lpf_l s) = lpf_preemp_l /\ bq_output (lpf_l s) = lpf_out_l) /\
  (bq_input (lpf_r s) = lpf_preemp_r /\ bq_output (lpf_r s) = lpf_out_r).

Definition wf_lengths (s : State) : Prop :=
  length (audio_stereo_input s) = (BUFFER_SIZE * 2)%nat /\
  length (left s) = (BUFFER_SIZE + 64)%nat /\
  length (right s) = (BUFFER_SIZE + 64)%nat /\
  length (mpx_in s) = BUFFER_SIZE /\
  length (output s) = BUFFER_SIZE.

(** One channel's filter chain as a function of its input sample:
    preemphasis first, low-pass on its output. *)
Definition chain_output (preemp lpf : BiquadFilter) (x : f32) : f32 :=
  biquad_output lpf (biquad_output preemp x).

(** [apply_biquad] seen from the filter: the delay line after input [x]. *)
Definition biquad_next (f : BiquadFilter) (x : f32) : BiquadFilter :=
  biquad_shift f x (biquad_output f x).

(** Two states that differ at most in the contents of [output]. *)
Definition same_core (s1 s2 : State) : Prop :=
  set_output [] s1 = set_output [] s2.

(** ** Reading traces *)

(** A device operation that reported failure. *)
Definition is_failure (ev : Event) : bool :=
  match ev with
  | EvRead _ false | EvWrite _ false => true
  | _ => false
  end.

(** The event of a successful read of the external multiplex, when one
    is configured. *)
Definition mpx_events (cfg : Config) : list Event :=
  if mpx_configured cfg then [EvRead MpxDevice true] else [].

(** Where an event of the loop can stand: [t1] are the events before
    [ev], [t2] the events after it, [stopped] tells that the loop was
    left with [running = 0]. *)
Definition event_context (lib : Library) (cfg : Config) (stopped : Prop)
    (t1 : list Event) (ev : Event) (t2 : list Event) : Prop :=
  match ev with
  | EvRunning false => t2 = [] /\ stopped
  | EvRunning true => exists ok t3, t2 = EvRead InputDevice ok :: t3
  | EvRead InputDevice true =>
      (exists t0, t1 = t0 ++ [EvRunning true]) /\
      ((mpx_configured cfg = true /\ stopped /\
        exists msg, t2 = [EvRead MpxDevice false; EvStderr msg]) \/
       (exists blk ok t3, t2 = mpx_events cfg ++ EvWrite blk ok :: t3))
  | EvRead InputDevice false =>
      (exists t0, t1 = t0 ++ [EvRunning true]) /\ stopped /\
      exists msg, t2 = [EvStderr msg]
  | EvRead MpxDevice true =>
      (exists t0, t1 = t0 ++ [EvRunning true; EvRead InputDevice true]) /\
      mpx_configured cfg = true /\
      exists blk ok t3, t2 = EvWrite blk ok :: t3
  | EvRead MpxDevice false =>
      (exists t0, t1 = t0 ++ [EvRunning true; EvRead InputDevice true]) /\
      mpx_configured cfg = true /\ stopped /\
      exists msg, t2 = [EvStderr msg]
  | EvWrite blk ok =>
      length blk = BUFFER_SIZE /\
      (exists t0, t1 = t0 ++ EvRunning true :: EvRead InputDevice true
                               :: mpx_events cfg) /\
      (if ok then t2 = [] \/ exists b t3, t2 = EvRunning b :: t3
       else stopped /\ exists msg, t2 = [EvStderr msg])
  | EvStderr _ => t2 = [] /\ stopped
  | EvOpen _ _ | EvRead OutputDevice _ => False
  end.

(** The state [process_block] runs its [for] loop on: [s] with the
    input deinterleaved (line 171). *)
Definition deinterleaved (s : State) : State :=
  set_left_right
    (uninterleave (audio_stereo_input s) (left s) (right s) (BUFFER_SIZE * 2)) s.

(** The value that line 191 or 193 assigns to [output[i]] when the
    block held by [s] is processed: the encoder applied to the two
    filter chains' outputs and the two oscillator samples of sample
    [i]. *)
Definition encoded_sample (lib : Library) (cfg : Config) (sig : nat -> bool)
    (i : nat) (s : State) : f32 :=
  let b := before_sample lib cfg sig i (deinterleaved s) in
  stereo_encode (stereo cfg)
    (chain_output (preemp_l b) (lpf_l b) (rd (audio_stereo_input s) (2 * i)))
    (chain_output (preemp_r b) (lpf_r b) (rd (audio_stereo_input s) (2 * i + 1)))
    (evaluate lib (pilot b) 1) (evaluate lib (pilot b) 2).

(** The write of [blk] that stands between [t1] and [t2] in the events
    of the run of script [envs] from [s0] is the write of one pass [e]
    of the script.  The passes before it, [envs1], left the loop
    running; pass [e] found no signal at its check of [running], read
    its input block [d] into [audio_stereo_input] and, when an MPX
    device is configured, the external multiplex into [mpx_in], which
    gives the state [s2] (lines 159-170); [blk] is [output] after lines
    171-196 ran on [s2].  Every cell of [blk] is the value the encoder
    computes for that sample from the block just read, plus the cell of
    [mpx_in]; [blk] has [BUFFER_SIZE] cells, is the same whatever
    [output] held before the pass and whatever signals arrive during
    it.  [t1] is the events of the earlier passes and the reads of this
    one; [t2] is the rest of the run if the write succeeds and the error
    message if it fails, after which the loop is left with
    [running = 0]. *)
Definition written_by_pass (lib : Library) (cfg : Config) (s0 : State)
    (envs : list IterEnv) (t1 : list Event) (blk : list f32) (ok : bool)
    (t2 : list Event) : Prop :=
  exists envs1 e envs2 d s2,
    envs = envs1 ++ e :: envs2 /\
    let r1 := streaming_loop lib cfg envs1 s0 in
    let s1 := set_audio_stereo_input
                (fill (audio_stereo_input (fst r1)) d) (fst r1) in
    let s3 := process_block lib cfg (sig_during e) s2 in
    (running (fst r1) = true /\ sig_before e = false /\
     input_read e = Some d /\ read_mpx cfg e s1 = (Some s2, mpx_events cfg) /\
     audio_stereo_input s2 = fill (audio_stereo_input (fst r1)) d) /\
    t1 = snd r1 ++ EvRunning true :: EvRead InputDevice true :: mpx_events cfg /\
    (blk = output s3 /\ ok = write_ok e) /\
    (forall i, (i < BUFFER_SIZE)%nat ->
       blk !! i = Some (encoded_sample lib cfg (sig_during e) i s2
                        + rd (mpx_in s2) i)%f32) /\
    (length blk = BUFFER_SIZE /\
     (forall a, length a = BUFFER_SIZE ->
        output (process_block lib cfg (sig_during e) (set_output a s2)) = blk) /\
     (forall sig, output (process_block lib cfg sig s2) = blk)) /\
    t2 = (if write_ok e then snd (streaming_loop lib cfg envs2 s3)
          else [EvStderr "Error writing to output device"]) /\
    fst (streaming_loop lib cfg envs s0)
    = (if write_ok e then fst (streaming_loop lib cfg envs2 s3)
       else set_running false s3).

(** The configuration after [--stereo z]. *)
Definition with_stereo (z : Z) (cfg : Config) : Config :=
  mkConfig z (sample_rate cfg) (audio_mpx_device cfg).

(** A float that is neither a zero nor a NaN, with an exponent the
    format has. *)
Definition nonzero_number (x : f32) : Prop :=
  match x with
  | S754_finite _ _ e => -149 <= e
  | S754_infinity _ => True
  | _ => False
  end.

(** The command-line flag read as a C condition. *)
Definition stereo_enabled (cfg : Config) : bool := negb (Z.eqb (stereo cfg) 0).

(** Some floats used in examples: 0.5f, 0.1f, -1.0f, the smallest
    positive subnormal 2^-149 and 2^-30. *)
Definition c_0_5 : f32 := S754_finite false 8388608 (-24).
Definition c_0_1 : f32 := S754_finite false 13421773 (-27).
Definition c_1_0 : f32 := S754_finite false 8388608 (-23).
Definition c_m1_0 : f32 := S754_finite true 8388608 (-23).
Definition c_min_subnormal : f32 := S754_finite false 1 (-149).
Definition c_2_pow_m30 : f32 := S754_finite false 8388608 (-53).

(** ** A library and an environment for the examples

    The theorems below hold for every [Library].  Where a theorem is
    run on a concrete input, this one is used: a polynomial stands in
    for libm's [sinf] (good to about 1e-2 after range reduction), the
    low-pass design is the usual resonant biquad, the preemphasis is
    y = x + tau*fs*(x - x1). *)
Definition c_pi : f32 := S754_finite false 13176795 (-22).

Definition poly_sinf (x : f32) : f32 :=
  let x := if SFleb M_2PI x then (x - M_2PI)%f32 else x in
  let x := if SFleb M_2PI x then (x - M_2PI)%f32 else x in
  let x := if SFleb c_pi x then (x - M_2PI)%f32 else x in
  let x2 := (x * x)%f32 in
  (x * (c_1_0 - x2 / of_Z 6 * (c_1_0 - x2 / of_Z 20
        * (c_1_0 - x2 / of_Z 42 * (c_1_0 - x2 / of_Z 72)))))%f32.

Definition poly_cosf (x : f32) : f32 := poly_sinf (x + c_pi / c_2_0)%f32.

Definition example_lpf_design (cutoff q fs : f32) : Coefficients :=
  let w0 := (M_2PI * cutoff / fs)%f32 in
  let alpha := (poly_sinf w0 / (c_2_0 * q))%f32 in
  let cw := poly_cosf w0 in
  let a0 := (c_1_0 + alpha)%f32 in
  mkCoefficients ((c_1_0 - cw) / c_2_0 / a0)%f32 ((c_1_0 - cw) / a0)%f32
    ((c_1_0 - cw) / c_2_0 / a0)%f32
    (of_Z (-2) * cw / a0)%f32 ((c_1_0 - alpha) / a0)%f32.

Definition example_preemphasis_design (tau fs : f32) : Coefficients :=
  mkCoefficients (c_1_0 + tau * fs)%f32 (fzero - tau * fs)%f32 fzero fzero fzero.

Definition example_library : Library :=
  mkLibrary poly_sinf example_lpf_design example_preemphasis_design.

(** Uninitialised locals that hold 0.1f everywhere. *)
Definition example_stack : Indeterminate :=
  mkIndeterminate (mkVars c_0_1 c_0_1 c_0_1 c_0_1 c_0_1 c_0_1 c_0_1)
    (fun _ => c_0_1) (fun _ => c_0_1) (fun _ => c_0_1) (fun _ => c_0_1).

Definition example_startup : Startup := mkStartup true true true example_stack.

(** The state [main] enters its loop with, in the examples. *)
Definition example_state : State :=
  main_init example_library default_config example_stack.

(** A block of input: left channel 0.5, right channel -1.0. *)
Definition example_block : list f32 :=
  concat (replicate BUFFER_SIZE [c_0_5; c_m1_0]).

(** A block of silence. *)
Definition silent_block : list f32 := replicate (BUFFER_SIZE * 2) fzero.

(** The options [--stereo 0]. *)
Definition stereo_off_config : Config := mkConfig 0 192000 "".

(** The state of the first pass once [example_block] has been read. *)
Definition example_block_state (cfg : Config) : State :=
  set_audio_stereo_input
    (fill (audio_stereo_input (main_init example_library cfg example_stack))
       example_block)
    (main_init example_library cfg example_stack).

Definition no_signal : nat -> bool := fun _ => false.

(** A pass whose I/O succeeds, one whose input read fails, one whose
    write fails, and one during which a signal arrives (before sample
    100). *)
Definition pass_ok : IterEnv :=
  mkIterEnv false (Some example_block) None no_signal true.
Definition pass_silent : IterEnv :=
  mkIterEnv false (Some silent_block) None no_signal true.
Definition pass_input_fails : IterEnv :=
  mkIterEnv false None None no_signal true.
Definition pass_write_fails : IterEnv :=
  mkIterEnv false (Some example_block) None no_signal false.
Definition pass_signalled : IterEnv :=
  mkIterEnv false (Some example_block) None (Nat.eqb 100) true.

(** ** Counting events *)

Fixpoint count (p : Event -> bool) (t : list Event) : nat :=
  match t with
  | [] => 0
  | ev :: t => ((if p ev then 1 else 0) + count p t)%nat
  end.

(** [pa_simple_write] was called; it was called and succeeded. *)
Definition is_write (ev : Event) : bool :=
  match ev with EvWrite _ _ => true | _ => false end.
Definition is_written (ev : Event) : bool :=
  match ev with EvWrite _ true => true | _ => false end.

(** A block was read from the input device, from the MPX device. *)
Definition is_input_block (ev : Event) : bool :=
  match ev with EvRead InputDevice true => true | _ => false end.
Definition is_mpx_block (ev : Event) : bool :=
  match ev with EvRead MpxDevice true => true | _ => false end.

(** [pa_simple_read] was called on the MPX device. *)
Definition is_mpx_read (ev : Event) : bool :=
  match ev with EvRead MpxDevice _ => true | _ => false end.

(** The condition of the [while] was read and found set. *)
Definition is_pass (ev : Event) : bool :=
  match ev with EvRunning true => true | _ => false end.

(** A device was read or written. *)
Definition is_device_use (ev : Event) : bool :=
  match ev with EvRead _ _ | EvWrite _ _ => true | _ => false end.

(** ** Passes that go through *)

Definition succeeded {A : Type} (o : option A) : bool :=
  match o with Some _ => true | None => false end.

(** No signal arrives while the block is processed. *)
Definition quiet (sig : nat -> bool) : bool :=
  negb (existsb sig (seq 0 BUFFER_SIZE)).

(** Nothing stops the loop in pass [e]: no signal before or during
    the pass, and every device call succeeds. *)
Definition pass_completes (cfg : Config) (e : IterEnv) : bool :=
  negb (sig_before e) && succeeded (input_read e)
  && (negb (mpx_configured cfg) || succeeded (mpx_read e))
  && write_ok e && quiet (sig_during e).

(** [pa_simple_read] on the input device, where it succeeds, hands
    over a whole block of [BUFFER_SIZE*2] floats. *)
Definition reads_whole_blocks (e : IterEnv) : Prop :=
  forall d, input_read e = Some d -> length d = (BUFFER_SIZE * 2)%nat.

(** ** Relations between states *)

(** What the loop carries from one pass to the next and computes
    with: [running], the oscillator, the four filters and the block of
    external multiplex. *)
Definition dsp_agree (s1 s2 : State) : Prop :=
  running s1 = running s2 /\ pilot s1 = pilot s2 /\
  (preemp_l s1 = preemp_l s2 /\ lpf_l s1 = lpf_l s2) /\
  (preemp_r s1 = preemp_r s2 /\ lpf_r s1 = lpf_r s2) /\
  mpx_in s1 = mpx_in s2.

(** [s2] is [s] after the two reads of a pass: everything but the two
    input buffers is as it was. *)
Definition refilled (s s2 : State) : Prop :=
  running s2 = running s /\ pilot s2 = pilot s /\
  left s2 = left s /\ right s2 = right s /\ output s2 = output s.

(** One channel's two filters after input sample [x] (lines 182-185). *)
Definition chain_next (pf : BiquadFilter * BiquadFilter) (x : f32)
  : BiquadFilter * BiquadFilter :=
  (biquad_next (fst pf) x, biquad_next (snd pf) (biquad_output (fst pf) x)).

(** The samples of channel [k] (0 is left, 1 is right) of an
    interleaved block. *)
Definition channel (input : list f32) (k : nat) : list f32 :=
  (fun i => rd input (2 * i + k)) <$> seq 0 BUFFER_SIZE.

(** Two filters with the same coefficients and the same delay line
    (they may be bound to different floats). *)
Definition same_filter (f g : BiquadFilter) : Prop :=
  coeffs f = coeffs g /\ x1 f = x1 g /\ x2 f = x2 g /\
  y1 f = y1 g /\ y2 f = y2 g.

(** The two channels of a state are in the same condition. *)
Definition channels_alike (s : State) : Prop :=
  same_filter (preemp_l s) (preemp_r s) /\ same_filter (lpf_l s) (lpf_r s).

(** ** The devices [main] releases

    [pa_simple_free] is called at lines 117, 125-126 and 206-207: the
    devices released on each way out of [main], in order. *)
Definition main_frees (cfg : Config) (st : Startup) : list Device :=
  if negb (output_opens st) then []
  else if negb (input_opens st) then [OutputDevice]
  else if mpx_configured cfg && negb (mpx_opens st)
       then [InputDevice; OutputDevice]
       else [InputDevice; OutputDevice].

(** ** The command line (lines 41-88)

    [getopt_long] is the environment: it hands [main] one option
    character and its argument at a time ('?' for what it does not
    recognise).  [atoi] is libc's. *)
Record Options := mkOptions {
  opt_stereo : Z;                 (* int stereo = 1 *)
  opt_sample_rate : Z;            (* int sample_rate = 192000 *)
  opt_input : string;             (* audio_input_device = "default" *)
  opt_output : string;            (* audio_output_device = "default" *)
  opt_mpx : string }.             (* audio_mpx_device = "" *)

Definition default_options : Options :=
  mkOptions 1 192000 "default" "default" "".

(** The body of the [switch] (lines 59-86); [None] is the [return 0]
    of the help. *)
Definition option_case (atoi : string -> Z) (o : Options) (opt : ascii)
    (optarg : string) : option Options :=
  if Ascii.eqb opt "s" then
    Some (mkOptions (atoi optarg) (opt_sample_rate o) (opt_input o)
            (opt_output o) (opt_mpx o))
  else if Ascii.eqb opt "S" then
    Some (mkOptions (opt_stereo o) (atoi optarg) (opt_input o)
            (opt_output o) (opt_mpx o))
  else if Ascii.eqb opt "i" then
    Some (mkOptions (opt_stereo o) (opt_sample_rate o) optarg
            (opt_output o) (opt_mpx o))
  else if Ascii.eqb opt "o" then
    Some (mkOptions (opt_stereo o) (opt_sample_rate o) (opt_input o)
            optarg (opt_mpx o))
  else if Ascii.eqb opt "m" then
    Some (mkOptions (opt_stereo o) (opt_sample_rate o) (opt_input o)
            (opt_output o) optarg)
  else if Ascii.eqb opt "h" then None
  else Some o.

(** The [while] over [getopt_long] (lines 58-87). *)
Fixpoint parse_options (atoi : string -> Z) (args : list (ascii * string))
    (o : Options) : option Options :=
  match args with
  | [] => Some o
  | (opt, optarg) :: args =>
      match option_case atoi o opt optarg with
      | None => None
      | Some o => parse_options atoi args o
      end
  end.

(** The argument of the last occurrence of option [c], if any. *)
Fixpoint last_arg (c : ascii) (args : list (ascii * string)) : option string :=
  match args with
  | [] => None
  | (opt, optarg) :: args =>
      match last_arg c args with
      | Some a => Some a
      | None => if Ascii.eqb opt c then Some optarg else None
      end
  end.

Definition config_of (o : Options) : Config :=
  mkConfig (opt_stereo o) (opt_sample_rate o) (opt_mpx o).

(** [main] from its first line: the options, then the devices and the
    loop.  What goes to standard output (the version line, the help
    text) is not among the events. *)
Definition fm96 (atoi : string -> Z) (lib : Library)
    (args : list (ascii * string)) (st : Startup) (envs : list IterEnv)
  : Z * list Event :=
  match parse_options atoi args default_options with
  | None => (0, [])
  | Some o => main lib (config_of o) st envs
  end.

(** Uninitialised locals that hold zeros. *)
Definition zero_stack : Indeterminate :=
  mkIndeterminate (mkVars fzero fzero fzero fzero fzero fzero fzero)
    (fun _ => fzero) (fun _ => fzero) (fun _ => fzero) (fun _ => fzero).

(** An [atoi] for the examples: the decimal digits at the head of the
    string. *)
Definition digit_of (c : ascii) : option Z :=
  let n := Z.of_nat (nat_of_ascii c) in
  if (48 <=? n) && (n <=? 57) then Some (n - 48) else None.

Fixpoint atoi_from (acc : Z) (s : string) : Z :=
  match s with
  | EmptyString => acc
  | String c s =>
      match digit_of c with
      | Some d => atoi_from (10 * acc + d) s
      | None => acc
      end
  end.

Definition example_atoi : string -> Z := atoi_from 0.

(** The arithmetic is evaluated on closed inputs only. *)
Arguments fadd : simpl never.
Arguments fsub : simpl never.
Arguments fmul : simpl never.
Arguments fdiv : simpl never.
Arguments of_Z : simpl never.
Arguments evaluate : simpl never.
Arguments biquad_output : simpl never.
Arguments advance_sine_oscillator : simpl never.
Arguments stereo_encode : simpl never.
Arguments multiplex : simpl never.
Arguments rd : simpl never.
Arguments wr : simpl never.
Arguments fill : simpl never.
Arguments BUFFER_SIZE : simpl never.
Arguments uninterleave : simpl never.
Arguments block_loop : simpl never.
Arguments process_block : simpl never.
Arguments deinterleaved : simpl never.
Arguments encoded_sample : simpl never.
Arguments example_state : simpl never.

(** * Properties *)

(** ** Single-precision facts *)

Lemma literals_are_nearest :
  c_2_0 = of_Z 2 /\ c_1_0 = of_Z 1 /\ c_m1_0 = of_Z (-1) /\
  c_0_45 = (of_Z 45 / of_Z 100)%f32 /\
  c_0_09 = (of_Z 9 / of_Z 100)%f32 /\
  c_0_5 = (of_Z 1 / of_Z 2)%f32 /\
  c_0_1 = (of_Z 1 / of_Z 10)%f32 /\
  c_50e_6 = (of_Z 50 / of_Z 1000000)%f32.
Proof. vm_compute. repeat split; reflexivity. Qed.

Lemma literals_valid :
  forallb valid [c_2_0; c_0_45; c_0_09; c_0_5; c_0_1; c_1_0; c_m1_0;
                 c_min_subnormal; c_2_pow_m30; c_50e_6; M_2PI] = true.
Proof. vm_compute. reflexivity. Qed.

Lemma same_value_refl (x : f32) : same_value x x.
Proof. left; reflexivity. Qed.

Lemma is_zero_inv (x : f32) : is_zero x = true -> exists s, x = S754_zero s.
Proof. destruct x; try discriminate; eauto. Qed.

Lemma truthy_is_zero (x : f32) : truthy x = negb (is_zero x).
Proof. destruct x; reflexivity. Qed.

(** [x - x] is a zero for every finite [x]. *)
Lemma fsub_diag (x : f32) : is_finite x = true -> is_zero (x - x)%f32 = true.
Proof.
  destruct x as [s | s | | s m e]; try discriminate; intros _.
  - destruct s; reflexivity.
  - unfold fsub, SFsub. rewrite Z.sub_diag. reflexivity.
Qed.

(** C's [==] on finite floats: both zero, or the same datum. *)
Lemma feqb_finite (x y : f32) :
  is_finite x = true -> feqb x y = true ->
  (is_zero x = true /\ is_zero y = true) \/ x = y.
Proof.
  destruct x as [sx | sx | | sx mx ex]; try discriminate; intros _;
    destruct y as [sy | sy | | sy my ey]; unfold feqb, SFeqb; simpl;
    try discriminate; try (destruct sx; discriminate);
    try (destruct sy; discriminate).
  - left; split; reflexivity.
  - destruct sx, sy; try discriminate;
      destruct (Z.compare_spec ex ey) as [He | He | He]; try discriminate;
      subst; simpl; intros H; right.
    + destruct (Pos.compare_cont Eq mx my) eqn:Hc; try discriminate.
      apply Pos.compare_eq in Hc. subst. reflexivity.
    + destruct (Pos.compare_cont Eq mx my) eqn:Hc; try discriminate.
      apply Pos.compare_eq in Hc. subst. reflexivity.
Qed.

Lemma fsub_zeros (x y : f32) :
  is_zero x = true -> is_zero y = true -> is_zero (x - y)%f32 = true.
Proof.
  intros [sx ->]%is_zero_inv [sy ->]%is_zero_inv. destruct sx, sy; reflexivity.
Qed.

Lemma fdiv_zero_2 (x : f32) : is_zero x = true -> is_zero (x / c_2_0)%f32 = true.
Proof. intros [s ->]%is_zero_inv. reflexivity. Qed.

(** The half-difference of two equal finite floats is a zero. *)
Lemma half_difference_equal (l r : f32) :
  is_finite l = true -> feqb l r = true ->
  truthy ((l - r) / c_2_0)%f32 = false.
Proof.
  intros Hf He. rewrite truthy_is_zero. apply negb_false_iff, fdiv_zero_2.
  destruct (feqb_finite l r Hf He) as [[Hl Hr] | Heq].
  - apply fsub_zeros; assumption.
  - subst r. apply fsub_diag. assumption.
Qed.

(** Adding [+0] keeps the value (and turns [-0] into [+0]). *)
Lemma fadd_zero_r (x : f32) : same_value (x + fzero)%f32 x.
Proof.
  destruct x as [s | s | | s m e]; try (left; reflexivity).
  destruct s; [right; split; reflexivity | left; reflexivity].
Qed.

Lemma fadd_zero_l (z x : f32) : is_zero z = true -> same_value (z + x)%f32 x.
Proof.
  intros [sz ->]%is_zero_inv.
  destruct x as [s | s | | s m e]; try (left; reflexivity).
  destruct sz, s; try (left; reflexivity); right; split; reflexivity.
Qed.

Lemma fsub_zero_r (x z : f32) : is_zero z = true -> same_value (x - z)%f32 x.
Proof.
  intros [sz ->]%is_zero_inv.
  destruct x as [s | s | | s m e]; try (left; reflexivity).
  destruct sz, s; try (left; reflexivity); right; split; reflexivity.
Qed.

(** ** Rounding keeps a nonzero number nonzero *)

(** Powers of two are atoms for the linear arithmetic below. *)
Ltac hide_pow :=
  repeat match goal with
         | |- context [Z.pow ?a ?b] =>
             let x := fresh "pw" in set (x := Z.pow a b) in *; clearbody x
         | H : context [Z.pow ?a ?b] |- _ =>
             let x := fresh "pw" in set (x := Z.pow a b) in *; clearbody x
         end.

Lemma digits2_pos_bounds (p : positive) :
  2 ^ (Zpos (digits2_pos p) - 1) <= Zpos p < 2 ^ Zpos (digits2_pos p).
Proof.
  induction p as [p IH | p IH |]; cbn [digits2_pos].
  - rewrite Pos2Z.inj_succ, (Pos2Z.inj_xI p).
    replace (Z.succ (Zpos (digits2_pos p)) - 1) with (Z.succ (Zpos (digits2_pos p) - 1)) by lia.
    rewrite !Z.pow_succ_r by lia. hide_pow. lia.
  - rewrite Pos2Z.inj_succ, (Pos2Z.inj_xO p).
    replace (Z.succ (Zpos (digits2_pos p)) - 1) with (Z.succ (Zpos (digits2_pos p) - 1)) by lia.
    rewrite !Z.pow_succ_r by lia. hide_pow. lia.
  - cbn. lia.
Qed.

Lemma iter_pos_nat {A : Type} (f : A -> A) (p : positive) (x : A) :
  SpecFloat.iter_pos f p x = Nat.iter (Pos.to_nat p) f x.
Proof.
  revert x. induction p as [p IH | p IH |]; intros x; cbn [SpecFloat.iter_pos].
  - rewrite !IH, Pos2Nat.inj_xI.
    replace (S (2 * Pos.to_nat p)) with (Pos.to_nat p + (Pos.to_nat p + 1))%nat by lia.
    rewrite !Nat.iter_add. reflexivity.
  - rewrite !IH, Pos2Nat.inj_xO.
    replace (2 * Pos.to_nat p)%nat with (Pos.to_nat p + Pos.to_nat p)%nat by lia.
    rewrite Nat.iter_add. reflexivity.
  - reflexivity.
Qed.

Lemma shr_1_m (mrs : shr_record) :
  0 <= shr_m mrs -> shr_m (shr_1 mrs) = shr_m mrs / 2 /\ 0 <= shr_m (shr_1 mrs).
Proof.
  destruct mrs as [m r s]. cbn [shr_m]. intros Hm.
  assert (H : shr_m (shr_1 (Build_shr_record m r s)) = Z.div2 m).
  { destruct m as [| [p | p |] | p]; try reflexivity. lia. }
  rewrite H, Z.div2_div. split; [reflexivity |].
  apply Z.div_pos; lia.
Qed.

Lemma shr_iter_m (n : nat) (mrs : shr_record) :
  0 <= shr_m mrs ->
  shr_m (Nat.iter n shr_1 mrs) = shr_m mrs / 2 ^ Z.of_nat n /\
  0 <= shr_m (Nat.iter n shr_1 mrs).
Proof.
  intros Hm. induction n as [| n [IH1 IH2]].
  - cbn. rewrite Z.div_1_r. auto.
  - rewrite Nat.iter_succ. destruct (shr_1_m _ IH2) as [H1 H2]. split; [| exact H2].
    rewrite H1, IH1, Nat2Z.inj_succ, Z.pow_succ_r by lia.
    rewrite Z.div_div by (try apply Z.pow_pos_nonneg; lia). f_equal. lia.
Qed.

Lemma shr_record_of_loc_m (m : Z) (l : location) :
  shr_m (shr_record_of_loc m l) = m.
Proof. destruct l as [| []]; reflexivity. Qed.

Lemma fexp_f32 (e : Z) : fexp prec emax e = Z.max (e - 24) (-149).
Proof. reflexivity. Qed.

(** Shifting to the format's exponent keeps a positive mantissa
    positive, when the exponent is not below the smallest one. *)
Lemma shr_fexp_pos (m e : Z) (l : location) :
  0 < m -> -149 <= e ->
  0 < shr_m (fst (shr_fexp prec emax m e l)) /\
  -149 <= snd (shr_fexp prec emax m e l).
Proof.
  intros Hm He. unfold shr_fexp, shr. rewrite fexp_f32.
  destruct m as [| q | q]; try lia. cbn [Zdigits2].
  pose proof (digits2_pos_bounds q) as [Hlo Hhi].
  set (d := Zpos (digits2_pos q)) in *.
  destruct (Z.max (d + e - 24) (-149) - e) as [| p | p] eqn:Hn;
    cbn [fst snd]; rewrite ?shr_record_of_loc_m; try (split; lia).
  rewrite iter_pos_nat.
  destruct (shr_iter_m (Pos.to_nat p) (shr_record_of_loc (Zpos q) l)) as [-> _];
    [rewrite shr_record_of_loc_m; lia |].
  rewrite shr_record_of_loc_m, positive_nat_Z.
  split; [| lia].
  apply Z.div_str_pos. split; [apply Z.pow_pos_nonneg; lia |].
  apply Z.le_trans with (2 ^ (d - 1)); [| exact Hlo].
  apply Z.pow_le_mono_r; lia.
Qed.


Lemma round_nearest_even_ge (m : Z) (l : location) :
  m <= round_nearest_even m l.
Proof.
  destruct l as [| []]; cbn; try lia. destruct (Z.even m); lia.
Qed.

(** The second half of [binary_round_aux]: a positive mantissa gives a
    finite nonzero float or an infinity. *)
Lemma binary_round_aux_end (s : bool) (m e : Z) :
  0 < m -> -149 <= e ->
  nonzero_number
    (let '(mrs, e') := shr_fexp prec emax m e loc_Exact in
     match shr_m mrs with
     | Z0 => S754_zero s
     | Zpos m' => if e' <=? emax - prec then S754_finite s m' e'
                  else S754_infinity s
     | Zneg _ => S754_nan
     end).
Proof.
  intros Hm He. destruct (shr_fexp_pos m e loc_Exact Hm He) as [H1 H2].
  destruct (shr_fexp prec emax m e loc_Exact) as [mrs e']. cbn [fst snd] in *.
  destruct (shr_m mrs) as [| m' | m']; try lia.
  destruct (e' <=? emax - prec); cbn; auto.
Qed.

Lemma binary_round_aux_nonzero (s : bool) (m e : Z) (l : location) :
  0 < m -> -149 <= e -> nonzero_number (binary_round_aux prec emax s m e l).
Proof.
  intros Hm He. unfold binary_round_aux.
  destruct (shr_fexp_pos m e l Hm He) as [H1 H2].
  destruct (shr_fexp prec emax m e l) as [mrs e']. cbn [fst snd] in *.
  apply binary_round_aux_end; [| exact H2].
  pose proof (round_nearest_even_ge (shr_m mrs) (loc_of_shr_record mrs)). lia.
Qed.

(** A remainder above one half rounds up to the smallest mantissa. *)
Lemma binary_round_aux_half_up (s : bool) (e : Z) :
  -149 <= e ->
  nonzero_number (binary_round_aux prec emax s 0 e (loc_Inexact Gt)).
Proof.
  intros He. unfold binary_round_aux.
  assert (Hs : shr_fexp prec emax 0 e (loc_Inexact Gt)
               = (Build_shr_record 0 true true, e)).
  { unfold shr_fexp, shr. rewrite fexp_f32. cbn [Zdigits2].
    destruct (Z.max (0 + e - 24) (-149) - e) eqn:Hn; try reflexivity. lia. }
  rewrite Hs. cbn [shr_m loc_of_shr_record round_nearest_even Z.add].
  apply binary_round_aux_end; lia.
Qed.

Lemma binary_round_nonzero (s : bool) (m : positive) (e : Z) :
  -149 <= e -> nonzero_number (binary_round prec emax s m e).
Proof.
  intros He. unfold binary_round, shl_align. rewrite fexp_f32.
  destruct (Z.max (Zpos (digits2_pos m) + e - 24) (-149) - e) eqn:Hn;
    apply binary_round_aux_nonzero; lia.
Qed.

Lemma truthy_nonzero_number (x : f32) : nonzero_number x -> truthy x = true.
Proof. destruct x; cbn; tauto. Qed.

Lemma pow2_le (a b : Z) : 0 <= a <= b -> 2 ^ a <= 2 ^ b.
Proof. intros H. apply Z.pow_le_mono_r; lia. Qed.

Lemma pow2_pos (a : Z) : 0 <= a -> 0 < 2 ^ a.
Proof. intros H. apply Z.pow_pos_nonneg; lia. Qed.

(** The scaled dividend of [x / 2.0f] is above half the divisor's
    mantissa unless [x] is the smallest subnormal. *)
Lemma scaled_dividend (m : positive) (e : Z) :
  -149 <= e -> (m <> 1%positive \/ e <> -149) ->
  let d1 := Zpos (digits2_pos m) in
  let e' := Z.min (Z.max (d1 + e - 2 - 24) (-149)) (e - -22) in
  let s := e - -22 - e' in
  -149 <= e' /\ 0 <= s /\ 2 ^ 22 < Zpos m * 2 ^ s.
Proof.
  intros He Hne. cbv zeta.
  pose proof (digits2_pos_bounds m) as [Hlo _].
  set (d1 := Zpos (digits2_pos m)) in *.
  assert (Hd : 1 <= d1) by (unfold d1; lia).
  split; [lia |]. split; [lia |].
  destruct (Z_le_gt_dec (d1 + e - 26) (-149)) as [Hc | Hc].
  - replace (e - -22 - _) with (e + 171) by lia.
    destruct (Z.eq_dec e (-149)) as [-> | He'].
    + assert (2 <= Zpos m) by lia. cbn. lia.
    + pose proof (pow2_le 23 (e + 171) ltac:(lia)) as H23.
      change (2 ^ 23) with 8388608 in H23. change (2 ^ 22) with 4194304.
      assert (1 <= Zpos m) by lia. hide_pow. nia.
  - destruct (Z_le_gt_dec d1 48) as [H48 | H48].
    + replace (e - -22 - _) with (48 - d1) by lia.
      assert (Hp : 2 ^ 47 = 2 ^ (d1 - 1) * 2 ^ (48 - d1)).
      { rewrite <- Z.pow_add_r by lia. f_equal. lia. }
      pose proof (pow2_pos (48 - d1) ltac:(lia)) as Hpos.
      change (2 ^ 22) with 4194304. change (2 ^ 47) with 140737488355328 in Hp.
      hide_pow. nia.
    + replace (e - -22 - _) with 0 by lia.
      pose proof (pow2_le 48 (d1 - 1) ltac:(lia)) as H48'.
      change (2 ^ 48) with 281474976710656 in H48'. change (2 ^ 22) with 4194304.
      rewrite Z.pow_0_r. hide_pow. lia.
Qed.

Lemma div_eucl_div_mod (a b : Z) : Z.div_eucl a b = (a / b, a mod b).
Proof. unfold Z.div, Z.modulo. destruct (Z.div_eucl a b); reflexivity. Qed.

(** The integer division behind [x / 2.0f]. *)
Lemma div_core_two (m : positive) (e : Z) :
  -149 <= e ->
  let d1 := Zpos (digits2_pos m) in
  let e' := Z.min (Z.max (d1 + e - 2 - 24) (-149)) (e - -22) in
  let s := e - -22 - e' in
  SFdiv_core_binary prec emax (Zpos m) e 8388608 (-22)
  = ((Zpos m * 2 ^ s) / 8388608, e',
     new_location 8388608 ((Zpos m * 2 ^ s) mod 8388608)).
Proof.
  intros He. cbv zeta. unfold SFdiv_core_binary.
  change (Zdigits2 8388608) with 24. change (Zdigits2 (Zpos m)) with (Zpos (digits2_pos m)).
  rewrite fexp_f32.
  change (IntDef.Z.min) with Z.min. change (IntDef.Z.sub) with Z.sub.
  change (IntDef.Z.add) with Z.add.
  replace (Z.pos (digits2_pos m) + e - (24 + -22) - 24)
    with (Z.pos (digits2_pos m) + e - 2 - 24) by lia.
  set (e' := Z.min (Z.max (Z.pos (digits2_pos m) + e - 2 - 24) (-149)) (e - -22)).
  assert (Hs : 0 <= e - -22 - e') by (unfold e'; lia).
  assert (Hm : match e - -22 - e' with
               | 0 => Zpos m
               | Zpos _ => Z.shiftl (Zpos m) (e - -22 - e')
               | Zneg _ => 0
               end = Zpos m * 2 ^ (e - -22 - e')).
  { destruct (e - -22 - e') as [| p | p] eqn:Hp.
    - rewrite Z.pow_0_r. lia.
    - rewrite Z.shiftl_mul_pow2 by lia. reflexivity.
    - lia. }
  change IntDef.Z.shiftl with Z.shiftl. change IntDef.Z.div_eucl with Z.div_eucl.
  rewrite Hm, div_eucl_div_mod. reflexivity.
Qed.

(** Halving a nonzero finite float gives a nonzero float, except for
    the smallest subnormal, whose half rounds to zero. *)
Lemma fdiv_two_nonzero (s : bool) (m : positive) (e : Z) :
  -149 <= e -> (m <> 1%positive \/ e <> -149) ->
  nonzero_number (S754_finite s m e / c_2_0)%f32.
Proof.
  intros He Hne.
  destruct (scaled_dividend m e He Hne) as (He' & Hs & Hm').
  unfold fdiv, SFdiv, c_2_0. rewrite (div_core_two m e He).
  set (e' := Z.min _ _) in *. set (m' := Zpos m * 2 ^ _) in *.
  change (2 ^ 22) with 4194304 in Hm'.
  destruct (Z_lt_le_dec m' 8388608) as [Hlt | Hge].
  - rewrite Z.div_small, Z.mod_small by lia.
    assert (Hl : new_location 8388608 m' = loc_Inexact Gt).
    { unfold new_location, new_location_even. cbn [Z.even].
      destruct (Z.eqb_spec m' 0) as [H0 | H0]; [lia |].
      change (IntDef.Z.mul 2 m') with (2 * m').
      change (IntDef.Z.compare (2 * m') 8388608) with (2 * m' ?= 8388608).
      destruct (Z.compare_spec (2 * m') 8388608); try lia. reflexivity. }
    rewrite Hl. apply binary_round_aux_half_up, He'.
  - apply binary_round_aux_nonzero; [| exact He'].
    apply Z.div_str_pos. lia.
Qed.

Lemma valid_finite (s : bool) (m : positive) (e : Z) :
  valid (S754_finite s m e) = true ->
  e = Z.max (Zpos (digits2_pos m) + e - 24) (-149).
Proof.
  unfold valid, valid_binary, bounded, canonical_mantissa. rewrite fexp_f32.
  intros H. apply andb_true_iff in H as [H _].
  apply Z.eqb_eq in H. lia.
Qed.

Lemma pos_iter_xO (m d : positive) :
  Zpos (Pos.iter xO m d) = Zpos m * 2 ^ Zpos d.
Proof.
  induction d as [| d IH] using Pos.peano_ind.
  - cbn [Pos.iter]. rewrite (Pos2Z.inj_xO m). change (2 ^ 1) with 2. lia.
  - rewrite Pos.iter_succ, (Pos2Z.inj_xO (Pos.iter xO m d)), IH.
    rewrite Pos2Z.inj_succ, Z.pow_succ_r by lia. lia.
Qed.

Lemma shl_align_value (m : positive) (e e' : Z) :
  e' <= e -> Zpos (fst (shl_align m e e')) = Zpos m * 2 ^ (e - e').
Proof.
  intros H. unfold shl_align.
  destruct (e' - e) as [| d | d] eqn:Hd; cbn [fst]; try lia.
  - replace (e - e') with 0 by lia. rewrite Z.pow_0_r. lia.
  - replace (e - e') with (Zpos d) by lia. apply pos_iter_xO.
Qed.

(** Two canonical mantissa-exponent pairs with the same value are the
    same pair. *)
Lemma canonical_scaled (mx my : positive) (ex ey : Z) :
  ex = Z.max (Zpos (digits2_pos mx) + ex - 24) (-149) ->
  ey = Z.max (Zpos (digits2_pos my) + ey - 24) (-149) ->
  ex <= ey -> Zpos mx = Zpos my * 2 ^ (ey - ex) -> ex = ey /\ mx = my.
Proof.
  intros Hx Hy Hle Hv.
  destruct (Z.eq_dec ex ey) as [-> | Hne].
  - split; [reflexivity |]. rewrite Z.sub_diag, Z.pow_0_r in Hv. lia.
  - exfalso.
    pose proof (digits2_pos_bounds mx) as [Lx Ux].
    pose proof (digits2_pos_bounds my) as [Ly Uy].
    set (dx := Zpos (digits2_pos mx)) in *.
    set (dy := Zpos (digits2_pos my)) in *.
    set (k := ey - ex) in *.
    assert (Hk : 0 < k) by (unfold k; lia).
    assert (Hdx : 1 <= dx) by (unfold dx; lia).
    assert (Hdy : 1 <= dy) by (unfold dy; lia).
    assert (Hpk : 0 < 2 ^ k) by (apply pow2_pos; lia).
    assert (L' : 2 ^ (dy - 1 + k) <= Zpos mx).
    { rewrite Z.pow_add_r by lia. rewrite Hv. hide_pow. nia. }
    assert (U' : Zpos mx < 2 ^ (dy + k)).
    { rewrite Z.pow_add_r by lia. rewrite Hv. hide_pow. nia. }
    assert (Hd : dx = dy + k).
    { destruct (Z_lt_le_dec dx (dy + k)) as [H1 | H1].
      - pose proof (pow2_le dx (dy - 1 + k) ltac:(lia)). lia.
      - destruct (Z.eq_dec dx (dy + k)) as [H2 | H2]; [exact H2 |].
        pose proof (pow2_le (dy + k) (dx - 1) ltac:(lia)). lia. }
    unfold k in Hd. lia.
Qed.

Lemma feqb_same (s : bool) (m : positive) (e : Z) :
  feqb (S754_finite s m e) (S754_finite s m e) = true.
Proof.
  unfold feqb, SFeqb, SFcompare.
  change (IntDef.Z.compare e e) with (e ?= e).
  change (PosDef.Pos.compare_cont Eq m m) with (Pos.compare_cont Eq m m).
  rewrite Z.compare_refl, Pos.compare_cont_refl. destruct s; reflexivity.
Qed.

(** The difference of two finite floats that are not equal is not a
    zero: it is a finite number of the format, or an infinity. *)
Lemma fsub_nonzero (l r : f32) :
  valid l = true -> valid r = true ->
  is_finite l = true -> is_finite r = true -> feqb l r = false ->
  nonzero_number (l - r)%f32.
Proof.
  intros Vl Vr Fl Fr Hne.
  destruct l as [sl | sl | | sl ml el]; try discriminate;
    destruct r as [sr | sr | | sr mr er]; try discriminate.
  - apply valid_finite in Vr. unfold fsub. cbn. lia.
  - apply valid_finite in Vl. unfold fsub. cbn. lia.
  - apply valid_finite in Vl, Vr.
    unfold fsub, SFsub.
    change (IntDef.Z.min el er) with (Z.min el er).
    set (ez := Z.min el er).
    pose proof (shl_align_value ml el ez ltac:(unfold ez; lia)) as Al.
    pose proof (shl_align_value mr er ez ltac:(unfold ez; lia)) as Ar.
    set (Ml := fst (shl_align ml el ez)) in *.
    set (Mr := fst (shl_align mr er ez)) in *.
    change (IntDef.Z.sub ?a ?b) with (a - b).
    destruct (cond_Zopp sl (Zpos Ml) - cond_Zopp sr (Zpos Mr)) as [| p | p] eqn:Hd;
      cbn [binary_normalize].
    + exfalso.
      assert (Hs : sl = sr /\ Zpos Ml = Zpos Mr).
      { destruct sl, sr; cbn [cond_Zopp] in Hd;
          change (IntDef.Z.opp ?a) with (- a) in Hd; split; try reflexivity; lia. }
      destruct Hs as [-> HM]. rewrite Al, Ar in HM.
      destruct (Z_le_gt_dec el er) as [Hle | Hgt].
      * replace (el - ez) with 0 in HM by (unfold ez; lia).
        replace (er - ez) with (er - el) in HM by (unfold ez; lia).
        rewrite Z.pow_0_r, Z.mul_1_r in HM.
        destruct (canonical_scaled ml mr el er Vl Vr Hle HM) as [-> ->].
        rewrite feqb_same in Hne. discriminate.
      * replace (er - ez) with 0 in HM by (unfold ez; lia).
        replace (el - ez) with (el - er) in HM by (unfold ez; lia).
        rewrite Z.pow_0_r, Z.mul_1_r in HM. symmetry in HM.
        destruct (canonical_scaled mr ml er el Vr Vl ltac:(lia) HM) as [-> ->].
        rewrite feqb_same in Hne. discriminate.
    + apply binary_round_nonzero. unfold ez. lia.
    + apply binary_round_nonzero. unfold ez. lia.
Qed.

(** Filtered outputs that are finite and not equal select the stereo
    branch, unless their difference is the smallest subnormal. *)
Lemma half_difference_nonzero (l r : f32) :
  valid l = true -> valid r = true ->
  is_finite l = true -> is_finite r = true -> feqb l r = false ->
  (forall s, (l - r)%f32 <> S754_finite s 1 (-149)) ->
  truthy (half_difference l r) = true.
Proof.
  intros Vl Vr Fl Fr Hne Hmin. unfold half_difference.
  pose proof (fsub_nonzero l r Vl Vr Fl Fr Hne) as Hd.
  destruct (l - r)%f32 as [s | s | | s m e] eqn:Hsub; cbn in Hd.
  - destruct Hd.
  - reflexivity.
  - destruct Hd.
  - apply truthy_nonzero_number, fdiv_two_nonzero; [exact Hd |].
    destruct (Pos.eq_dec m 1%positive) as [-> | Hm]; [| left; exact Hm].
    right. intros ->. exact (Hmin s eq_refl).
Qed.

(** ** The multiplexer: which branch is taken *)

Lemma stereo_encode_unfold (flag : Z) (l r p c : f32) :
  stereo_encode flag l r p c =
  if truthy (half_difference l r) then stereo_of l r p c else mono_of l r.
Proof. reflexivity. Qed.

(** The flag is dead in the multiplexer. *)
Lemma stereo_encode_flag (flag flag' : Z) (l r p c : f32) :
  stereo_encode flag l r p c = stereo_encode flag' l r p c.
Proof. reflexivity. Qed.

Lemma stereo_encode_equal (flag : Z) (l r p c : f32) :
  is_finite l = true -> feqb l r = true ->
  stereo_encode flag l r p c = mono_of l r.
Proof.
  intros Hf He. rewrite stereo_encode_unfold.
  unfold half_difference. rewrite (half_difference_equal l r Hf He). reflexivity.
Qed.

Lemma stereo_encode_nonzero (flag : Z) (l r p c : f32) :
  truthy (half_difference l r) = true ->
  stereo_encode flag l r p c = stereo_of l r p c.
Proof. intros H. rewrite stereo_encode_unfold, H. reflexivity. Qed.

(** The specification's formula with the branch it names. *)
Lemma spec_composite_enabled (l r p c x : f32) :
  spec_composite true l r p c x = (stereo_of l r p c + x)%f32.
Proof. reflexivity. Qed.

Lemma spec_composite_disabled (l r p c x : f32) :
  spec_composite false l r p c x = (mono_of l r + x)%f32.
Proof. reflexivity. Qed.

(** Evaluation of the loop body on a state given by its fields: the
    setters and getters are computed away, call by value, and the
    arithmetic is left alone. *)
Ltac step_eval :=
  cbv beta iota zeta delta
    [sample_step oscillator_step filter_step multiplex_step apply_to
     apply_biquad compute_sine_oscillator_sin
     compute_sine_oscillator_sin_multiplier
     set_running set_vars set_pilot set_lpf_l set_lpf_r set_preemp_l
     set_preemp_r set_audio_stereo_input set_left_right set_mpx_in set_output
     running vars pilot lpf_l lpf_r preemp_l preemp_r audio_stereo_input
     left right mpx_in output load store fst snd
     v_pilot_sample v_lpf_preemp_l v_lpf_preemp_r v_lpf_out_l v_lpf_out_r
     v_preemp_input_l v_preemp_input_r
     biquad_shift biquad_next chain_output multiplex
     coeffs x1 x2 y1 y2 bq_input bq_output phase phase_increment osc_output
     stop deliver].

(** ** One sample of the loop body *)

Section SampleStep.

Variable lib : Library.
Variable cfg : Config.

Lemma wr_wr_rd (a : list f32) (i : nat) (x : f32) (g : f32 -> f32) :
  (i < length a)%nat ->
  wr (wr a i x) i (g (rd (wr a i x) i)) = wr a i (g x).
Proof.
  intros Hi. unfold wr, rd.
  rewrite list_lookup_insert_eq by exact Hi. simpl.
  apply list_insert_insert_eq.
Qed.

(** The loop body in closed form, for a state whose objects are bound
    as [main] binds them. *)
Lemma sample_step_spec (i : nat) (s : State) :
  wired s -> (i < length (output s))%nat ->
  let xl := rd (left s) i in
  let xr := rd (right s) i in
  let pilot_s := evaluate lib (pilot s) 1 in
  let stereo_carrier := evaluate lib (pilot s) 2 in
  let L := chain_output (preemp_l s) (lpf_l s) xl in
  let R := chain_output (preemp_r s) (lpf_r s) xr in
  sample_step lib cfg i s =
  mkState (running s)
    (mkVars stereo_carrier
       (biquad_output (preemp_l s) xl) (biquad_output (preemp_r s) xr)
       L R xl xr)
    (advance_sine_oscillator (pilot s))
    (biquad_next (lpf_l s) (biquad_output (preemp_l s) xl))
    (biquad_next (lpf_r s) (biquad_output (preemp_r s) xr))
    (biquad_next (preemp_l s) xl)
    (biquad_next (preemp_r s) xr)
    (audio_stereo_input s) (left s) (right s) (mpx_in s)
    (wr (output s) i
        (multiplex (stereo cfg) L R pilot_s stereo_carrier (rd (mpx_in s) i))).
Proof.
  intros Hw Hi.
  destruct s as [run m osc ll lr pl pr inp le ri mpx out].
  destruct Hw as (Ho & [Hpl1 Hpl2] & [Hpr1 Hpr2] & [Hll1 Hll2] & [Hlr1 Hlr2]).
  destruct osc as [ph inc oo], ll as [cll ? ? ? ? lli llo],
    lr as [clr ? ? ? ? lri lro], pl as [cpl ? ? ? ? pli plo],
    pr as [cpr ? ? ? ? pri pro], m as [? ? ? ? ? ? ?].
  cbn [pilot preemp_l preemp_r lpf_l lpf_r osc_output bq_input bq_output] in *.
  subst. step_eval.
  f_equal.
  exact (wr_wr_rd out i _ (fun y => (y + rd mpx i)%f32) Hi).
Qed.

Lemma sample_step_wired (i : nat) (s : State) :
  wired s -> (i < length (output s))%nat -> wired (sample_step lib cfg i s).
Proof.
  intros Hw Hi. rewrite (sample_step_spec i s Hw Hi).
  destruct Hw as (Ho & Hpl & Hpr & Hll & Hlr).
  unfold wired; simpl. auto.
Qed.

Lemma sample_step_lengths (i : nat) (s : State) :
  wired s -> wf_lengths s -> (i < BUFFER_SIZE)%nat ->
  wf_lengths (sample_step lib cfg i s).
Proof.
  intros Hw Hl Hi. pose proof Hl as (Ha & Hle & Hri & Hm & Hout).
  rewrite (sample_step_spec i s Hw) by (rewrite Hout; exact Hi).
  unfold wf_lengths, wr; simpl. rewrite length_insert. auto.
Qed.

End SampleStep.

(** ** The block loop *)

Section BlockLoop.

Variable lib : Library.
Variable cfg : Config.

Lemma deliver_wired (b : bool) (s : State) : wired s -> wired (deliver b s).
Proof. destruct b; intros H; exact H. Qed.

Lemma deliver_lengths (b : bool) (s : State) :
  wf_lengths s -> wf_lengths (deliver b s).
Proof. destruct b; intros H; exact H. Qed.

Lemma deliver_set_running (b : bool) (s : State) :
  deliver b s = set_running (running s && negb b) s.
Proof.
  destruct s, b; unfold deliver, stop, set_running; cbn;
    rewrite ?andb_false_r, ?andb_true_r; reflexivity.
Qed.

Lemma block_loop_0 (sig : nat -> bool) (s : State) :
  block_loop lib cfg sig 0 s = s.
Proof. reflexivity. Qed.

(** The state before sample [n] is the state after [n] samples, with
    the signal of that instant delivered. *)
Lemma block_loop_S (sig : nat -> bool) (n : nat) (s : State) :
  block_loop lib cfg sig (S n) s =
  sample_step lib cfg n (deliver (sig n) (block_loop lib cfg sig n s)).
Proof.
  unfold block_loop. rewrite seq_S, foldl_app. reflexivity.
Qed.

Lemma block_loop_wf (sig : nat -> bool) (n : nat) (s : State) :
  wired s -> wf_lengths s -> (n <= BUFFER_SIZE)%nat ->
  wired (block_loop lib cfg sig n s) /\ wf_lengths (block_loop lib cfg sig n s).
Proof.
  intros Hw Hl. induction n as [| n IH]; intros Hn.
  - rewrite block_loop_0. auto.
  - destruct IH as [IHw IHl]; [lia |].
    rewrite block_loop_S. split.
    + apply sample_step_wired; [apply deliver_wired, IHw |].
      apply (deliver_lengths (sig n)) in IHl. destruct IHl as (_ & _ & _ & _ & ->). lia.
    + apply sample_step_lengths;
        [apply deliver_wired, IHw | apply deliver_lengths, IHl | lia].
Qed.

Lemma before_sample_wf (sig : nat -> bool) (i : nat) (s : State) :
  wired s -> wf_lengths s -> (i < BUFFER_SIZE)%nat ->
  wired (before_sample lib cfg sig i s) /\ wf_lengths (before_sample lib cfg sig i s) /\
  (i < length (output (before_sample lib cfg sig i s)))%nat.
Proof.
  intros Hw Hl Hi. destruct (block_loop_wf sig i s Hw Hl) as [H1 H2]; [lia |].
  unfold before_sample. split; [apply deliver_wired, H1 |].
  apply (deliver_lengths (sig i)) in H2. split; [exact H2 |].
  destruct H2 as (_ & _ & _ & _ & ->). exact Hi.
Qed.

(** What the block loop leaves untouched. *)
Lemma sample_step_frame (i : nat) (s : State) :
  wired s -> (i < length (output s))%nat ->
  let s' := sample_step lib cfg i s in
  running s' = running s /\ audio_stereo_input s' = audio_stereo_input s /\
  left s' = left s /\ right s' = right s /\ mpx_in s' = mpx_in s /\
  pilot s' = advance_sine_oscillator (pilot s).
Proof.
  intros Hw Hi. cbv zeta. rewrite (sample_step_spec lib cfg i s Hw Hi).
  cbn. repeat split; reflexivity.
Qed.

Lemma deliver_frame (b : bool) (s : State) :
  audio_stereo_input (deliver b s) = audio_stereo_input s /\
  left (deliver b s) = left s /\ right (deliver b s) = right s /\
  mpx_in (deliver b s) = mpx_in s /\ pilot (deliver b s) = pilot s /\
  output (deliver b s) = output s /\ vars (deliver b s) = vars s /\
  lpf_l (deliver b s) = lpf_l s /\ lpf_r (deliver b s) = lpf_r s /\
  preemp_l (deliver b s) = preemp_l s /\ preemp_r (deliver b s) = preemp_r s.
Proof. destruct b; cbn; repeat split; reflexivity. Qed.

Lemma block_loop_frame (sig : nat -> bool) (n : nat) (s : State) :
  wired s -> wf_lengths s -> (n <= BUFFER_SIZE)%nat ->
  let s' := block_loop lib cfg sig n s in
  audio_stereo_input s' = audio_stereo_input s /\
  left s' = left s /\ right s' = right s /\ mpx_in s' = mpx_in s /\
  pilot s' = Nat.iter n advance_sine_oscillator (pilot s).
Proof.
  intros Hw Hl. cbv zeta. induction n as [| n IH]; intros Hn.
  - rewrite block_loop_0. cbn. repeat split; reflexivity.
  - destruct IH as (Ha & Hle & Hri & Hm & Hp); [lia |].
    destruct (before_sample_wf sig n s Hw Hl) as (Bw & _ & Bi); [lia |].
    rewrite block_loop_S.
    destruct (sample_step_frame n _ Bw Bi) as (_ & Fa & Fle & Fri & Fm & Fp).
    fold (before_sample lib cfg sig n s).
    rewrite Fa, Fle, Fri, Fm, Fp. unfold before_sample.
    destruct (deliver_frame (sig n) (block_loop lib cfg sig n s))
      as (Da & Dle & Dri & Dm & Dp & _).
    rewrite Da, Dle, Dri, Dm, Dp, Ha, Hle, Hri, Hm, Hp.
    repeat split; reflexivity.
Qed.

Lemma before_sample_frame (sig : nat -> bool) (i : nat) (s : State) :
  wired s -> wf_lengths s -> (i <= BUFFER_SIZE)%nat ->
  let b := before_sample lib cfg sig i s in
  audio_stereo_input b = audio_stereo_input s /\
  left b = left s /\ right b = right s /\ mpx_in b = mpx_in s /\
  pilot b = Nat.iter i advance_sine_oscillator (pilot s) /\
  output b = output (block_loop lib cfg sig i s).
Proof.
  intros Hw Hl Hi. cbv zeta. unfold before_sample.
  destruct (block_loop_frame sig i s Hw Hl Hi) as (Ha & Hle & Hri & Hm & Hp).
  destruct (deliver_frame (sig i) (block_loop lib cfg sig i s))
    as (Da & Dle & Dri & Dm & Dp & Do & _).
  rewrite Da, Dle, Dri, Dm, Dp, Do, Ha, Hle, Hri, Hm, Hp.
  repeat split; reflexivity.
Qed.

(** The cell that sample [i] writes is not written again in the block,
    and it holds the multiplexer's value for the state sample [i]
    started from. *)
Lemma block_loop_output_cell (sig : nat -> bool) (n i : nat) (s : State) :
  wired s -> wf_lengths s -> (i < n)%nat -> (n <= BUFFER_SIZE)%nat ->
  let b := before_sample lib cfg sig i s in
  output (block_loop lib cfg sig n s) !! i =
  Some (multiplex (stereo cfg)
          (chain_output (preemp_l b) (lpf_l b) (rd (left s) i))
          (chain_output (preemp_r b) (lpf_r b) (rd (right s) i))
          (evaluate lib (pilot b) 1) (evaluate lib (pilot b) 2)
          (rd (mpx_in s) i)).
Proof.
  intros Hw Hl Hi Hn. cbv zeta. induction n as [| n IH]; [lia |].
  destruct (before_sample_wf sig n s Hw Hl) as (Bw & _ & Bi); [lia |].
  rewrite block_loop_S. fold (before_sample lib cfg sig n s).
  rewrite (sample_step_spec lib cfg n _ Bw Bi).
  cbn [output]. unfold wr.
  destruct (decide (i = n)) as [-> | Hne].
  - rewrite list_lookup_insert_eq by exact Bi.
    destruct (before_sample_frame sig n s Hw Hl) as (_ & Hle & Hri & Hm & _); [lia |].
    rewrite Hle, Hri, Hm. reflexivity.
  - rewrite list_lookup_insert_ne by (intros E; apply Hne; symmetry; exact E).
    destruct (before_sample_frame sig n s Hw Hl) as (_ & _ & _ & _ & _ & Do); [lia |].
    rewrite Do. apply IH; lia.
Qed.

Lemma set_running_wired (b : bool) (s : State) : wired s -> wired (set_running b s).
Proof. intros H; exact H. Qed.

(** The loop body neither reads nor writes [running]. *)
Lemma sample_step_set_running (b : bool) (i : nat) (s : State) :
  wired s -> (i < length (output s))%nat ->
  sample_step lib cfg i (set_running b s) = set_running b (sample_step lib cfg i s).
Proof.
  intros Hw Hi.
  rewrite (sample_step_spec lib cfg i s Hw Hi).
  rewrite (sample_step_spec lib cfg i (set_running b s) (set_running_wired b s Hw) Hi).
  reflexivity.
Qed.

Lemma set_running_twice (b b' : bool) (s : State) :
  set_running b (set_running b' s) = set_running b s.
Proof. reflexivity. Qed.

Lemma deliver_of_set_running (b c : bool) (s : State) :
  deliver c (set_running b s) = set_running (b && negb c) s.
Proof.
  destruct c; unfold deliver, stop;
    rewrite ?set_running_twice, ?andb_false_r, ?andb_true_r; reflexivity.
Qed.

(** Signals delivered during a block change [running] and nothing else. *)
Lemma block_loop_signals (sig : nat -> bool) (n : nat) (s : State) :
  wired s -> wf_lengths s -> (n <= BUFFER_SIZE)%nat ->
  block_loop lib cfg sig n s =
  set_running (running s && negb (existsb sig (seq 0 n)))
    (block_loop lib cfg (fun _ => false) n s).
Proof.
  intros Hw Hl. induction n as [| n IH]; intros Hn.
  - rewrite !block_loop_0. destruct s; cbn. rewrite andb_true_r. reflexivity.
  - rewrite !block_loop_S, IH by lia. clear IH.
    destruct (before_sample_wf (fun _ => false) n s Hw Hl)
      as (Bw & _ & Bi); [lia |].
    unfold before_sample in Bw, Bi.
    change (deliver false ?x) with x in *.
    rewrite deliver_of_set_running.
    rewrite sample_step_set_running by assumption.
    rewrite seq_S, existsb_app. cbn [existsb].
    rewrite orb_false_r, negb_orb, andb_assoc. reflexivity.
Qed.

Lemma same_core_fields (s1 s2 : State) :
  same_core s1 s2 ->
  running s1 = running s2 /\ vars s1 = vars s2 /\ pilot s1 = pilot s2 /\
  lpf_l s1 = lpf_l s2 /\ lpf_r s1 = lpf_r s2 /\
  preemp_l s1 = preemp_l s2 /\ preemp_r s1 = preemp_r s2 /\
  audio_stereo_input s1 = audio_stereo_input s2 /\
  left s1 = left s2 /\ right s1 = right s2 /\ mpx_in s1 = mpx_in s2.
Proof.
  unfold same_core. destruct s1, s2. unfold set_output; cbn.
  intros H; injection H; intros; subst. repeat split; reflexivity.
Qed.

Lemma same_core_wired (s1 s2 : State) : same_core s1 s2 -> wired s1 -> wired s2.
Proof.
  intros H. apply same_core_fields in H
    as (_ & _ & Hp & Hll & Hlr & Hpl & Hpr & _).
  unfold wired. rewrite Hp, Hll, Hlr, Hpl, Hpr. auto.
Qed.

Lemma same_core_deliver (b : bool) (s1 s2 : State) :
  same_core s1 s2 -> same_core (deliver b s1) (deliver b s2).
Proof.
  intros H. pose proof (same_core_fields _ _ H) as F.
  destruct s1, s2; cbn in F. destruct F as (? & ? & ? & ? & ? & ? & ? & ? & ? & ? & ?).
  subst. destruct b; reflexivity.
Qed.

(** The loop body reads [output] only at the cell it has just written. *)
Lemma sample_step_same_core (i : nat) (s1 s2 : State) :
  same_core s1 s2 -> wired s1 ->
  (i < length (output s1))%nat -> (i < length (output s2))%nat ->
  same_core (sample_step lib cfg i s1) (sample_step lib cfg i s2) /\
  output (sample_step lib cfg i s1) !! i = output (sample_step lib cfg i s2) !! i /\
  (forall j, j <> i ->
     output (sample_step lib cfg i s1) !! j = output s1 !! j /\
     output (sample_step lib cfg i s2) !! j = output s2 !! j).
Proof.
  intros Hc Hw H1 H2. pose proof (same_core_wired _ _ Hc Hw) as Hw2.
  rewrite (sample_step_spec lib cfg i s1 Hw H1).
  rewrite (sample_step_spec lib cfg i s2 Hw2 H2).
  apply same_core_fields in Hc
    as (Hr & Hv & Hp & Hll & Hlr & Hpl & Hpr & Ha & Hle & Hri & Hm).
  rewrite Hr, Hp, Hll, Hlr, Hpl, Hpr, Ha, Hle, Hri, Hm.
  unfold same_core, set_output, wr; cbn. split; [reflexivity |]. split.
  - rewrite !list_lookup_insert_eq by assumption. reflexivity.
  - intros j Hj. rewrite !list_lookup_insert_ne by (intros E; apply Hj; symmetry; exact E).
    split; reflexivity.
Qed.

Lemma same_core_eq (s1 s2 : State) :
  same_core s1 s2 -> output s1 = output s2 -> s1 = s2.
Proof.
  intros Hc Ho. apply same_core_fields in Hc.
  destruct s1, s2; cbn in *.
  destruct Hc as (? & ? & ? & ? & ? & ? & ? & ? & ? & ? & ?). subst. reflexivity.
Qed.

Lemma block_loop_same_core (sig : nat -> bool) (n : nat) (s1 s2 : State) :
  same_core s1 s2 -> wired s1 -> wf_lengths s1 -> wf_lengths s2 ->
  (n <= BUFFER_SIZE)%nat ->
  same_core (block_loop lib cfg sig n s1) (block_loop lib cfg sig n s2) /\
  (forall i, (i < n)%nat ->
     output (block_loop lib cfg sig n s1) !! i =
     output (block_loop lib cfg sig n s2) !! i).
Proof.
  intros Hc Hw1 Hl1 Hl2. pose proof (same_core_wired _ _ Hc Hw1) as Hw2.
  induction n as [| n IH]; intros Hn.
  - rewrite !block_loop_0. split; [exact Hc | intros i Hi; lia].
  - destruct IH as [IHc IHo]; [lia |].
    destruct (before_sample_wf sig n s1 Hw1 Hl1) as (Bw1 & _ & Bi1); [lia |].
    destruct (before_sample_wf sig n s2 Hw2 Hl2) as (_ & _ & Bi2); [lia |].
    rewrite !block_loop_S.
    destruct (sample_step_same_core n _ _
                (same_core_deliver (sig n) _ _ IHc) Bw1 Bi1 Bi2)
      as (Sc & Si & Sj).
    split; [exact Sc |].
    intros i Hi. destruct (decide (i = n)) as [-> | Hne]; [exact Si |].
    destruct (Sj i Hne) as [-> ->].
    destruct (deliver_frame (sig n) (block_loop lib cfg sig n s1))
      as (_ & _ & _ & _ & _ & -> & _).
    destruct (deliver_frame (sig n) (block_loop lib cfg sig n s2))
      as (_ & _ & _ & _ & _ & -> & _).
    apply IHo. lia.
Qed.

(** A whole block overwrites every cell of [output]: what the array
    held before does not show in the result. *)
Lemma block_loop_fresh (sig : nat -> bool) (s1 s2 : State) :
  same_core s1 s2 -> wired s1 -> wf_lengths s1 -> wf_lengths s2 ->
  block_loop lib cfg sig BUFFER_SIZE s1 = block_loop lib cfg sig BUFFER_SIZE s2.
Proof.
  intros Hc Hw1 Hl1 Hl2.
  destruct (block_loop_same_core sig BUFFER_SIZE s1 s2 Hc Hw1 Hl1 Hl2)
    as [Bc Bo]; [lia |].
  apply same_core_eq; [exact Bc |].
  destruct (block_loop_wf sig BUFFER_SIZE s1 Hw1 Hl1) as [_ L1]; [lia |].
  destruct (block_loop_wf sig BUFFER_SIZE s2 (same_core_wired _ _ Hc Hw1) Hl2)
    as [_ L2]; [lia |].
  destruct L1 as (_ & _ & _ & _ & L1), L2 as (_ & _ & _ & _ & L2).
  apply list_eq. intros i. destruct (decide (i < BUFFER_SIZE)%nat) as [Hi | Hi].
  - apply Bo, Hi.
  - rewrite !lookup_ge_None_2; [reflexivity | lia | lia].
Qed.

End BlockLoop.

(** ** [uninterleave] *)

Lemma uninterleave_loop (input : list f32) (k : nat) (l r : list f32) :
  let lr := foldl (fun lr i => (wr (fst lr) i (rd input (i * 2)),
                                wr (snd lr) i (rd input (i * 2 + 1))))
                  (l, r) (seq 0 k) in
  length (fst lr) = length l /\ length (snd lr) = length r /\
  (forall i, (i < k)%nat -> (i < length l)%nat ->
     fst lr !! i = Some (rd input (i * 2))) /\
  (forall i, (i < k)%nat -> (i < length r)%nat ->
     snd lr !! i = Some (rd input (i * 2 + 1))) /\
  (forall i, (k <= i)%nat -> fst lr !! i = l !! i /\ snd lr !! i = r !! i).
Proof.
  cbv zeta. induction k as [| k IH].
  - cbn. repeat split; intros; lia.
  - rewrite seq_S, foldl_app. cbn [foldl Nat.add fst snd].
    destruct IH as (Hl & Hr & Hle & Hri & Hrest).
    set (lr := foldl _ (l, r) (seq 0 k)) in *. unfold wr.
    rewrite !length_insert. repeat split; try assumption.
    + intros i Hi Hlen. destruct (decide (i = k)) as [-> | Hne].
      * apply list_lookup_insert_eq. rewrite Hl. exact Hlen.
      * rewrite list_lookup_insert_ne by (intros E; apply Hne; symmetry; exact E).
        apply Hle; [lia | exact Hlen].
    + intros i Hi Hlen. destruct (decide (i = k)) as [-> | Hne].
      * apply list_lookup_insert_eq. rewrite Hr. exact Hlen.
      * rewrite list_lookup_insert_ne by (intros E; apply Hne; symmetry; exact E).
        apply Hri; [lia | exact Hlen].
    + rewrite list_lookup_insert_ne by lia. apply Hrest. lia.
    + rewrite list_lookup_insert_ne by lia. apply Hrest. lia.
Qed.

Lemma rd_lookup (a : list f32) (i : nat) (x : f32) : a !! i = Some x -> rd a i = x.
Proof. unfold rd. intros ->. reflexivity. Qed.

Lemma half_buffer : ((BUFFER_SIZE * 2) / 2 = BUFFER_SIZE)%nat.
Proof. apply Nat.div_mul. discriminate. Qed.

(** [uninterleave] as [main] calls it (line 171). *)
Lemma uninterleave_spec (input l r : list f32) :
  (BUFFER_SIZE <= length l)%nat -> (BUFFER_SIZE <= length r)%nat ->
  let lr := uninterleave input l r (BUFFER_SIZE * 2) in
  length (fst lr) = length l /\ length (snd lr) = length r /\
  (forall i, (i < BUFFER_SIZE)%nat ->
     rd (fst lr) i = rd input (2 * i) /\ rd (snd lr) i = rd input (2 * i + 1)).
Proof.
  intros Hl Hr. cbv zeta. unfold uninterleave. rewrite half_buffer.
  destruct (uninterleave_loop input BUFFER_SIZE l r) as (H1 & H2 & H3 & H4 & _).
  split; [exact H1 |]. split; [exact H2 |].
  intros i Hi. rewrite (Nat.mul_comm 2 i). split; apply rd_lookup.
  - apply H3; lia.
  - apply H4; lia.
Qed.

(** ** One block *)

Section ProcessBlock.

Variable lib : Library.
Variable cfg : Config.

Lemma output_set_running (b : bool) (s : State) :
  output (set_running b s) = output s.
Proof. reflexivity. Qed.

Lemma running_set_running (b : bool) (s : State) :
  running (set_running b s) = b.
Proof. reflexivity. Qed.

Lemma length_fill (buf data : list f32) : length (fill buf data) = length buf.
Proof.
  unfold fill. rewrite length_take, length_app, length_drop. lia.
Qed.

Lemma fill_exact (buf data : list f32) :
  length data = length buf -> fill buf data = data.
Proof.
  intros H. unfold fill. rewrite H, drop_all, app_nil_r.
  rewrite <- H. apply firstn_all.
Qed.

Lemma uninterleaved_wf (s : State) :
  wired s -> wf_lengths s ->
  let s' := set_left_right
              (uninterleave (audio_stereo_input s) (left s) (right s)
                 (BUFFER_SIZE * 2)) s in
  wired s' /\ wf_lengths s'.
Proof.
  intros Hw (Ha & Hle & Hri & Hm & Ho). cbv zeta.
  destruct (uninterleave_spec (audio_stereo_input s) (left s) (right s))
    as (H1 & H2 & _); [lia | lia |].
  split; [exact Hw |]. unfold wf_lengths, set_left_right.
  cbn [audio_stereo_input left right mpx_in output].
  rewrite H1, H2. auto.
Qed.

Lemma process_block_wf (sig : nat -> bool) (s : State) :
  wired s -> wf_lengths s ->
  wired (process_block lib cfg sig s) /\ wf_lengths (process_block lib cfg sig s).
Proof.
  intros Hw Hl. destruct (uninterleaved_wf s Hw Hl) as [Uw Ul].
  unfold process_block. apply block_loop_wf; [exact Uw | exact Ul | lia].
Qed.

(** Signals that arrive while a block is processed change [running]
    and nothing else: every sample is processed all the same. *)
Lemma process_block_signals (sig : nat -> bool) (s : State) :
  wired s -> wf_lengths s ->
  process_block lib cfg sig s =
  set_running (running s && negb (existsb sig (seq 0 BUFFER_SIZE)))
    (process_block lib cfg (fun _ => false) s).
Proof.
  intros Hw Hl. destruct (uninterleaved_wf s Hw Hl) as [Uw Ul].
  unfold process_block. rewrite block_loop_signals by (assumption || lia).
  f_equal.
Qed.

Lemma process_block_output_signals (sig sig' : nat -> bool) (s : State) :
  wired s -> wf_lengths s ->
  output (process_block lib cfg sig s) = output (process_block lib cfg sig' s).
Proof.
  intros Hw Hl.
  rewrite (process_block_signals sig s Hw Hl), (process_block_signals sig' s Hw Hl).
  rewrite !output_set_running. reflexivity.
Qed.

Lemma process_block_running (sig : nat -> bool) (s : State) :
  wired s -> wf_lengths s ->
  running (process_block lib cfg sig s) =
  running s && negb (existsb sig (seq 0 BUFFER_SIZE)).
Proof.
  intros Hw Hl. rewrite (process_block_signals sig s Hw Hl).
  apply running_set_running.
Qed.

(** What [output] held before the pass does not show after it. *)
Lemma process_block_fresh (sig : nat -> bool) (s : State) (a : list f32) :
  wired s -> wf_lengths s -> length a = BUFFER_SIZE ->
  process_block lib cfg sig (set_output a s) = process_block lib cfg sig s.
Proof.
  intros Hw Hl Ha. destruct (uninterleaved_wf s Hw Hl) as [Uw Ul].
  unfold process_block. symmetry. apply block_loop_fresh.
  - unfold same_core, set_left_right, set_output.
    cbn [running vars pilot lpf_l lpf_r preemp_l preemp_r audio_stereo_input
         left right mpx_in output fst snd].
    reflexivity.
  - exact Uw.
  - exact Ul.
  - destruct Ul as (U1 & U2 & U3 & U4 & U5).
    unfold wf_lengths; cbn in *. auto.
Qed.

Lemma process_block_length (sig : nat -> bool) (s : State) :
  wired s -> wf_lengths s ->
  length (output (process_block lib cfg sig s)) = BUFFER_SIZE.
Proof.
  intros Hw Hl. destruct (process_block_wf sig s Hw Hl) as [_ (_ & _ & _ & _ & Ho)].
  exact Ho.
Qed.

End ProcessBlock.

(** ** The streaming loop *)

Section StreamingLoop.

Variable lib : Library.
Variable cfg : Config.

Lemma main_init_wf (u : Indeterminate) :
  wired (main_init lib cfg u) /\ wf_lengths (main_init lib cfg u).
Proof.
  split.
  - unfold wired, main_init; cbn. auto 10.
  - unfold wf_lengths, main_init.
    cbn [audio_stereo_input left right mpx_in output].
    rewrite !length_fmap, !length_seq, length_replicate. auto.
Qed.

Lemma input_filled_wf (d : list f32) (s : State) :
  wired s -> wf_lengths s ->
  let s' := set_audio_stereo_input (fill (audio_stereo_input s) d) s in
  wired s' /\ wf_lengths s' /\ running s' = running s /\ mpx_in s' = mpx_in s.
Proof.
  intros Hw (Ha & Hle & Hri & Hm & Ho). cbv zeta. split; [exact Hw |].
  split; [| split; reflexivity].
  unfold wf_lengths, set_audio_stereo_input.
  cbn [audio_stereo_input left right mpx_in output].
  rewrite length_fill. auto.
Qed.

(** The two ways [read_mpx] can go. *)
Lemma read_mpx_cases (e : IterEnv) (s : State) :
  wired s -> wf_lengths s ->
  (mpx_configured cfg = true /\
   exists msg, read_mpx cfg e s = (None, [EvRead MpxDevice false; EvStderr msg])) \/
  (exists s', read_mpx cfg e s = (Some s', mpx_events cfg) /\
              wired s' /\ wf_lengths s' /\ running s' = running s /\
              (mpx_configured cfg = false -> s' = s)).
Proof.
  intros Hw Hl. unfold read_mpx, mpx_events.
  destruct (mpx_configured cfg) eqn:Hc.
  - destruct (mpx_read e) as [d |].
    + right. eexists. split; [reflexivity |].
      destruct Hl as (Ha & Hle & Hri & Hm & Ho).
      split; [exact Hw |]. split; [| split; [reflexivity | discriminate]].
      unfold wf_lengths, set_mpx_in.
      cbn [audio_stereo_input left right mpx_in output].
      rewrite length_fill. auto.
    + left. split; [reflexivity |]. eexists. reflexivity.
  - right. exists s. auto.
Qed.

(** Case analysis of the loop, pass by pass. *)
Lemma streaming_loop_cases (P : State -> list Event -> Prop) :
  (forall s, P s []) ->
  (forall s, running s = false -> P s [EvRunning false]) ->
  (forall s msg,
     P (set_running false s)
       [EvRunning true; EvRead InputDevice false; EvStderr msg]) ->
  (forall s msg, mpx_configured cfg = true ->
     P (set_running false s)
       [EvRunning true; EvRead InputDevice true;
        EvRead MpxDevice false; EvStderr msg]) ->
  (forall s sig msg, wired s -> wf_lengths s ->
     P (set_running false (process_block lib cfg sig s))
       (EvRunning true :: EvRead InputDevice true :: mpx_events cfg
          ++ [EvWrite (output (process_block lib cfg sig s)) false;
              EvStderr msg])) ->
  (forall s sig s' t, wired s -> wf_lengths s -> P s' t ->
     P s' (EvRunning true :: EvRead InputDevice true :: mpx_events cfg
             ++ EvWrite (output (process_block lib cfg sig s)) true :: t)) ->
  forall envs s, wired s -> wf_lengths s ->
    P (fst (streaming_loop lib cfg envs s)) (snd (streaming_loop lib cfg envs s)).
Proof.
  intros Hend Hstop Hin Hmpx Hwr Hok.
  induction envs as [| e envs IH]; intros s Hw Hl.
  - apply Hend.
  - cbn [streaming_loop].
    pose proof (deliver_wired (sig_before e) s Hw) as Dw.
    pose proof (deliver_lengths (sig_before e) s Hl) as Dl.
    destruct (running (deliver (sig_before e) s)) eqn:Hrun; cbn [negb].
    2: { apply Hstop, Hrun. }
    destruct (input_read e) as [d |]; [| apply Hin].
    destruct (input_filled_wf d _ Dw Dl) as (Fw & Fl & _).
    destruct (read_mpx_cases e _ Fw Fl)
      as [(Hc & msg & ->) | (s2 & -> & Mw & Ml & _)].
    { apply Hmpx, Hc. }
    destruct (write_ok e).
    + cbn [fst snd]. apply Hok; [exact Mw | exact Ml |].
      destruct (process_block_wf lib cfg (sig_during e) s2 Mw Ml) as [Pw Pl].
      apply IH; assumption.
    + apply Hwr; assumption.
Qed.

End StreamingLoop.

Lemma example_state_wf : wired example_state /\ wf_lengths example_state.
Proof. apply main_init_wf. Qed.

Lemma example_state_output_index : (0 < BUFFER_SIZE)%nat.
Proof. unfold BUFFER_SIZE. lia. Qed.

Lemma example_state_output : (0 < length (output example_state))%nat.
Proof.
  destruct example_state_wf as (_ & _ & _ & _ & _ & ->). unfold BUFFER_SIZE. lia.
Qed.

(** ** The flag is never read *)

Section DeadFlag.

Variable lib : Library.
Variable cfg : Config.
Variable z : Z.

Lemma multiplex_step_flag (i : nat) (p c : f32) (s : State) :
  multiplex_step (with_stereo z cfg) i p c s = multiplex_step cfg i p c s.
Proof.
  unfold multiplex_step.
  rewrite (stereo_encode_flag (stereo (with_stereo z cfg)) (stereo cfg)).
  reflexivity.
Qed.

Lemma sample_step_flag (i : nat) (s : State) :
  sample_step lib (with_stereo z cfg) i s = sample_step lib cfg i s.
Proof.
  unfold sample_step. destruct (oscillator_step lib s) as [[p c] s1].
  apply multiplex_step_flag.
Qed.

Lemma block_loop_flag (sig : nat -> bool) (n : nat) (s : State) :
  block_loop lib (with_stereo z cfg) sig n s = block_loop lib cfg sig n s.
Proof.
  induction n as [| n IH].
  - rewrite !block_loop_0. reflexivity.
  - rewrite !block_loop_S, IH. apply sample_step_flag.
Qed.

Lemma process_block_flag (sig : nat -> bool) (s : State) :
  process_block lib (with_stereo z cfg) sig s = process_block lib cfg sig s.
Proof. unfold process_block. apply block_loop_flag. Qed.

Lemma streaming_loop_flag (envs : list IterEnv) (s : State) :
  streaming_loop lib (with_stereo z cfg) envs s = streaming_loop lib cfg envs s.
Proof.
  revert s. induction envs as [| e envs IH]; intros s; [reflexivity |].
  cbn [streaming_loop].
  destruct (negb (running (deliver (sig_before e) s))); [reflexivity |].
  destruct (input_read e) as [d |]; [| reflexivity].
  change (read_mpx (with_stereo z cfg)) with (read_mpx cfg).
  destruct (read_mpx cfg e _) as [[s2 |] t]; [| reflexivity].
  rewrite process_block_flag, IH. reflexivity.
Qed.

Lemma main_flag (st : Startup) (envs : list IterEnv) :
  main lib (with_stereo z cfg) st envs = main lib cfg st envs.
Proof.
  unfold main. rewrite streaming_loop_flag. reflexivity.
Qed.

End DeadFlag.

(** ** The cells of a processed block *)

Section Cells.

Variable lib : Library.
Variable cfg : Config.

Lemma process_block_deinterleaved (sig : nat -> bool) (s : State) :
  process_block lib cfg sig s = block_loop lib cfg sig BUFFER_SIZE (deinterleaved s).
Proof. reflexivity. Qed.

Lemma deinterleaved_wf (s : State) :
  wired s -> wf_lengths s -> wired (deinterleaved s) /\ wf_lengths (deinterleaved s).
Proof. apply uninterleaved_wf. Qed.

Lemma deinterleaved_frame (s : State) :
  mpx_in (deinterleaved s) = mpx_in s /\ pilot (deinterleaved s) = pilot s /\
  running (deinterleaved s) = running s /\
  audio_stereo_input (deinterleaved s) = audio_stereo_input s.
Proof. repeat split; reflexivity. Qed.

(** Lines 27-32 as [main] uses them: the left channel holds the
    even-indexed floats of the input block, the right channel the
    odd-indexed ones. *)
Lemma deinterleaved_channels (s : State) (i : nat) :
  wf_lengths s -> (i < BUFFER_SIZE)%nat ->
  rd (left (deinterleaved s)) i = rd (audio_stereo_input s) (2 * i) /\
  rd (right (deinterleaved s)) i = rd (audio_stereo_input s) (2 * i + 1).
Proof.
  intros (Ha & Hle & Hri & Hm & Ho) Hi.
  destruct (uninterleave_spec (audio_stereo_input s) (left s) (right s))
    as (_ & _ & H); [lia | lia |].
  exact (H i Hi).
Qed.

(** Cell [i] of the block handed to the write is the encoder's value
    for sample [i] plus [mpx_in[i]] (line 195). *)
Lemma process_block_cell (sig : nat -> bool) (i : nat) (s : State) :
  wired s -> wf_lengths s -> (i < BUFFER_SIZE)%nat ->
  output (process_block lib cfg sig s) !! i =
  Some (encoded_sample lib cfg sig i s + rd (mpx_in s) i)%f32.
Proof.
  intros Hw Hl Hi. destruct (deinterleaved_wf s Hw Hl) as [Dw Dl].
  rewrite process_block_deinterleaved.
  rewrite (block_loop_output_cell lib cfg sig BUFFER_SIZE i _ Dw Dl Hi)
    by lia.
  destruct (deinterleaved_channels s i Hl Hi) as [-> ->].
  destruct (deinterleaved_frame s) as (-> & _).
  unfold encoded_sample, multiplex. reflexivity.
Qed.

End Cells.

(** ** The events of the loop *)

Section Events.

Variable lib : Library.
Variable cfg : Config.

Lemma cons_split (x : Event) (l t1 : list Event) (ev : Event) (t2 : list Event) :
  x :: l = t1 ++ ev :: t2 ->
  (t1 = [] /\ ev = x /\ t2 = l) \/
  (exists t1', t1 = x :: t1' /\ l = t1' ++ ev :: t2).
Proof.
  destruct t1 as [| y t1]; cbn; intros H; injection H as -> ->.
  - left. auto.
  - right. eauto.
Qed.

Lemma nil_split (t1 : list Event) (ev : Event) (t2 : list Event) :
  [] = t1 ++ ev :: t2 -> False.
Proof. destruct t1; discriminate. Qed.

Lemma event_context_prefix (stopped : Prop) (pre t1 : list Event) (ev : Event)
    (t2 : list Event) :
  event_context lib cfg stopped t1 ev t2 ->
  event_context lib cfg stopped (pre ++ t1) ev t2.
Proof.
  assert (Hpre : forall suffix, (exists t0, t1 = t0 ++ suffix) ->
                 exists t0, pre ++ t1 = t0 ++ suffix).
  { intros suffix [t0 ->]. exists (pre ++ t0). apply app_assoc. }
  destruct ev as [d ok | [] | [] [] | blk ok | msg]; cbn; try tauto.
  - intros (H1 & H2). split; [apply Hpre, H1 | exact H2].
  - intros (H1 & H2). split; [apply Hpre, H1 | exact H2].
  - intros (H1 & H2). split; [apply Hpre, H1 | exact H2].
  - intros (H1 & H2). split; [apply Hpre, H1 | exact H2].
  - intros (H1 & H2 & H3). split; [exact H1 |]. split; [apply Hpre, H2 | exact H3].
Qed.

Ltac split_trace H :=
  repeat
    (let t := fresh "t1" in
     first
       [ apply nil_split in H; destruct H
       | apply cons_split in H;
         destruct H as [(-> & -> & ->) | (t & -> & H)] ]).

(** Every event of a run of the loop stands in its place. *)
Lemma streaming_loop_events (envs : list IterEnv) (s : State) :
  wired s -> wf_lengths s ->
  let r := streaming_loop lib cfg envs s in
  (snd r = [] \/ exists b t3, snd r = EvRunning b :: t3) /\
  forall t1 ev t2, snd r = t1 ++ ev :: t2 ->
    event_context lib cfg (running (fst r) = false) t1 ev t2.
Proof.
  cbv zeta. revert envs s.
  apply (streaming_loop_cases lib cfg
           (fun s' t =>
              (t = [] \/ exists b t3, t = EvRunning b :: t3) /\
              forall t1 ev t2, t = t1 ++ ev :: t2 ->
                event_context lib cfg (running s' = false) t1 ev t2)).
  - intros s. split; [left; reflexivity |].
    intros t1 ev t2 H. split_trace H.
  - intros s Hr. split; [right; eauto |].
    intros t1 ev t2 H. split_trace H. cbn. auto.
  - intros s msg. split; [right; eauto |].
    intros t1 ev t2 H. split_trace H; cbn.
    + eauto.
    + split; [exists []; reflexivity |]. split; [reflexivity | eauto].
    + auto.
  - intros s msg Hc. split; [right; eauto |].
    intros t1 ev t2 H. split_trace H; cbn.
    + eauto.
    + split; [exists []; reflexivity |]. left. split; [exact Hc |].
      split; [reflexivity | eauto].
    + split; [exists []; reflexivity |]. split; [exact Hc |].
      split; [reflexivity | eauto].
    + auto.
  - intros s sig msg Hw Hl. split; [right; eauto |].
    pose proof (process_block_length lib cfg sig s Hw Hl) as Hwhole.
    intros t1 ev t2 H. unfold mpx_events in *.
    destruct (mpx_configured cfg) eqn:Hc; cbn [app] in H; split_trace H;
      cbn; rewrite ?Hc; unfold mpx_events; rewrite ?Hc; cbn [app].
    + eauto.
    + split; [exists []; reflexivity |]. right. eauto.
    + split; [exists []; reflexivity |]. split; [reflexivity | eauto].
    + split; [exact Hwhole |]. split; [exists []; reflexivity |].
      split; [reflexivity | eauto].
    + auto.
    + eauto.
    + split; [exists []; reflexivity |]. right. eauto.
    + split; [exact Hwhole |]. split; [exists []; reflexivity |].
      split; [reflexivity | eauto].
    + auto.
  - intros s sig s' t Hw Hl [Hhead IH]. split; [right; eauto |].
    pose proof (process_block_length lib cfg sig s Hw Hl) as Hwhole.
    intros t1 ev t2 H. unfold mpx_events in *.
    destruct (mpx_configured cfg) eqn:Hc; cbn [app] in H.
    + apply cons_split in H as [(-> & -> & ->) | (t1a & -> & H)];
        [cbn; eauto |].
      apply cons_split in H as [(-> & -> & ->) | (t1b & -> & H)].
      { cbn. split; [exists []; reflexivity |]. right.
        unfold mpx_events; rewrite Hc. eauto. }
      apply cons_split in H as [(-> & -> & ->) | (t1c & -> & H)].
      { cbn. split; [exists []; reflexivity |]. split; [exact Hc | eauto]. }
      apply cons_split in H as [(-> & -> & ->) | (t1d & -> & H)].
      { cbn. split; [exact Hwhole |].
        split; [exists []; unfold mpx_events; rewrite Hc; reflexivity |].
        exact Hhead. }
      apply (event_context_prefix _
               [EvRunning true; EvRead InputDevice true; EvRead MpxDevice true;
                EvWrite (output (process_block lib cfg sig s)) true]).
      apply IH, H.
    + apply cons_split in H as [(-> & -> & ->) | (t1a & -> & H)];
        [cbn; eauto |].
      apply cons_split in H as [(-> & -> & ->) | (t1b & -> & H)].
      { cbn. split; [exists []; reflexivity |]. right.
        unfold mpx_events; rewrite Hc. eauto. }
      apply cons_split in H as [(-> & -> & ->) | (t1d & -> & H)].
      { cbn. split; [exact Hwhole |].
        split; [exists []; unfold mpx_events; rewrite Hc; reflexivity |].
        exact Hhead. }
      apply (event_context_prefix _
               [EvRunning true; EvRead InputDevice true;
                EvWrite (output (process_block lib cfg sig s)) true]).
      apply IH, H.
Qed.

End Events.

(** * The claims *)

(** ** The stereo flag and the multiplexer (C1, C2, C3) *)

(** C1.  The specification asks, while stereo is enabled, for the
    composite mono*0.45 + pilot*0.09 + stereo_diff*subcarrier*0.45 (+
    the external sample), and in particular for mono*0.45 + pilot*0.09
    when L = R.  The code at such inputs, with the default flag
    [stereo = 1]:
    - one sample with the filtered channels both 1.0, pilot and
      subcarrier sample 0.5, no external multiplex: the program puts
      out the plain mono sum 1.0, the specification's formula gives
      0.495;
    - a run of [main] on one block of silence: the block written is
      all zeros, although the pilot sample of sample 1 is 0.5825 and
      the specification's formula gives 0.0524 there.
    Line 190 tests the inner float [stereo], which is zero. *)
Theorem C1_equal_channels_lose_the_pilot :
  stereo_enabled default_config = true /\
  multiplex (stereo default_config) c_1_0 c_1_0 c_0_5 c_0_5 fzero = c_1_0 /\
  spec_composite (stereo_enabled default_config) c_1_0 c_1_0 c_0_5 c_0_5 fzero
    = S754_finite false 16609444 (-25) /\
  snd (main example_library default_config example_startup [pass_silent])
    = [EvOpen OutputDevice true; EvOpen InputDevice true; EvRunning true;
       EvRead InputDevice true; EvWrite (replicate BUFFER_SIZE fzero) true] /\
  evaluate example_library (advance_sine_oscillator (pilot example_state)) 1
    = S754_finite false 9772354 (-24) /\
  evaluate example_library (advance_sine_oscillator (pilot example_state)) 2
    = S754_finite false 15886856 (-24) /\
  spec_composite (stereo_enabled default_config) fzero fzero
    (S754_finite false 9772354 (-24)) (S754_finite false 15886856 (-24)) fzero
    = S754_finite false 14072190 (-28).
Proof.
  split; [reflexivity |].
  do 5 (split; [vm_compute; reflexivity |]).
  vm_compute; reflexivity.
Qed.

(** C2.  The specification asks, when stereo is disabled, for the mono
    sum alone.  The code at [--stereo 0]:
    - one sample with filtered channels 1.0 and -1.0, pilot and
      subcarrier sample 0.5: the program puts out
      0.5*0.09 + (1.0*0.5)*0.45 = 0.27, pilot and subcarrier included,
      the specification's formula gives the mono sum 0;
    - a run of [main] on one block (left 0.5, right -1.0): it is the
      same run as with the default [--stereo 1], and cell 1 of the
      block written is 0.5198 where the mono sum of the two filtered
      samples is -0.5643. *)
Theorem C2_disabled_flag_keeps_the_pilot :
  stereo_enabled stereo_off_config = false /\
  multiplex (stereo stereo_off_config) c_1_0 c_m1_0 c_0_5 c_0_5 fzero
    = S754_finite false 9059696 (-25) /\
  spec_composite (stereo_enabled stereo_off_config) c_1_0 c_m1_0 c_0_5 c_0_5 fzero
    = fzero /\
  main example_library stereo_off_config example_startup [pass_ok]
    = main example_library default_config example_startup [pass_ok] /\
  (let s1 := example_block_state stereo_off_config in
   let b := before_sample example_library stereo_off_config no_signal 1
              (deinterleaved s1) in
   output (process_block example_library stereo_off_config no_signal s1) !! 1%nat
     = Some (S754_finite false 8721575 (-24)) /\
   spec_composite (stereo_enabled stereo_off_config)
     (chain_output (preemp_l b) (lpf_l b) (rd (audio_stereo_input s1) 2))
     (chain_output (preemp_r b) (lpf_r b) (rd (audio_stereo_input s1) 3))
     (evaluate example_library (pilot b) 1) (evaluate example_library (pilot b) 2)
     (rd (mpx_in s1) 1)
     = S754_finite true 9467020 (-24)).
Proof.
  split; [reflexivity |]. split; [vm_compute; reflexivity |].
  split; [vm_compute; reflexivity |].
  split; [exact (main_flag example_library default_config 0 example_startup [pass_ok]) |].
  cbv zeta. split; vm_compute; reflexivity.
Qed.

(** The claim C3 fails where the halving underflows: the filtered
    outputs 2^-149 and 0 differ, their half-difference rounds to zero
    (ties to even), and the sample is the plain mono sum; the pilot
    (here at its peak 1.0) is left out. *)
Lemma C3_counterexample_underflow :
  valid c_min_subnormal = true /\ valid fzero = true /\
  feqb c_min_subnormal fzero = false /\
  stereo_encode 1 c_min_subnormal fzero c_1_0 c_1_0
    = mono_of c_min_subnormal fzero /\
  stereo_encode 1 c_min_subnormal fzero c_1_0 c_1_0
    <> stereo_of c_min_subnormal fzero c_1_0 c_1_0.
Proof.
  repeat split; try (vm_compute; reflexivity).
  vm_compute. discriminate.
Qed.

(** C3, amended.  The branch between the stereo formula and the plain
    mono sum is taken on the inner float [stereo], the half-difference
    (lpf_out_l - lpf_out_r)/2 as computed in single precision: the
    sample is the stereo formula exactly when that float is not a zero.
    Equal finite filtered outputs give the plain mono sum with no
    pilot.  Finite filtered outputs that differ give the pilot and
    subcarrier terms, with one exception: when their difference is the
    smallest subnormal, 2^-149 in magnitude, its half rounds to zero
    and the sample is the plain mono sum.  The value of [--stereo]
    changes nothing in a run of [main]. *)
Theorem C3_branch_on_the_inner_float
    (lib : Library) (cfg : Config) (z : Z) (l r p c : f32) :
  stereo_encode (stereo cfg) l r p c =
    (if truthy (half_difference l r) then stereo_of l r p c else mono_of l r) /\
  (is_finite l = true -> feqb l r = true ->
   stereo_encode (stereo cfg) l r p c = mono_of l r) /\
  (valid l = true -> valid r = true ->
   is_finite l = true -> is_finite r = true -> feqb l r = false ->
   (forall s, (l - r)%f32 <> S754_finite s 1 (-149)) ->
   stereo_encode (stereo cfg) l r p c = stereo_of l r p c) /\
  (forall s, (l - r)%f32 = S754_finite s 1 (-149) ->
   stereo_encode (stereo cfg) l r p c = mono_of l r) /\
  (forall st envs, main lib (with_stereo z cfg) st envs = main lib cfg st envs).
Proof.
  split; [apply stereo_encode_unfold |].
  split; [apply stereo_encode_equal |].
  split; [| split].
  - intros Vl Vr Fl Fr Hne Hmin. apply stereo_encode_nonzero.
    apply half_difference_nonzero; assumption.
  - intros s Hs. rewrite stereo_encode_unfold. unfold half_difference.
    rewrite Hs. destruct s; reflexivity.
  - intros st envs. apply main_flag.
Qed.

Lemma C3_witness :
  stereo_encode (stereo default_config) c_1_0 c_1_0 c_0_5 c_0_5 = mono_of c_1_0 c_1_0 /\
  stereo_encode (stereo default_config) c_1_0 c_m1_0 c_0_5 c_0_5
    = stereo_of c_1_0 c_m1_0 c_0_5 c_0_5 /\
  stereo_encode (stereo default_config) c_min_subnormal fzero c_0_5 c_0_5
    = mono_of c_min_subnormal fzero.
Proof.
  split; [| split].
  - apply (proj1 (proj2 (C3_branch_on_the_inner_float
                           example_library default_config 0
                           c_1_0 c_1_0 c_0_5 c_0_5)));
      vm_compute; reflexivity.
  - apply (proj1 (proj2 (proj2 (C3_branch_on_the_inner_float
                                  example_library default_config 0
                                  c_1_0 c_m1_0 c_0_5 c_0_5))));
      try (vm_compute; reflexivity).
    intros s. vm_compute. discriminate.
  - apply (proj1 (proj2 (proj2 (proj2 (C3_branch_on_the_inner_float
                                         example_library default_config 0
                                         c_min_subnormal fzero c_0_5 c_0_5))))
             false).
    vm_compute. reflexivity.
Defined.

(** ** The oscillator (C4) *)

Lemma oscillator_step_spec (lib : Library) (s : State) :
  osc_output (pilot s) = pilot_sample ->
  oscillator_step lib s =
  (evaluate lib (pilot s) 1, evaluate lib (pilot s) 2,
   set_pilot (advance_sine_oscillator (pilot s))
     (set_vars (store pilot_sample (evaluate lib (pilot s) 2) (vars s)) s)).
Proof.
  destruct s as [run m osc ll lr pl pr inp le ri mpx out].
  destruct osc as [ph inc oo], m as [? ? ? ? ? ? ?].
  cbn [pilot osc_output]. intros ->. step_eval. reflexivity.
Qed.

(** C4.  For every sample index [i] of a block, whatever signals
    arrive, the pilot sample and the subcarrier sample of the loop body
    are [sinf (1 * phase)] and [sinf (2 * phase)] for one and the same
    phase, the phase after exactly [i] advances since the block began;
    the body then advances the oscillator once, so that a block of
    [BUFFER_SIZE] samples advances it [BUFFER_SIZE] times. *)
Theorem C4_harmonics_share_the_phase
    (lib : Library) (cfg : Config) (sig : nat -> bool) (i : nat) (s : State) :
  wired s -> wf_lengths s -> (i < BUFFER_SIZE)%nat ->
  let b := before_sample lib cfg sig i s in
  let phase_i := phase (Nat.iter i advance_sine_oscillator (pilot s)) in
  fst (fst (oscillator_step lib b)) = sinf lib (of_Z 1 * phase_i)%f32 /\
  snd (fst (oscillator_step lib b)) = sinf lib (of_Z 2 * phase_i)%f32 /\
  pilot (snd (oscillator_step lib b))
    = Nat.iter (S i) advance_sine_oscillator (pilot s) /\
  pilot (sample_step lib cfg i b)
    = Nat.iter (S i) advance_sine_oscillator (pilot s) /\
  pilot (block_loop lib cfg sig BUFFER_SIZE s)
    = Nat.iter BUFFER_SIZE advance_sine_oscillator (pilot s).
Proof.
  intros Hw Hl Hi. cbv zeta.
  destruct (before_sample_wf lib cfg sig i s Hw Hl Hi) as (Bw & _ & Bi).
  destruct (before_sample_frame lib cfg sig i s Hw Hl) as (_ & _ & _ & _ & Bp & _);
    [lia |].
  rewrite (oscillator_step_spec lib _ (proj1 Bw)).
  cbn [fst snd]. rewrite Bp. unfold evaluate.
  split; [reflexivity |]. split; [reflexivity |]. split; [reflexivity |].
  split.
  - destruct (sample_step_frame lib cfg i _ Bw Bi) as (_ & _ & _ & _ & _ & ->).
    rewrite Bp. reflexivity.
  - destruct (block_loop_frame lib cfg sig BUFFER_SIZE s Hw Hl)
      as (_ & _ & _ & _ & ->); [lia | reflexivity].
Qed.

Lemma C4_witness :
  fst (fst (oscillator_step example_library
              (before_sample example_library default_config no_signal 3
                 (main_init example_library default_config example_stack))))
  = poly_sinf (of_Z 1 * phase (Nat.iter 3 advance_sine_oscillator
                                (pilot (main_init example_library default_config
                                          example_stack))))%f32.
Proof.
  apply (C4_harmonics_share_the_phase example_library default_config no_signal 3
           (main_init example_library default_config example_stack)).
  - apply main_init_wf.
  - apply main_init_wf.
  - unfold BUFFER_SIZE. lia.
Defined.

(** ** The external multiplex sample (C5, C7) *)

(** The claim C5 fails in single precision.  With the filtered channels
    both 0.5 (the composite before line 195 is the mono sum 0.5) and
    the external sample X = 0.1f, the composite with X minus the
    composite with 0 is 13421776 * 2^-27, not X = 13421773 * 2^-27; and
    with the channels both 1.0 the external sample X = 2^-30 is
    absorbed: the composite is the same float as with X = 0. *)
Lemma C5_counterexample_rounding :
  (multiplex 1 c_0_5 c_0_5 c_0_5 c_0_5 c_0_1
   - multiplex 1 c_0_5 c_0_5 c_0_5 c_0_5 fzero)%f32
    = S754_finite false 13421776 (-27) /\
  (multiplex 1 c_0_5 c_0_5 c_0_5 c_0_5 c_0_1
   - multiplex 1 c_0_5 c_0_5 c_0_5 c_0_5 fzero)%f32 <> c_0_1 /\
  truthy c_2_pow_m30 = true /\
  multiplex 1 c_1_0 c_1_0 c_0_5 c_0_5 c_2_pow_m30
    = multiplex 1 c_1_0 c_1_0 c_0_5 c_0_5 fzero.
Proof.
  repeat split; try (vm_compute; reflexivity).
  vm_compute. discriminate.
Qed.

Lemma difference_at_zero_base (z x : f32) :
  is_zero z = true -> same_value ((z + x) - (z + fzero))%f32 x.
Proof.
  intros [sz ->]%is_zero_inv.
  destruct x as [s | s | | s m e], sz; try destruct s;
    try (left; reflexivity); right; split; reflexivity.
Qed.

(** C5, amended.  In the loop body the external multiplex sample is
    added unconditionally, as the last single-precision addition:
    output[i] = base + mpx_in[i], where [base] is the encoder's value.
    Neither [base] nor anything else the body leaves behind (oscillator,
    filters, bound floats) depends on the external buffer.  With
    external sample 0 the composite has the value of [base]; and where
    [base] is zero the difference between the composite with X and the
    composite with 0 is X.  (In general the difference is X only up to
    the rounding of the additions.) *)
Theorem C5_external_sample_is_added_last
    (lib : Library) (cfg : Config) (i : nat) (s : State) (a : list f32) :
  wired s -> (i < length (output s))%nat ->
  let base :=
    stereo_encode (stereo cfg)
      (chain_output (preemp_l s) (lpf_l s) (rd (left s) i))
      (chain_output (preemp_r s) (lpf_r s) (rd (right s) i))
      (evaluate lib (pilot s) 1) (evaluate lib (pilot s) 2) in
  let s1 := sample_step lib cfg i s in
  let s2 := sample_step lib cfg i (set_mpx_in a s) in
  rd (output s1) i = (base + rd (mpx_in s) i)%f32 /\
  rd (output s2) i = (base + rd a i)%f32 /\
  (vars s1 = vars s2 /\ pilot s1 = pilot s2 /\
   lpf_l s1 = lpf_l s2 /\ lpf_r s1 = lpf_r s2 /\
   preemp_l s1 = preemp_l s2 /\ preemp_r s1 = preemp_r s2) /\
  (rd a i = fzero -> same_value (rd (output s2) i) base) /\
  (rd a i = fzero -> is_zero base = true ->
   same_value (rd (output s1) i - rd (output s2) i)%f32 (rd (mpx_in s) i)).
Proof.
  intros Hw Hi. cbv zeta.
  rewrite (sample_step_spec lib cfg i s Hw Hi).
  rewrite (sample_step_spec lib cfg i (set_mpx_in a s) Hw Hi).
  cbn [output vars pilot lpf_l lpf_r preemp_l preemp_r left right mpx_in
       set_mpx_in running audio_stereo_input].
  unfold multiplex.
  set (base := stereo_encode _ _ _ _ _).
  assert (Hrd : forall x, rd (wr (output s) i x) i = x).
  { intros x. unfold rd, wr. rewrite list_lookup_insert_eq by exact Hi.
    reflexivity. }
  rewrite !Hrd.
  split; [reflexivity |]. split; [reflexivity |].
  split; [repeat split; reflexivity |]. split.
  - intros ->. apply fadd_zero_r.
  - intros -> Hz. apply difference_at_zero_base, Hz.
Qed.

Lemma C5_witness :
  rd (output (sample_step example_library default_config 0 example_state)) 0
  = (stereo_encode (stereo default_config)
       (chain_output (preemp_l example_state) (lpf_l example_state)
          (rd (left example_state) 0))
       (chain_output (preemp_r example_state) (lpf_r example_state)
          (rd (right example_state) 0))
       (evaluate example_library (pilot example_state) 1)
       (evaluate example_library (pilot example_state) 2)
     + rd (mpx_in example_state) 0)%f32.
Proof.
  apply (proj1 (C5_external_sample_is_added_last example_library default_config
                  0 example_state [] (proj1 example_state_wf)
                  example_state_output)).
Defined.

Section MpxInvariant.

Variable lib : Library.
Variable cfg : Config.

Lemma process_block_mpx_in (sig : nat -> bool) (s : State) :
  wired s -> wf_lengths s -> mpx_in (process_block lib cfg sig s) = mpx_in s.
Proof.
  intros Hw Hl. destruct (deinterleaved_wf s Hw Hl) as [Dw Dl].
  rewrite process_block_deinterleaved.
  destruct (block_loop_frame lib cfg sig BUFFER_SIZE _ Dw Dl)
    as (_ & _ & _ & -> & _); [lia | reflexivity].
Qed.

Lemma set_running_lengths (b : bool) (s : State) :
  wf_lengths s -> wf_lengths (set_running b s).
Proof. intros H; exact H. Qed.

Lemma mpx_in_set_running (b : bool) (s : State) :
  mpx_in (set_running b s) = mpx_in s.
Proof. reflexivity. Qed.

(** Without an external multiplex device no pass of the loop touches
    [mpx_in]. *)
Lemma streaming_loop_mpx_in (envs : list IterEnv) (s : State) :
  mpx_configured cfg = false -> wired s -> wf_lengths s ->
  let s' := fst (streaming_loop lib cfg envs s) in
  wired s' /\ wf_lengths s' /\ mpx_in s' = mpx_in s.
Proof.
  intros Hc. cbv zeta. revert s.
  induction envs as [| e envs IH]; intros s Hw Hl; [cbn; auto |].
  cbn [streaming_loop].
  pose proof (deliver_wired (sig_before e) s Hw) as Dw.
  pose proof (deliver_lengths (sig_before e) s Hl) as Dl.
  destruct (deliver_frame (sig_before e) s) as (_ & _ & _ & Dm & _).
  destruct (negb (running (deliver (sig_before e) s))); [cbn; auto |].
  destruct (input_read e) as [d |]; [| cbn [fst]; auto].
  destruct (input_filled_wf d _ Dw Dl) as (Fw & Fl & _ & Fm).
  unfold read_mpx. rewrite Hc.
  destruct (process_block_wf lib cfg (sig_during e) _ Fw Fl) as [Pw Pl].
  pose proof (process_block_mpx_in (sig_during e) _ Fw Fl) as Pm.
  destruct (write_ok e); cbn [fst].
  - destruct (IH _ Pw Pl) as (H1 & H2 & H3).
    split; [exact H1 |]. split; [exact H2 |].
    rewrite H3, Pm, Fm, Dm. reflexivity.
  - split; [apply set_running_wired, Pw |].
    split; [apply set_running_lengths, Pl |].
    rewrite mpx_in_set_running, Pm, Fm, Dm. reflexivity.
Qed.

End MpxInvariant.

(** C7.  With no external multiplex device configured (empty device
    name), after any number of passes of the streaming loop the buffer
    [mpx_in] is all zeros, the next pass leaves it so, and every cell
    [i] of the block that pass writes is the encoder's value for sample
    [i] plus zero, which has the value of the encoder's sample: the
    addition of line 195 changes no composite sample. *)
Theorem C7_unconfigured_mpx_buffer_stays_zero
    (lib : Library) (cfg : Config) (u : Indeterminate) (envs : list IterEnv)
    (d : list f32) (sig : nat -> bool) (i : nat) :
  audio_mpx_device cfg = ""%string -> (i < BUFFER_SIZE)%nat ->
  let s := fst (streaming_loop lib cfg envs (main_init lib cfg u)) in
  let s1 := set_audio_stereo_input (fill (audio_stereo_input s) d) s in
  mpx_in s = replicate BUFFER_SIZE fzero /\
  read_mpx cfg (mkIterEnv false (Some d) None sig true) s1 = (Some s1, []) /\
  mpx_in (process_block lib cfg sig s1) = replicate BUFFER_SIZE fzero /\
  output (process_block lib cfg sig s1) !! i
    = Some (encoded_sample lib cfg sig i s1 + fzero)%f32 /\
  same_value (encoded_sample lib cfg sig i s1 + fzero)%f32
             (encoded_sample lib cfg sig i s1).
Proof.
  intros Hdev Hi. cbv zeta.
  assert (Hc : mpx_configured cfg = false).
  { unfold mpx_configured. rewrite Hdev. reflexivity. }
  destruct (main_init_wf lib cfg u) as [Hw Hl].
  destruct (streaming_loop_mpx_in lib cfg envs _ Hc Hw Hl) as (Sw & Sl & Sm).
  set (s := fst (streaming_loop lib cfg envs (main_init lib cfg u))) in *.
  assert (Hz : mpx_in s = replicate BUFFER_SIZE fzero) by (rewrite Sm; reflexivity).
  destruct (input_filled_wf d s Sw Sl) as (Fw & Fl & _ & Fm).
  set (s1 := set_audio_stereo_input (fill (audio_stereo_input s) d) s) in *.
  split; [exact Hz |].
  split; [unfold read_mpx; rewrite Hc; reflexivity |].
  split; [rewrite process_block_mpx_in, Fm by assumption; exact Hz |].
  split; [| apply fadd_zero_r].
  rewrite (process_block_cell lib cfg sig i s1 Fw Fl Hi).
  rewrite Fm, Hz. unfold rd. rewrite lookup_replicate_2 by exact Hi.
  reflexivity.
Qed.

Lemma C7_witness :
  mpx_in (fst (streaming_loop example_library default_config [pass_input_fails]
                 example_state))
  = replicate BUFFER_SIZE fzero.
Proof.
  apply (proj1 (C7_unconfigured_mpx_buffer_stays_zero example_library
                  default_config example_stack [pass_input_fails] example_block
                  no_signal 0 eq_refl example_state_output_index)).
Defined.

(** ** The blocks the loop writes *)

Section Writes.

Variable lib : Library.
Variable cfg : Config.

(** The write looked for is not the first event of [H]'s list. *)
Ltac skip_event H :=
  let t := fresh "t1" in
  let Hx := fresh "Hx" in
  apply cons_split in H as [(_ & Hx & _) | (t & -> & H)]; [discriminate Hx |].

Ltac no_write H :=
  repeat skip_event H; apply nil_split in H; destruct H.

Lemma read_mpx_input (e : IterEnv) (s s2 : State) (t : list Event) :
  read_mpx cfg e s = (Some s2, t) -> audio_stereo_input s2 = audio_stereo_input s.
Proof.
  unfold read_mpx. destruct (mpx_configured cfg).
  - destruct (mpx_read e); [| discriminate]. intros H. injection H as <- _.
    reflexivity.
  - intros H. injection H as <- _. reflexivity.
Qed.

Lemma EvWrite_inj (blk blk' : list f32) (ok ok' : bool) :
  EvWrite blk ok = EvWrite blk' ok' -> blk = blk' /\ ok = ok'.
Proof. intros H. injection H as -> ->. split; reflexivity. Qed.

(** One pass whose reads succeed. *)
Lemma streaming_loop_pass_reads (e : IterEnv) (envs : list IterEnv)
    (s : State) (d : list f32) (s2 : State) :
  running s = true -> sig_before e = false -> input_read e = Some d ->
  read_mpx cfg e (set_audio_stereo_input (fill (audio_stereo_input s) d) s)
  = (Some s2, mpx_events cfg) ->
  let s3 := process_block lib cfg (sig_during e) s2 in
  streaming_loop lib cfg (e :: envs) s
  = if write_ok e
    then (fst (streaming_loop lib cfg envs s3),
          EvRunning true :: EvRead InputDevice true :: mpx_events cfg
            ++ EvWrite (output s3) true :: snd (streaming_loop lib cfg envs s3))
    else (set_running false s3,
          EvRunning true :: EvRead InputDevice true :: mpx_events cfg
            ++ [EvWrite (output s3) false;
                EvStderr "Error writing to output device"]).
Proof.
  intros Hr Hsb Hin Hm. cbv zeta. cbn [streaming_loop]. rewrite Hsb.
  change (deliver false s) with s. rewrite Hr, Hin. cbn [negb].
  rewrite Hm. destruct (write_ok e); reflexivity.
Qed.

(** The block a pass writes, as the pass computed it. *)
Lemma pass_block (sig : nat -> bool) (s2 : State) :
  wired s2 -> wf_lengths s2 ->
  let blk := output (process_block lib cfg sig s2) in
  (forall i, (i < BUFFER_SIZE)%nat ->
     blk !! i = Some (encoded_sample lib cfg sig i s2 + rd (mpx_in s2) i)%f32) /\
  (length blk = BUFFER_SIZE /\
   (forall a, length a = BUFFER_SIZE ->
      output (process_block lib cfg sig (set_output a s2)) = blk) /\
   (forall sig', output (process_block lib cfg sig' s2) = blk)).
Proof.
  intros Hw Hl. cbv zeta. split; [| split; [| split]].
  - intros i Hi. apply process_block_cell; assumption.
  - destruct (process_block_wf lib cfg sig s2 Hw Hl) as [_ (_ & _ & _ & _ & Ho)].
    exact Ho.
  - intros a Ha. rewrite process_block_fresh by assumption. reflexivity.
  - intros sig'. apply process_block_output_signals; assumption.
Qed.

(** Every write of a run is the write of one pass of the script. *)
Lemma streaming_loop_writes (envs : list IterEnv) (s0 : State)
    (t1 : list Event) (blk : list f32) (ok : bool) (t2 : list Event) :
  wired s0 -> wf_lengths s0 ->
  snd (streaming_loop lib cfg envs s0) = t1 ++ EvWrite blk ok :: t2 ->
  written_by_pass lib cfg s0 envs t1 blk ok t2.
Proof.
  revert s0 t1. induction envs as [| e0 envs IH]; intros s0 t1 Hw Hl H.
  - cbn in H. apply nil_split in H. destruct H.
  - destruct (running (deliver (sig_before e0) s0)) eqn:Hrun.
    2: { cbn [streaming_loop] in H. rewrite Hrun in H. cbn [negb snd] in H.
         no_write H. }
    assert (Hsb : sig_before e0 = false).
    { destruct (sig_before e0); [discriminate | reflexivity]. }
    rewrite Hsb in Hrun. change (deliver false s0) with s0 in Hrun.
    destruct (input_read e0) as [d |] eqn:Hin.
    2: { cbn [streaming_loop] in H. rewrite Hsb in H.
         change (deliver false s0) with s0 in H. rewrite Hrun, Hin in H.
         cbn [negb snd] in H. no_write H. }
    destruct (input_filled_wf d s0 Hw Hl) as (Fw & Fl & _).
    destruct (read_mpx_cases cfg e0 _ Fw Fl)
      as [(Hc & msg & Hm) | (s2 & Hm & Mw & Ml & _)].
    { cbn [streaming_loop] in H. rewrite Hsb in H.
      change (deliver false s0) with s0 in H. rewrite Hrun, Hin in H.
      cbn [negb] in H. rewrite Hm in H. cbn [snd] in H. no_write H. }
    pose proof (streaming_loop_pass_reads e0 envs s0 d s2 Hrun Hsb Hin Hm) as Hp.
    cbv zeta in Hp.
    destruct (pass_block (sig_during e0) s2 Mw Ml) as (Hcells & Hfresh).
    destruct (process_block_wf lib cfg (sig_during e0) s2 Mw Ml) as [Pw Pl].
    set (s3 := process_block lib cfg (sig_during e0) s2) in *.
    assert (Hhere : t1 = EvRunning true :: EvRead InputDevice true :: mpx_events cfg ->
                    blk = output s3 -> ok = write_ok e0 ->
                    t2 = (if write_ok e0 then snd (streaming_loop lib cfg envs s3)
                          else [EvStderr "Error writing to output device"]) ->
                    written_by_pass lib cfg s0 (e0 :: envs) t1 blk ok t2).
    { intros -> -> -> ->. exists [], e0, envs, d, s2.
      split; [reflexivity |]. cbv zeta.
      change (streaming_loop lib cfg [] s0) with (s0, @nil Event).
      cbn [fst snd app].
      split; [split; [exact Hrun | split; [exact Hsb | split; [exact Hin |
                split; [exact Hm | exact (read_mpx_input e0 _ s2 _ Hm)]]]] |].
      split; [reflexivity |]. split; [split; reflexivity |].
      split; [exact Hcells |]. split; [exact Hfresh |].
      split; [reflexivity |].
      rewrite Hp. destruct (write_ok e0); reflexivity. }
    assert (Hlater : forall t1',
              write_ok e0 = true ->
              t1 = EvRunning true :: EvRead InputDevice true :: mpx_events cfg
                     ++ EvWrite (output s3) true :: t1' ->
              snd (streaming_loop lib cfg envs s3) = t1' ++ EvWrite blk ok :: t2 ->
              written_by_pass lib cfg s0 (e0 :: envs) t1 blk ok t2).
    { intros t1' Hwr -> H'.
      destruct (IH s3 t1' Pw Pl H')
        as (envs1 & e & envs2 & d' & s2' & -> & Hpass & -> & Hb & Hc' & Hf & -> & Hend).
      cbv zeta in Hpass, Hb, Hc', Hf, Hend.
      pose proof (streaming_loop_pass_reads e0 envs1 s0 d s2 Hrun Hsb Hin Hm) as Hp1.
      cbv zeta in Hp1. fold s3 in Hp1. rewrite Hwr in Hp1.
      exists (e0 :: envs1), e, envs2, d', s2'.
      split; [reflexivity |]. cbv zeta. rewrite Hp1. cbn [fst snd].
      split; [exact Hpass |].
      split; [cbn [app]; rewrite <- app_assoc; reflexivity |].
      split; [exact Hb |]. split; [exact Hc' |]. split; [exact Hf |].
      split; [reflexivity |].
      rewrite <- Hend, Hp, Hwr. reflexivity. }
    rewrite Hp in H. destruct (write_ok e0) eqn:Hwr; cbn [snd] in H.
    + unfold mpx_events in H, Hhere, Hlater.
      destruct (mpx_configured cfg) eqn:Hc; cbn [app] in H, Hhere, Hlater.
      * do 3 skip_event H.
        apply cons_split in H as [(-> & Hx & ->) | (t1d & -> & H)].
        { apply EvWrite_inj in Hx as [-> ->]. apply Hhere; reflexivity. }
        apply (Hlater t1d eq_refl eq_refl H).
      * do 2 skip_event H.
        apply cons_split in H as [(-> & Hx & ->) | (t1d & -> & H)].
        { apply EvWrite_inj in Hx as [-> ->]. apply Hhere; reflexivity. }
        apply (Hlater t1d eq_refl eq_refl H).
    + unfold mpx_events in H, Hhere.
      destruct (mpx_configured cfg) eqn:Hc; cbn [app] in H, Hhere.
      * do 3 skip_event H.
        apply cons_split in H as [(-> & Hx & ->) | (t1d & -> & H)].
        { apply EvWrite_inj in Hx as [-> ->]. apply Hhere; reflexivity. }
        no_write H.
      * do 2 skip_event H.
        apply cons_split in H as [(-> & Hx & ->) | (t1d & -> & H)].
        { apply EvWrite_inj in Hx as [-> ->]. apply Hhere; reflexivity. }
        no_write H.
Qed.

End Writes.

(** ** Device failures (C6) *)



(** ** The processing order (C8) *)

(** C8.  For every block and every sample index [i] below the block
    length: the left channel's sample is the even-indexed float of the
    interleaved input and the right channel's the odd-indexed one
    (left[i] = input[2i], right[i] = input[2i+1]); the body of sample
    [i] passes each of them through its channel's preemphasis filter,
    whose output (in lpf_preemp_l/r) goes through that channel's
    low-pass filter (to lpf_out_l/r); every filter's delay line takes
    its own channel's sample only; and the cell written for sample [i]
    combines exactly these two low-pass outputs. *)
Theorem C8_deinterleave_preemphasis_lowpass
    (lib : Library) (cfg : Config) (sig : nat -> bool) (i : nat) (s : State) :
  wired s -> wf_lengths s -> (i < BUFFER_SIZE)%nat ->
  let input := audio_stereo_input s in
  let b := before_sample lib cfg sig i (deinterleaved s) in
  let s' := sample_step lib cfg i b in
  let pre_l := biquad_output (preemp_l b) (rd input (2 * i)) in
  let pre_r := biquad_output (preemp_r b) (rd input (2 * i + 1)) in
  (rd (left (deinterleaved s)) i = rd input (2 * i) /\
   rd (right (deinterleaved s)) i = rd input (2 * i + 1)) /\
  (load preemp_input_l (vars s') = rd input (2 * i) /\
   load preemp_input_r (vars s') = rd input (2 * i + 1)) /\
  (load lpf_preemp_l (vars s') = pre_l /\ load lpf_preemp_r (vars s') = pre_r) /\
  (load lpf_out_l (vars s') = biquad_output (lpf_l b) pre_l /\
   load lpf_out_r (vars s') = biquad_output (lpf_r b) pre_r) /\
  (preemp_l s' = biquad_next (preemp_l b) (rd input (2 * i)) /\
   preemp_r s' = biquad_next (preemp_r b) (rd input (2 * i + 1)) /\
   lpf_l s' = biquad_next (lpf_l b) pre_l /\
   lpf_r s' = biquad_next (lpf_r b) pre_r) /\
  output (process_block lib cfg sig s) !! i
    = Some (multiplex (stereo cfg)
              (biquad_output (lpf_l b) pre_l) (biquad_output (lpf_r b) pre_r)
              (evaluate lib (pilot b) 1) (evaluate lib (pilot b) 2)
              (rd (mpx_in s) i)).
Proof.
  intros Hw Hl Hi. cbv zeta.
  destruct (deinterleaved_wf s Hw Hl) as [Dw Dl].
  destruct (deinterleaved_channels s i Hl Hi) as [Cl Cr].
  destruct (before_sample_wf lib cfg sig i _ Dw Dl Hi) as (Bw & _ & Bi).
  destruct (before_sample_frame lib cfg sig i _ Dw Dl)
    as (_ & Ble & Bri & _); [lia |].
  split; [split; assumption |].
  rewrite (sample_step_spec lib cfg i _ Bw Bi).
  cbn [vars load v_preemp_input_l v_preemp_input_r v_lpf_preemp_l
       v_lpf_preemp_r v_lpf_out_l v_lpf_out_r preemp_l preemp_r lpf_l lpf_r].
  rewrite Ble, Bri, Cl, Cr. unfold chain_output.
  split; [split; reflexivity |]. split; [split; reflexivity |].
  split; [split; reflexivity |].
  split; [repeat split; reflexivity |].
  rewrite (process_block_cell lib cfg sig i s Hw Hl Hi).
  unfold encoded_sample, multiplex, chain_output. reflexivity.
Qed.

Lemma C8_witness :
  rd (left (deinterleaved example_state)) 0
    = rd (audio_stereo_input example_state) (2 * 0) /\
  rd (right (deinterleaved example_state)) 0
    = rd (audio_stereo_input example_state) (2 * 0 + 1).
Proof.
  apply (proj1 (C8_deinterleave_preemphasis_lowpass example_library
                  default_config no_signal 0 example_state
                  (proj1 example_state_wf) (proj2 example_state_wf)
                  example_state_output_index)).
Defined.

(** ** The shutdown signal (C9) *)

Section Shutdown.

Variable lib : Library.
Variable cfg : Config.

Lemma signal_seen (sig : nat -> bool) (n k : nat) :
  (k < n)%nat -> sig k = true -> existsb sig (seq 0 n) = true.
Proof.
  intros Hk Hs. apply existsb_exists. exists k. split; [| exact Hs].
  apply in_seq. lia.
Qed.

Lemma streaming_loop_stopped (e : IterEnv) (envs : list IterEnv) (s : State) :
  running (deliver (sig_before e) s) = false ->
  streaming_loop lib cfg (e :: envs) s
  = (deliver (sig_before e) s, [EvRunning false]).
Proof. intros H. cbn [streaming_loop]. rewrite H. reflexivity. Qed.

(** The loop keeps the bindings and the sizes. *)
Lemma streaming_loop_wf (envs : list IterEnv) (s : State) :
  wired s -> wf_lengths s ->
  wired (fst (streaming_loop lib cfg envs s))
  /\ wf_lengths (fst (streaming_loop lib cfg envs s)).
Proof.
  revert s. induction envs as [| e envs IH]; intros s Hw Hl; [split; assumption |].
  cbn [streaming_loop].
  pose proof (deliver_wired (sig_before e) s Hw) as Dw.
  pose proof (deliver_lengths (sig_before e) s Hl) as Dl.
  destruct (running (deliver (sig_before e) s)); cbn [negb];
    [| split; assumption].
  destruct (input_read e) as [d |].
  2: { split; [apply set_running_wired, Dw | apply set_running_lengths, Dl]. }
  destruct (input_filled_wf d _ Dw Dl) as (Fw & Fl & _).
  destruct (read_mpx_cases cfg e _ Fw Fl)
    as [(_ & msg & ->) | (s2 & -> & Mw & Ml & _)].
  { split; [apply set_running_wired, Fw | apply set_running_lengths, Fl]. }
  destruct (process_block_wf lib cfg (sig_during e) s2 Mw Ml) as [Pw Pl].
  destruct (write_ok e); cbn [fst].
  - apply IH; assumption.
  - split; [apply set_running_wired, Pw | apply set_running_lengths, Pl].
Qed.

(** A pass during which a signal arrives, with all its I/O succeeding:
    the block is processed in full and written, the same block as
    without the signal, and the next reading of [running] ends the
    loop. *)
Lemma pass_with_signal (e e' : IterEnv) (envs : list IterEnv) (s : State)
    (d : list f32) (s2 : State) (k : nat) :
  wired s -> wf_lengths s -> running s = true ->
  sig_before e = false -> input_read e = Some d ->
  read_mpx cfg e (set_audio_stereo_input (fill (audio_stereo_input s) d) s)
  = (Some s2, mpx_events cfg) ->
  write_ok e = true ->
  (k < BUFFER_SIZE)%nat -> sig_during e k = true ->
  snd (streaming_loop lib cfg (e :: e' :: envs) s)
  = EvRunning true :: EvRead InputDevice true :: mpx_events cfg
      ++ [EvWrite (output (process_block lib cfg no_signal s2)) true;
          EvRunning false] /\
  running (fst (streaming_loop lib cfg (e :: e' :: envs) s)) = false /\
  (forall i, (i < BUFFER_SIZE)%nat ->
     output (process_block lib cfg no_signal s2) !! i
     = Some (encoded_sample lib cfg no_signal i s2 + rd (mpx_in s2) i)%f32).
Proof.
  intros Hw Hl Hrun Hsb Hin Hm Hwr Hk Hsig.
  destruct (input_filled_wf d s Hw Hl) as (Fw & Fl & Fr & _).
  assert (Hs2 : wired s2 /\ wf_lengths s2 /\ running s2 = true).
  { destruct (read_mpx_cases cfg e _ Fw Fl)
      as [(_ & msg & Hn) | (s' & Hs & Mw & Ml & Mr & _)].
    - rewrite Hm in Hn. discriminate.
    - rewrite Hm in Hs. injection Hs as ->.
      split; [exact Mw |]. split; [exact Ml |]. rewrite Mr, Fr. exact Hrun. }
  destruct Hs2 as (Mw & Ml & Mr).
  pose proof (process_block_running lib cfg (sig_during e) s2 Mw Ml) as Pr.
  rewrite Mr, (signal_seen _ _ k Hk Hsig) in Pr. cbn in Pr.
  rewrite (streaming_loop_pass_reads lib cfg e (e' :: envs) s d s2 Hrun Hsb Hin Hm),
    Hwr.
  cbn [fst snd].
  rewrite streaming_loop_stopped
    by (rewrite deliver_set_running, running_set_running, Pr; reflexivity).
  cbn [fst snd].
  rewrite (process_block_output_signals lib cfg (sig_during e) no_signal s2 Mw Ml).
  split; [reflexivity |]. split.
  - rewrite deliver_set_running, running_set_running, Pr. reflexivity.
  - intros i Hi. apply process_block_cell; assumption.
Qed.

End Shutdown.

(** C9.  In every run of the streaming loop [running] is read once per
    pass, at the block boundary: every reading of the flag that finds
    it set is followed at once by the read of the next input block, one
    that finds it cleared ends the loop, every input read comes right
    after a reading of the flag, and after a write that succeeded the
    flag is read next.  Once the block has been read (and the external
    multiplex, when configured, has not failed) the next event is the
    write of the block this pass computed in full from it
    ([written_by_pass]): no signal schedule puts anything in between or
    changes a cell.  A signal that arrives while a block is processed,
    with or without an MPX device, does not touch the block: the pass
    writes the very block it writes without the signal, every cell
    computed, and the loop ends at the next reading of the flag.  A
    signal that arrives at the boundary ends the loop at that reading,
    before anything is read. *)
Theorem C9_shutdown_is_sampled_between_blocks
    (lib : Library) (cfg : Config) (u : Indeterminate) (envs : list IterEnv) :
  let r := streaming_loop lib cfg envs (main_init lib cfg u) in
  (forall t1 b t2, snd r = t1 ++ EvRunning b :: t2 ->
     if b then exists ok t3, t2 = EvRead InputDevice ok :: t3
     else t2 = [] /\ running (fst r) = false) /\
  (forall t1 ok t2, snd r = t1 ++ EvRead InputDevice ok :: t2 ->
     exists t0, t1 = t0 ++ [EvRunning true]) /\
  (forall t1 t2, snd r = t1 ++ EvRead InputDevice true :: t2 ->
     (mpx_configured cfg = true /\
      exists msg, t2 = [EvRead MpxDevice false; EvStderr msg]) \/
     (exists blk ok t3,
        t2 = mpx_events cfg ++ EvWrite blk ok :: t3 /\
        written_by_pass lib cfg (main_init lib cfg u) envs
          (t1 ++ EvRead InputDevice true :: mpx_events cfg) blk ok t3)) /\
  (forall t1 blk t2, snd r = t1 ++ EvWrite blk true :: t2 ->
     t2 = [] \/ exists b t3, t2 = EvRunning b :: t3) /\
  (forall e e' envs' d s2 k,
     running (fst r) = true -> sig_before e = false ->
     input_read e = Some d ->
     read_mpx cfg e (set_audio_stereo_input
                       (fill (audio_stereo_input (fst r)) d) (fst r))
     = (Some s2, mpx_events cfg) ->
     write_ok e = true -> (k < BUFFER_SIZE)%nat -> sig_during e k = true ->
     snd (streaming_loop lib cfg (e :: e' :: envs') (fst r))
     = EvRunning true :: EvRead InputDevice true :: mpx_events cfg
         ++ [EvWrite (output (process_block lib cfg no_signal s2)) true;
             EvRunning false] /\
     running (fst (streaming_loop lib cfg (e :: e' :: envs') (fst r))) = false /\
     (forall i, (i < BUFFER_SIZE)%nat ->
        output (process_block lib cfg no_signal s2) !! i
        = Some (encoded_sample lib cfg no_signal i s2 + rd (mpx_in s2) i)%f32)) /\
  (forall e envs', sig_before e = true ->
     streaming_loop lib cfg (e :: envs') (fst r)
     = (stop (fst r), [EvRunning false])).
Proof.
  cbv zeta. destruct (main_init_wf lib cfg u) as [Hw Hl].
  destruct (streaming_loop_events lib cfg envs _ Hw Hl) as [_ Hev].
  split; [| split; [| split; [| split; [| split]]]].
  - intros t1 b t2 H. specialize (Hev t1 _ t2 H). destruct b; exact Hev.
  - intros t1 ok t2 H. specialize (Hev t1 _ t2 H).
    destruct ok; cbn in Hev; tauto.
  - intros t1 t2 H. pose proof (Hev t1 _ t2 H) as Hc. cbn in Hc.
    destruct Hc as (_ & [(Hm & _ & Hmsg) | (blk & ok & t3 & ->)]).
    + left. split; assumption.
    + right. exists blk, ok, t3. split; [reflexivity |].
      apply (streaming_loop_writes lib cfg envs _ _ blk ok t3 Hw Hl).
      rewrite H, <- app_assoc. reflexivity.
  - intros t1 blk t2 H. specialize (Hev t1 _ t2 H). cbn in Hev. tauto.
  - intros e e' envs' d s2 k Hrun Hsb Hin Hm Hwr Hk Hsig.
    destruct (streaming_loop_wf lib cfg envs _ Hw Hl) as [Sw Sl].
    exact (pass_with_signal lib cfg e e' envs' _ d s2 k Sw Sl Hrun Hsb Hin Hm
             Hwr Hk Hsig).
  - intros e envs' Hsb.
    rewrite streaming_loop_stopped by (rewrite Hsb; reflexivity).
    rewrite Hsb. reflexivity.
Qed.

Lemma C9_witness :
  snd (streaming_loop example_library default_config
         [pass_signalled; pass_ok]
         (fst (streaming_loop example_library default_config [] example_state)))
  = EvRunning true :: EvRead InputDevice true :: mpx_events default_config
      ++ [EvWrite (output (process_block example_library default_config no_signal
                             (set_audio_stereo_input
                                (fill (audio_stereo_input
                                         (fst (streaming_loop example_library
                                                 default_config [] example_state)))
                                   example_block)
                                (fst (streaming_loop example_library default_config
                                        [] example_state)))))
                  true;
          EvRunning false].
Proof.
  apply (proj1 (proj1 (proj2 (proj2 (proj2 (proj2
           (C9_shutdown_is_sampled_between_blocks example_library
              default_config example_stack [])))))
           pass_signalled pass_ok [] example_block _ 100%nat
           eq_refl eq_refl eq_refl eq_refl eq_refl
           ltac:(unfold BUFFER_SIZE; lia) eq_refl)).
Defined.

(** * Further properties of the code *)

(** ** [uninterleave] (lines 27-32) *)

(** Where [uninterleave] puts frame [i] of its input. *)
Lemma uninterleave_frames (input left right : list f32) (num_samples i : nat) :
  (num_samples <= length input)%nat -> (i < num_samples / 2)%nat ->
  let lr := uninterleave input left right num_samples in
  ((i < length left)%nat -> fst lr !! i = input !! (2 * i)%nat) /\
  ((i < length right)%nat -> snd lr !! i = input !! (2 * i + 1)%nat).
Proof.
  intros Hn Hi. cbv zeta. unfold uninterleave.
  destruct (uninterleave_loop input (num_samples / 2) left right)
    as (_ & _ & H3 & H4 & _).
  assert (Hdiv : (2 * (num_samples / 2) <= num_samples)%nat)
    by (apply Nat.Div0.mul_div_le).
  assert (Hrd : forall k, (k < length input)%nat -> Some (rd input k) = input !! k).
  { intros k Hk. destruct (lookup_lt_is_Some_2 input k Hk) as [x Hx].
    unfold rd. rewrite Hx. reflexivity. }
  split; intros Hlen.
  - rewrite (H3 i Hi Hlen), (Nat.mul_comm i 2). apply Hrd. lia.
  - rewrite (H4 i Hi Hlen), (Nat.mul_comm i 2). apply Hrd. lia.
Qed.

(** X1.  [uninterleave] on an input that holds [num_samples] floats:
    the arrays keep their sizes; frame [i] below [num_samples/2] goes
    to [left[i]] and [right[i]] (where the arrays have such a cell);
    every cell from [num_samples/2] on keeps what it held. *)
Theorem uninterleave_contract
    (input left right : list f32) (num_samples : nat) :
  (num_samples <= length input)%nat ->
  let lr := uninterleave input left right num_samples in
  length (fst lr) = length left /\ length (snd lr) = length right /\
  (forall i, (i < num_samples / 2)%nat ->
     ((i < length left)%nat -> fst lr !! i = input !! (2 * i)%nat) /\
     ((i < length right)%nat -> snd lr !! i = input !! (2 * i + 1)%nat)) /\
  (forall i, (num_samples / 2 <= i)%nat ->
     fst lr !! i = left !! i /\ snd lr !! i = right !! i).
Proof.
  intros Hn. cbv zeta.
  destruct (uninterleave_loop input (num_samples / 2) left right)
    as (H1 & H2 & _ & _ & H5).
  split; [exact H1 |]. split; [exact H2 |]. split.
  - intros i Hi. exact (uninterleave_frames input left right num_samples i Hn Hi).
  - exact H5.
Qed.

Lemma X1_witness :
  fst (uninterleave [c_0_5; c_m1_0; c_0_1] [fzero; fzero] [fzero; fzero] 3)
    !! 0%nat = [c_0_5; c_m1_0; c_0_1] !! (2 * 0)%nat.
Proof.
  apply (proj1 (proj1 (proj2 (proj2
           (uninterleave_contract [c_0_5; c_m1_0; c_0_1] [fzero; fzero]
              [fzero; fzero] 3 ltac:(cbn; lia)))) 0%nat ltac:(cbn; lia))).
  cbn; lia.
Defined.

(** X2.  Nothing of the frames is lost: with arrays of at least
    [num_samples/2] cells, input float [k] of the first
    [2*(num_samples/2)] is found at [left[k/2]] when [k] is even and at
    [right[k/2]] when it is odd.  (With an odd [num_samples] the last
    float belongs to no frame and is not copied.) *)
Theorem uninterleave_keeps_every_frame
    (input left right : list f32) (num_samples k : nat) :
  (num_samples <= length input)%nat ->
  (num_samples / 2 <= length left)%nat ->
  (num_samples / 2 <= length right)%nat ->
  (k < 2 * (num_samples / 2))%nat ->
  let lr := uninterleave input left right num_samples in
  input !! k = (if Nat.even k then fst lr else snd lr) !! (k / 2)%nat.
Proof.
  intros Hn Hl Hr Hk. cbv zeta.
  pose proof (fun j Hj => uninterleave_frames input left right num_samples j Hn Hj)
    as H. cbv zeta in H.
  destruct (Nat.Even_or_Odd k) as [[j ->] | [j ->]].
  - rewrite Nat.even_even, (Nat.mul_comm 2 j), Nat.div_mul by discriminate.
    destruct (H j ltac:(lia)) as [HL _]. rewrite HL by lia.
    f_equal. lia.
  - rewrite Nat.even_odd.
    replace ((2 * j + 1) / 2)%nat with j
      by (apply Nat.div_unique with (r := 1%nat); lia).
    destruct (H j ltac:(lia)) as [_ HR]. rewrite HR by lia. reflexivity.
Qed.

Lemma X2_witness :
  [c_0_5; c_m1_0; c_0_1] !! 1%nat
  = (if Nat.even 1
     then fst (uninterleave [c_0_5; c_m1_0; c_0_1] [fzero] [fzero] 3)
     else snd (uninterleave [c_0_5; c_m1_0; c_0_1] [fzero] [fzero] 3))
      !! (1 / 2)%nat.
Proof.
  apply (uninterleave_keeps_every_frame [c_0_5; c_m1_0; c_0_1] [fzero] [fzero]
           3 1); cbn; lia.
Defined.

(** ** Runs of the streaming loop (lines 158-203) *)

Section Runs.

Variable lib : Library.
Variable cfg : Config.

Lemma count_app (p : Event -> bool) (t1 t2 : list Event) :
  count p (t1 ++ t2) = (count p t1 + count p t2)%nat.
Proof. induction t1 as [| ev t1 IH]; cbn; [reflexivity | rewrite IH; lia]. Qed.

Lemma count_mpx_events (p : Event -> bool) :
  count p (mpx_events cfg)
  = if mpx_configured cfg then if p (EvRead MpxDevice true) then 1%nat else 0%nat
    else 0%nat.
Proof. unfold mpx_events. destruct (mpx_configured cfg); cbn; lia. Qed.

Lemma stopped_stays_stopped (envs : list IterEnv) (s : State) :
  running s = false ->
  running (fst (streaming_loop lib cfg envs s)) = false.
Proof.
  intros Hr. destruct envs as [| e envs]; [exact Hr |].
  rewrite streaming_loop_stopped; [cbn [fst] |];
    rewrite deliver_set_running, running_set_running, Hr; reflexivity.
Qed.

(** One pass of the loop whose device calls all succeed. *)
Lemma streaming_loop_pass_ok (e : IterEnv) (envs : list IterEnv) (s : State)
    (d : list f32) :
  wired s -> wf_lengths s -> running s = true ->
  sig_before e = false -> input_read e = Some d ->
  (mpx_configured cfg = true -> succeeded (mpx_read e) = true) ->
  write_ok e = true ->
  exists s2,
    wired s2 /\ wf_lengths s2 /\ running s2 = true /\
    pilot s2 = pilot s /\
    (forall i, (BUFFER_SIZE <= i)%nat ->
       left s2 !! i = left s !! i /\ right s2 !! i = right s !! i) /\
    streaming_loop lib cfg (e :: envs) s
    = (fst (streaming_loop lib cfg envs (process_block lib cfg (sig_during e) s2)),
       EvRunning true :: EvRead InputDevice true :: mpx_events cfg
         ++ EvWrite (output (process_block lib cfg (sig_during e) s2)) true
         :: snd (streaming_loop lib cfg envs
                   (process_block lib cfg (sig_during e) s2))).
Proof.
  intros Hw Hl Hr Hsb Hin Hmpx Hwr.
  destruct (input_filled_wf d s Hw Hl) as (Fw & Fl & Fr & _).
  set (s1 := set_audio_stereo_input (fill (audio_stereo_input s) d) s) in *.
  assert (Hcons : forall s2 t, read_mpx cfg e s1 = (Some s2, t) ->
            streaming_loop lib cfg (e :: envs) s
            = (fst (streaming_loop lib cfg envs
                      (process_block lib cfg (sig_during e) s2)),
               EvRunning true :: EvRead InputDevice true :: t
                 ++ EvWrite (output (process_block lib cfg (sig_during e) s2)) true
                 :: snd (streaming_loop lib cfg envs
                           (process_block lib cfg (sig_during e) s2)))).
  { intros s2 t Hm. cbn [streaming_loop]. rewrite Hsb.
    change (deliver false s) with s. rewrite Hr, Hin. cbn [negb].
    fold s1. rewrite Hm, Hwr. reflexivity. }
  unfold read_mpx, mpx_events in *.
  destruct (mpx_configured cfg) eqn:Hc.
  - specialize (Hmpx eq_refl). destruct (mpx_read e) as [m |]; [| discriminate].
    eexists. split; [| split; [| split; [| split; [| split;
      [| apply Hcons; reflexivity]]]]].
    + exact Fw.
    + destruct Fl as (F1 & F2 & F3 & F4 & F5).
      unfold wf_lengths, set_mpx_in.
      cbn [audio_stereo_input left right mpx_in output].
      rewrite length_fill. auto.
    + rewrite <- Hr, <- Fr. reflexivity.
    + reflexivity.
    + intros i _. split; reflexivity.
  - exists s1. split; [exact Fw |]. split; [exact Fl |].
    split; [rewrite Fr; exact Hr |]. split; [reflexivity |].
    split; [intros i _; split; reflexivity |].
    apply Hcons. reflexivity.
Qed.

Lemma pass_completes_true (e : IterEnv) :
  pass_completes cfg e = true ->
  sig_before e = false /\ (exists d, input_read e = Some d) /\
  (mpx_configured cfg = true -> succeeded (mpx_read e) = true) /\
  write_ok e = true /\ quiet (sig_during e) = true.
Proof.
  unfold pass_completes. rewrite !andb_true_iff, orb_true_iff, negb_true_iff.
  intros ((((H1 & H2) & H3) & H4) & H5).
  split; [exact H1 |]. split.
  - destruct (input_read e) as [d |]; [eauto | discriminate].
  - split; [| split; assumption].
    intros Hc. destruct H3 as [H3 | H3]; [| exact H3].
    rewrite Hc in H3. discriminate.
Qed.

(** A pass that does not complete leaves the loop stopped. *)
Lemma pass_fails (e : IterEnv) (envs : list IterEnv) (s : State) :
  wired s -> wf_lengths s -> pass_completes cfg e = false ->
  running (fst (streaming_loop lib cfg (e :: envs) s)) = false.
Proof.
  intros Hw Hl Hp.
  destruct (running (deliver (sig_before e) s)) eqn:Hr.
  2: { rewrite streaming_loop_stopped by exact Hr. exact Hr. }
  assert (Hsb : sig_before e = false).
  { destruct (sig_before e); [| reflexivity]. cbn in Hr. discriminate. }
  rewrite Hsb in Hr. change (deliver false s) with s in Hr.
  destruct (input_read e) as [d |] eqn:Hin.
  2: { cbn [streaming_loop]. rewrite Hsb. change (deliver false s) with s.
       rewrite Hr, Hin. reflexivity. }
  destruct (input_filled_wf d s Hw Hl) as (Fw & Fl & Fr & _).
  destruct (read_mpx cfg e (set_audio_stereo_input
                              (fill (audio_stereo_input s) d) s))
    as [[s2 |] t] eqn:Hm.
  2: { cbn [streaming_loop]. rewrite Hsb. change (deliver false s) with s.
       rewrite Hr, Hin. cbn [negb]. rewrite Hm. reflexivity. }
  assert (Hm2 : (mpx_configured cfg = true -> succeeded (mpx_read e) = true)
                /\ wired s2 /\ wf_lengths s2 /\ running s2 = true).
  { unfold read_mpx in Hm. destruct (mpx_configured cfg).
    - destruct (mpx_read e) as [m |]; [| discriminate].
      injection Hm as <- _. split; [reflexivity |].
      split; [exact Fw |]. split; [| rewrite <- Hr, <- Fr; reflexivity].
      destruct Fl as (F1 & F2 & F3 & F4 & F5).
      unfold wf_lengths, set_mpx_in.
      cbn [audio_stereo_input left right mpx_in output].
      rewrite length_fill. auto.
    - injection Hm as <- _. split; [discriminate |].
      split; [exact Fw |]. split; [exact Fl |]. rewrite Fr. exact Hr. }
  destruct Hm2 as (Hmpx & Mw & Ml & Mr).
  destruct (write_ok e) eqn:Hwr.
  2: { cbn [streaming_loop]. rewrite Hsb. change (deliver false s) with s.
       rewrite Hr, Hin. cbn [negb]. rewrite Hm, Hwr. reflexivity. }
  assert (Hq : quiet (sig_during e) = false).
  { unfold pass_completes in Hp. rewrite Hsb, Hin, Hwr in Hp. cbn in Hp.
    destruct (mpx_configured cfg); cbn in Hp.
    - rewrite (Hmpx eq_refl) in Hp. exact Hp.
    - exact Hp. }
  cbn [streaming_loop]. rewrite Hsb. change (deliver false s) with s.
  rewrite Hr, Hin. cbn [negb]. rewrite Hm, Hwr. cbn [fst].
  apply stopped_stays_stopped.
  rewrite (process_block_running lib cfg (sig_during e) s2 Mw Ml), Mr.
  unfold quiet in Hq. rewrite Hq. reflexivity.
Qed.

End Runs.

(** X3.  Started with [running] set, the loop is still running at the
    end of a script exactly when every pass of the script completes: no
    signal arrives and every device call succeeds.  It has then made
    one pass per entry of the script and written one block in each,
    with no failure. *)
Theorem loop_runs_while_nothing_stops_it
    (lib : Library) (cfg : Config) (envs : list IterEnv) (s : State) :
  wired s -> wf_lengths s -> running s = true ->
  let r := streaming_loop lib cfg envs s in
  (running (fst r) = true <-> forallb (pass_completes cfg) envs = true) /\
  (forallb (pass_completes cfg) envs = true ->
   count is_pass (snd r) = length envs /\
   count is_written (snd r) = length envs /\
   count is_failure (snd r) = 0%nat).
Proof.
  cbv zeta. revert s. induction envs as [| e envs IH]; intros s Hw Hl Hr.
  - cbn. split; [tauto | auto].
  - cbn [forallb]. destruct (pass_completes cfg e) eqn:Hp.
    + destruct (pass_completes_true cfg e Hp) as (Hsb & [d Hin] & Hmpx & Hwr & Hq).
      destruct (streaming_loop_pass_ok lib cfg e envs s d Hw Hl Hr Hsb Hin Hmpx Hwr)
        as (s2 & Sw & Sl & Sr & _ & _ & ->).
      destruct (process_block_wf lib cfg (sig_during e) s2 Sw Sl) as [Pw Pl].
      assert (Pr : running (process_block lib cfg (sig_during e) s2) = true).
      { rewrite (process_block_running lib cfg _ s2 Sw Sl), Sr.
        unfold quiet in Hq. rewrite Hq. reflexivity. }
      destruct (IH _ Pw Pl Pr) as [IH1 IH2]. cbn [fst snd andb].
      split; [exact IH1 |]. intros Hall.
      destruct (IH2 Hall) as (C1 & C2 & C3).
      cbn [count is_pass is_written is_failure].
      rewrite !count_app, !count_mpx_events.
      cbn [count is_pass is_written is_failure length].
      destruct (mpx_configured cfg); lia.
    + rewrite (pass_fails lib cfg e envs s Hw Hl Hp). cbn [andb].
      split; [split; discriminate | discriminate].
Qed.

Lemma X3_witness :
  running (fst (streaming_loop example_library default_config [pass_input_fails]
                  example_state)) = true
  <-> forallb (pass_completes default_config) [pass_input_fails] = true.
Proof.
  apply (loop_runs_while_nothing_stops_it example_library default_config
           [pass_input_fails] example_state).
  - apply example_state_wf.
  - apply example_state_wf.
  - reflexivity.
Defined.

(** ** The filters over a block (lines 173-196) *)

Section Chains.

Variable lib : Library.
Variable cfg : Config.

(** After [n] samples each channel's two filters have taken in the
    first [n] samples of the channel, one after the other. *)
Lemma block_loop_chains (sig : nat -> bool) (n : nat) (s : State) :
  wired s -> wf_lengths s -> (n <= BUFFER_SIZE)%nat ->
  let s' := block_loop lib cfg sig n s in
  (preemp_l s', lpf_l s')
    = foldl chain_next (preemp_l s, lpf_l s) (rd (left s) <$> seq 0 n) /\
  (preemp_r s', lpf_r s')
    = foldl chain_next (preemp_r s, lpf_r s) (rd (right s) <$> seq 0 n).
Proof.
  intros Hw Hl. cbv zeta. induction n as [| n IH]; intros Hn.
  - rewrite block_loop_0. split; reflexivity.
  - destruct IH as [IHl IHr]; [lia |].
    rewrite block_loop_S, seq_S, !fmap_app, !foldl_app. cbn [fmap list_fmap foldl].
    rewrite <- IHl, <- IHr.
    destruct (before_sample_wf lib cfg sig n s Hw Hl) as (Bw & Bl & Bi); [lia |].
    destruct (before_sample_frame lib cfg sig n s Hw Hl) as (_ & Fl & Fr & _);
      [lia |].
    unfold before_sample in Bw, Bl, Bi, Fl, Fr.
    pose proof (sample_step_spec lib cfg n _ Bw Bi) as E. cbv zeta in E.
    rewrite E. cbn [preemp_l lpf_l preemp_r lpf_r].
    rewrite Fl, Fr.
    destruct (deliver_frame (sig n) (block_loop lib cfg sig n s))
      as (_ & _ & _ & _ & _ & _ & _ & -> & -> & -> & ->).
    split; reflexivity.
Qed.

Lemma fmap_seq_ext (f g : nat -> f32) (n : nat) :
  (forall i, (i < n)%nat -> f i = g i) -> f <$> seq 0 n = g <$> seq 0 n.
Proof.
  induction n as [| n IH]; intros H; [reflexivity |].
  rewrite seq_S, !fmap_app, IH by (intros i Hi; apply H; lia).
  cbn. rewrite H by lia. reflexivity.
Qed.

Lemma deinterleaved_filters (s : State) :
  preemp_l (deinterleaved s) = preemp_l s /\ lpf_l (deinterleaved s) = lpf_l s /\
  preemp_r (deinterleaved s) = preemp_r s /\ lpf_r (deinterleaved s) = lpf_r s.
Proof. unfold deinterleaved, set_left_right. cbn [preemp_l lpf_l preemp_r lpf_r]. auto. Qed.

Lemma deinterleaved_left (s : State) :
  wf_lengths s ->
  rd (left (deinterleaved s)) <$> seq 0 BUFFER_SIZE = channel (audio_stereo_input s) 0 /\
  rd (right (deinterleaved s)) <$> seq 0 BUFFER_SIZE = channel (audio_stereo_input s) 1.
Proof.
  intros Hl. unfold channel. split; apply fmap_seq_ext; intros i Hi;
    destruct (deinterleaved_channels s i Hl Hi) as [E1 E2].
  - rewrite E1, Nat.add_0_r. reflexivity.
  - exact E2.
Qed.

End Chains.

(** X4.  Over one block each channel's pre-emphasis and low-pass
    filters take in exactly the [BUFFER_SIZE] samples of their own
    channel of the interleaved input, in order, starting from the
    delay lines the previous block left: the left pair sees the even
    cells, the right pair the odd cells, and neither sees the other
    channel, the oscillator or the external multiplex. *)
Theorem filters_run_over_their_channel
    (lib : Library) (cfg : Config) (sig : nat -> bool) (s : State) :
  wired s -> wf_lengths s ->
  let s' := process_block lib cfg sig s in
  (preemp_l s', lpf_l s')
    = foldl chain_next (preemp_l s, lpf_l s) (channel (audio_stereo_input s) 0) /\
  (preemp_r s', lpf_r s')
    = foldl chain_next (preemp_r s, lpf_r s) (channel (audio_stereo_input s) 1).
Proof.
  intros Hw Hl. cbv zeta. rewrite process_block_deinterleaved.
  destruct (deinterleaved_wf s Hw Hl) as [Dw Dl].
  destruct (block_loop_chains lib cfg sig BUFFER_SIZE (deinterleaved s) Dw Dl)
    as [El Er]; [lia |].
  destruct (deinterleaved_filters s) as (-> & -> & -> & ->) in El, Er.
  destruct (deinterleaved_left s Hl) as [Cl Cr].
  rewrite Cl in El. rewrite Cr in Er. split; assumption.
Qed.

Lemma X4_witness :
  (preemp_l (process_block example_library default_config no_signal example_state),
   lpf_l (process_block example_library default_config no_signal example_state))
  = foldl chain_next (preemp_l example_state, lpf_l example_state)
      (channel (audio_stereo_input example_state) 0).
Proof.
  exact (proj1 (filters_run_over_their_channel example_library default_config
                  no_signal example_state
                  (proj1 example_state_wf) (proj2 example_state_wf))).
Defined.

(** ** What a run leaves of the state it started from *)

Section Passes.

Variable lib : Library.
Variable cfg : Config.

Lemma refilled_input (d : list f32) (s : State) :
  refilled s (set_audio_stereo_input d s).
Proof. unfold refilled, set_audio_stereo_input. cbn. auto. Qed.

Lemma refilled_mpx (s s1 : State) (m : list f32) :
  refilled s s1 -> refilled s (set_mpx_in m s1).
Proof. unfold refilled, set_mpx_in. cbn. auto. Qed.

Lemma set_running_frame (b : bool) (s : State) :
  pilot (set_running b s) = pilot s /\
  left (set_running b s) = left s /\ right (set_running b s) = right s.
Proof. unfold set_running. cbn. auto. Qed.

Lemma running_deliver_true (b : bool) (s : State) :
  running (deliver b s) = true -> deliver b s = s.
Proof. destruct b; [discriminate | reflexivity]. Qed.

(** The loop pass by pass, with the state each pass starts from. *)
Lemma streaming_loop_passes (P : State -> State -> list Event -> Prop) :
  (forall s, P s s []) ->
  (forall s b, P s (deliver b s) [EvRunning false]) ->
  (forall s msg,
     P s (set_running false s)
       [EvRunning true; EvRead InputDevice false; EvStderr msg]) ->
  (forall s s1 msg, refilled s s1 ->
     P s (set_running false s1)
       [EvRunning true; EvRead InputDevice true;
        EvRead MpxDevice false; EvStderr msg]) ->
  (forall s s2 sig msg, refilled s s2 -> wired s2 -> wf_lengths s2 ->
     P s (set_running false (process_block lib cfg sig s2))
       (EvRunning true :: EvRead InputDevice true :: mpx_events cfg
          ++ [EvWrite (output (process_block lib cfg sig s2)) false;
              EvStderr msg])) ->
  (forall s s2 sig s' t, refilled s s2 -> wired s2 -> wf_lengths s2 ->
     P (process_block lib cfg sig s2) s' t ->
     P s s' (EvRunning true :: EvRead InputDevice true :: mpx_events cfg
               ++ EvWrite (output (process_block lib cfg sig s2)) true :: t)) ->
  forall envs s, wired s -> wf_lengths s ->
    P s (fst (streaming_loop lib cfg envs s)) (snd (streaming_loop lib cfg envs s)).
Proof.
  intros Hend Hstop Hin Hmpx Hwr Hok.
  induction envs as [| e envs IH]; intros s Hw Hl.
  - apply Hend.
  - cbn [streaming_loop].
    destruct (running (deliver (sig_before e) s)) eqn:Hrun; cbn [negb].
    2: { apply Hstop. }
    rewrite (running_deliver_true _ _ Hrun).
    destruct (input_read e) as [d |]; [| apply Hin].
    destruct (input_filled_wf d _ Hw Hl) as (Fw & Fl & _).
    pose proof (refilled_input (fill (audio_stereo_input s) d) s) as Rf.
    unfold read_mpx. unfold mpx_events in Hwr, Hok.
    destruct (mpx_configured cfg).
    + destruct (mpx_read e) as [m |]; [| apply Hmpx, Rf].
      set (s2 := set_mpx_in
                   (fill (mpx_in (set_audio_stereo_input
                                    (fill (audio_stereo_input s) d) s)) m)
                   (set_audio_stereo_input (fill (audio_stereo_input s) d) s)).
      assert (Mw : wired s2) by exact Fw.
      assert (Ml : wf_lengths s2).
      { destruct Fl as (F1 & F2 & F3 & F4 & F5).
        unfold wf_lengths, s2, set_mpx_in.
        cbn [audio_stereo_input left right mpx_in output].
        rewrite length_fill. auto. }
      assert (Rm : refilled s s2) by (apply refilled_mpx, Rf).
      destruct (write_ok e).
      * cbn [fst snd]. apply (Hok s s2 (sig_during e) _ _ Rm Mw Ml).
        destruct (process_block_wf lib cfg (sig_during e) s2 Mw Ml) as [Pw Pl].
        apply IH; assumption.
      * apply (Hwr s s2 (sig_during e) _ Rm Mw Ml).
    + destruct (write_ok e).
      * cbn [fst snd]. apply (Hok s _ (sig_during e) _ _ Rf Fw Fl).
        destruct (process_block_wf lib cfg (sig_during e) _ Fw Fl) as [Pw Pl].
        apply IH; assumption.
      * apply (Hwr s _ (sig_during e) _ Rf Fw Fl).
Qed.

Lemma process_block_pilot (sig : nat -> bool) (s : State) :
  wired s -> wf_lengths s ->
  pilot (process_block lib cfg sig s)
  = Nat.iter BUFFER_SIZE advance_sine_oscillator (pilot s).
Proof.
  intros Hw Hl. rewrite process_block_deinterleaved.
  destruct (deinterleaved_wf s Hw Hl) as [Dw Dl].
  destruct (block_loop_frame lib cfg sig BUFFER_SIZE (deinterleaved s) Dw Dl)
    as (_ & _ & _ & _ & ->); [lia |].
  destruct (deinterleaved_frame s) as (_ & -> & _). reflexivity.
Qed.

(** The cells of [left] and [right] beyond the block are left alone. *)
Lemma process_block_spare (sig : nat -> bool) (s : State) (i : nat) :
  wired s -> wf_lengths s -> (BUFFER_SIZE <= i)%nat ->
  left (process_block lib cfg sig s) !! i = left s !! i /\
  right (process_block lib cfg sig s) !! i = right s !! i.
Proof.
  intros Hw Hl Hi. rewrite process_block_deinterleaved.
  destruct (deinterleaved_wf s Hw Hl) as [Dw Dl].
  destruct (block_loop_frame lib cfg sig BUFFER_SIZE (deinterleaved s) Dw Dl)
    as (_ & -> & -> & _); [lia |].
  unfold deinterleaved, set_left_right. cbn [left right].
  destruct (uninterleave_loop (audio_stereo_input s) BUFFER_SIZE (left s) (right s))
    as (_ & _ & _ & _ & H).
  unfold uninterleave. rewrite half_buffer. apply H, Hi.
Qed.

Lemma iter_block (k : nat) (o : Oscillator) :
  Nat.iter (BUFFER_SIZE * k) advance_sine_oscillator
    (Nat.iter BUFFER_SIZE advance_sine_oscillator o)
  = Nat.iter (BUFFER_SIZE * (1 + k)) advance_sine_oscillator o.
Proof.
  rewrite <- Nat.iter_add. f_equal. unfold BUFFER_SIZE. lia.
Qed.

End Passes.

(** X5.  The pilot oscillator is advanced once per sample and by
    nothing else: after any run of the loop its state is the initial
    one advanced [BUFFER_SIZE] times for every call of
    [pa_simple_write].  The phase carries over from block to block, a
    signal in the middle of a block does not cut the block short, and
    a block whose write fails has still moved the phase on. *)
Theorem pilot_phase_runs_through_the_blocks
    (lib : Library) (cfg : Config) (envs : list IterEnv) (s : State) :
  wired s -> wf_lengths s ->
  let r := streaming_loop lib cfg envs s in
  pilot (fst r)
  = Nat.iter (BUFFER_SIZE * count is_write (snd r)) advance_sine_oscillator
      (pilot s).
Proof.
  cbv zeta. revert envs s.
  apply (streaming_loop_passes lib cfg
           (fun s s' t =>
              pilot s' = Nat.iter (BUFFER_SIZE * count is_write t)
                           advance_sine_oscillator (pilot s))).
  - intros s. rewrite Nat.mul_0_r. reflexivity.
  - intros s b. cbn [count is_write]. rewrite Nat.mul_0_r.
    destruct (deliver_frame b s) as (_ & _ & _ & _ & -> & _). reflexivity.
  - intros s msg. cbn [count is_write]. rewrite Nat.mul_0_r.
    destruct (set_running_frame false s) as (-> & _). reflexivity.
  - intros s s1 msg (_ & R & _). cbn [count is_write]. rewrite Nat.mul_0_r.
    destruct (set_running_frame false s1) as (-> & _). exact R.
  - intros s s2 sig msg (_ & R & _) Hw Hl.
    cbn [count is_write]. rewrite count_app, count_mpx_events.
    cbn [count is_write Nat.add].
    replace (if mpx_configured cfg then 0%nat else 0%nat) with 0%nat
      by (destruct (mpx_configured cfg); reflexivity).
    rewrite Nat.mul_1_r. cbn [Nat.add].
    destruct (set_running_frame false (process_block lib cfg sig s2))
      as (-> & _).
    rewrite process_block_pilot, R by assumption. reflexivity.
  - intros s s2 sig s' t (_ & R & _) Hw Hl IH.
    cbn [count is_write]. rewrite count_app, count_mpx_events.
    cbn [count is_write Nat.add].
    replace (if mpx_configured cfg then 0%nat else 0%nat) with 0%nat
      by (destruct (mpx_configured cfg); reflexivity).
    cbn [Nat.add].
    rewrite IH, process_block_pilot, R by assumption.
    apply iter_block.
Qed.

Lemma X5_witness :
  pilot (fst (streaming_loop example_library default_config [pass_write_fails]
                example_state))
  = Nat.iter (BUFFER_SIZE
              * count is_write
                  (snd (streaming_loop example_library default_config
                          [pass_write_fails] example_state)))
      advance_sine_oscillator (pilot example_state).
Proof.
  exact (pilot_phase_runs_through_the_blocks example_library default_config
           [pass_write_fails] example_state
           (proj1 example_state_wf) (proj2 example_state_wf)).
Defined.

(** X6.  [left] and [right] are declared with [BUFFER_SIZE+64] cells,
    and the loop writes the first [BUFFER_SIZE] of each only: the 64
    cells at the end of either array hold after any run what they held
    before it. *)
Theorem spare_cells_are_never_written
    (lib : Library) (cfg : Config) (envs : list IterEnv) (s : State) (i : nat) :
  wired s -> wf_lengths s -> (BUFFER_SIZE <= i)%nat ->
  let r := streaming_loop lib cfg envs s in
  left (fst r) !! i = left s !! i /\ right (fst r) !! i = right s !! i.
Proof.
  intros Hw Hl Hi. cbv zeta. revert envs s Hw Hl.
  apply (streaming_loop_passes lib cfg
           (fun s s' _ => left s' !! i = left s !! i
                          /\ right s' !! i = right s !! i)).
  - intros s. split; reflexivity.
  - intros s b. destruct (deliver_frame b s) as (_ & -> & -> & _).
    split; reflexivity.
  - intros s msg. destruct (set_running_frame false s) as (_ & -> & ->).
    split; reflexivity.
  - intros s s1 msg (_ & _ & Rl & Rr & _).
    destruct (set_running_frame false s1) as (_ & -> & ->).
    rewrite Rl, Rr. split; reflexivity.
  - intros s s2 sig msg (_ & _ & Rl & Rr & _) Hw Hl.
    destruct (set_running_frame false (process_block lib cfg sig s2))
      as (_ & -> & ->).
    destruct (process_block_spare lib cfg sig s2 i Hw Hl Hi) as [-> ->].
    rewrite Rl, Rr. split; reflexivity.
  - intros s s2 sig s' t (_ & _ & Rl & Rr & _) Hw Hl [-> ->].
    destruct (process_block_spare lib cfg sig s2 i Hw Hl Hi) as [-> ->].
    rewrite Rl, Rr. split; reflexivity.
Qed.

Lemma X6_witness :
  left (fst (streaming_loop example_library default_config [pass_ok]
               example_state)) !! 800%nat
  = left example_state !! 800%nat.
Proof.
  refine (proj1 (spare_cells_are_never_written example_library default_config
                   [pass_ok] example_state 800
                   (proj1 example_state_wf) (proj2 example_state_wf) _)).
  unfold BUFFER_SIZE. lia.
Defined.

(** X7.  The device calls of the loop keep in step.  Every block
    written was read in the same pass: at any point of a run the
    number of calls of [pa_simple_write] is the number of blocks read
    from the input device, or one less.  At most one device call fails
    in a run.  The MPX device is read once per block when one is
    configured, and not at all when none is. *)
Theorem device_calls_keep_in_step
    (lib : Library) (cfg : Config) (envs : list IterEnv) (s : State) :
  wired s -> wf_lengths s ->
  let t := snd (streaming_loop lib cfg envs s) in
  (count is_write t <= count is_input_block t <= count is_write t + 1)%nat /\
  (count is_failure t <= 1)%nat /\
  (count is_failure t = 0 -> count is_written t = count is_input_block t)%nat /\
  (if mpx_configured cfg
   then (count is_write t <= count is_mpx_block t <= count is_input_block t)%nat
   else count is_mpx_read t = 0%nat).
Proof.
  cbv zeta. revert envs s.
  apply (streaming_loop_cases lib cfg
           (fun _ t =>
              (count is_write t <= count is_input_block t <= count is_write t + 1)%nat /\
              (count is_failure t <= 1)%nat /\
              (count is_failure t = 0 -> count is_written t = count is_input_block t)%nat /\
              (if mpx_configured cfg
               then (count is_write t <= count is_mpx_block t
                     <= count is_input_block t)%nat
               else count is_mpx_read t = 0%nat))).
  - intros s. cbn. destruct (mpx_configured cfg); lia.
  - intros s _. cbn. destruct (mpx_configured cfg); lia.
  - intros s msg. cbn. destruct (mpx_configured cfg); lia.
  - intros s msg ->. cbn. lia.
  - intros s sig msg _ _.
    cbn [count is_write is_written is_input_block is_failure is_mpx_block
         is_mpx_read].
    rewrite !count_app, !count_mpx_events.
    cbn [count is_write is_written is_input_block is_failure is_mpx_block
         is_mpx_read].
    destruct (mpx_configured cfg); lia.
  - intros s sig s' t _ _ IH.
    cbn [count is_write is_written is_input_block is_failure is_mpx_block
         is_mpx_read].
    rewrite !count_app, !count_mpx_events.
    cbn [count is_write is_written is_input_block is_failure is_mpx_block
         is_mpx_read].
    destruct (mpx_configured cfg); lia.
Qed.

Lemma X7_witness :
  (count is_failure
     (snd (streaming_loop example_library default_config
             [pass_ok; pass_write_fails; pass_ok] example_state)) <= 1)%nat.
Proof.
  exact (proj1 (proj2 (device_calls_keep_in_step example_library default_config
                         [pass_ok; pass_write_fails; pass_ok] example_state
                         (proj1 example_state_wf) (proj2 example_state_wf)))).
Defined.

(** ** Two runs that differ in what the stack held *)

Section Agree.

Variable lib : Library.
Variable cfg : Config.

(** The filters and the oscillator that sample [i] of a block starts
    from are determined by those the block starts from and by the
    samples before [i]. *)
Lemma before_sample_agree (sig : nat -> bool) (i : nat) (s1 s2 : State) :
  wired s1 -> wf_lengths s1 -> wired s2 -> wf_lengths s2 ->
  dsp_agree s1 s2 -> audio_stereo_input s1 = audio_stereo_input s2 ->
  (i <= BUFFER_SIZE)%nat ->
  let b1 := before_sample lib cfg sig i (deinterleaved s1) in
  let b2 := before_sample lib cfg sig i (deinterleaved s2) in
  pilot b1 = pilot b2 /\
  (preemp_l b1 = preemp_l b2 /\ lpf_l b1 = lpf_l b2) /\
  (preemp_r b1 = preemp_r b2 /\ lpf_r b1 = lpf_r b2).
Proof.
  intros Hw1 Hl1 Hw2 Hl2 (_ & Ap & [Apl All] & [Apr Alr] & _) Ain Hi. cbv zeta.
  destruct (deinterleaved_wf s1 Hw1 Hl1) as [Dw1 Dl1].
  destruct (deinterleaved_wf s2 Hw2 Hl2) as [Dw2 Dl2].
  destruct (before_sample_frame lib cfg sig i _ Dw1 Dl1 Hi) as (_ & _ & _ & _ & -> & _).
  destruct (before_sample_frame lib cfg sig i _ Dw2 Dl2 Hi) as (_ & _ & _ & _ & -> & _).
  destruct (deinterleaved_frame s1) as (_ & -> & _).
  destruct (deinterleaved_frame s2) as (_ & -> & _).
  split; [rewrite Ap; reflexivity |].
  unfold before_sample.
  destruct (deliver_frame (sig i) (block_loop lib cfg sig i (deinterleaved s1)))
    as (_ & _ & _ & _ & _ & _ & _ & -> & -> & -> & ->).
  destruct (deliver_frame (sig i) (block_loop lib cfg sig i (deinterleaved s2)))
    as (_ & _ & _ & _ & _ & _ & _ & -> & -> & -> & ->).
  destruct (block_loop_chains lib cfg sig i _ Dw1 Dl1 Hi) as [L1 R1].
  destruct (block_loop_chains lib cfg sig i _ Dw2 Dl2 Hi) as [L2 R2].
  destruct (deinterleaved_filters s1) as (E1 & E2 & E3 & E4).
  destruct (deinterleaved_filters s2) as (G1 & G2 & G3 & G4).
  rewrite E1, E2 in L1. rewrite E3, E4 in R1.
  rewrite G1, G2 in L2. rewrite G3, G4 in R2.
  assert (Cl : rd (left (deinterleaved s1)) <$> seq 0 i
               = rd (left (deinterleaved s2)) <$> seq 0 i).
  { apply fmap_seq_ext. intros k Hk.
    destruct (deinterleaved_channels s1 k Hl1) as [-> _]; [lia |].
    destruct (deinterleaved_channels s2 k Hl2) as [-> _]; [lia |].
    rewrite Ain. reflexivity. }
  assert (Cr : rd (right (deinterleaved s1)) <$> seq 0 i
               = rd (right (deinterleaved s2)) <$> seq 0 i).
  { apply fmap_seq_ext. intros k Hk.
    destruct (deinterleaved_channels s1 k Hl1) as [_ ->]; [lia |].
    destruct (deinterleaved_channels s2 k Hl2) as [_ ->]; [lia |].
    rewrite Ain. reflexivity. }
  rewrite Cl, Apl, All, <- L2 in L1. rewrite Cr, Apr, Alr, <- R2 in R1.
  apply pair_equal_spec in L1. apply pair_equal_spec in R1.
  split; assumption.
Qed.

(** A block is computed from the input block, the external multiplex
    and what the loop carries along, and from nothing else. *)
Lemma process_block_agree (sig : nat -> bool) (s1 s2 : State) :
  wired s1 -> wf_lengths s1 -> wired s2 -> wf_lengths s2 ->
  dsp_agree s1 s2 -> audio_stereo_input s1 = audio_stereo_input s2 ->
  dsp_agree (process_block lib cfg sig s1) (process_block lib cfg sig s2) /\
  output (process_block lib cfg sig s1) = output (process_block lib cfg sig s2).
Proof.
  intros Hw1 Hl1 Hw2 Hl2 Ha Ain.
  pose proof Ha as (Ar & Ap & _ & _ & Am).
  split.
  - destruct (before_sample_agree sig BUFFER_SIZE s1 s2 Hw1 Hl1 Hw2 Hl2 Ha Ain)
      as (Bp & Bl & Br); [lia |].
    unfold dsp_agree.
    rewrite !process_block_running, !process_block_pilot,
      !process_block_mpx_in by assumption.
    rewrite Ar, Ap, Am.
    split; [reflexivity |]. split; [reflexivity |].
    unfold before_sample in Bl, Br.
    destruct (deliver_frame (sig BUFFER_SIZE)
                (block_loop lib cfg sig BUFFER_SIZE (deinterleaved s1)))
      as (_ & _ & _ & _ & _ & _ & _ & E1 & E2 & E3 & E4).
    destruct (deliver_frame (sig BUFFER_SIZE)
                (block_loop lib cfg sig BUFFER_SIZE (deinterleaved s2)))
      as (_ & _ & _ & _ & _ & _ & _ & G1 & G2 & G3 & G4).
    rewrite E1, E2, E3, E4, G1, G2, G3, G4 in *.
    rewrite !process_block_deinterleaved.
    split; [exact Bl |]. split; [exact Br | reflexivity].
  - destruct (process_block_wf lib cfg sig s1 Hw1 Hl1) as (_ & _ & _ & _ & _ & O1).
    destruct (process_block_wf lib cfg sig s2 Hw2 Hl2) as (_ & _ & _ & _ & _ & O2).
    apply list_eq. intros i.
    destruct (Nat.lt_ge_cases i BUFFER_SIZE) as [Hi | Hi].
    + rewrite !process_block_cell by assumption.
      unfold encoded_sample.
      destruct (before_sample_agree sig i s1 s2 Hw1 Hl1 Hw2 Hl2 Ha Ain)
        as (-> & [-> ->] & [-> ->]); [lia |].
      rewrite Ain, Am. reflexivity.
    + rewrite !lookup_ge_None_2 by lia. reflexivity.
Qed.

Lemma main_init_agree (u1 u2 : Indeterminate) :
  dsp_agree (main_init lib cfg u1) (main_init lib cfg u2).
Proof. unfold dsp_agree, main_init. cbn. auto 10. Qed.

Lemma dsp_agree_input (s1 s2 : State) (d : list f32) :
  wf_lengths s1 -> wf_lengths s2 -> dsp_agree s1 s2 ->
  length d = (BUFFER_SIZE * 2)%nat ->
  let t1 := set_audio_stereo_input (fill (audio_stereo_input s1) d) s1 in
  let t2 := set_audio_stereo_input (fill (audio_stereo_input s2) d) s2 in
  dsp_agree t1 t2 /\ audio_stereo_input t1 = audio_stereo_input t2.
Proof.
  intros (L1 & _) (L2 & _) Ha Hd. cbv zeta. split; [exact Ha |].
  unfold set_audio_stereo_input. cbn [audio_stereo_input].
  rewrite !fill_exact by congruence. reflexivity.
Qed.

Lemma dsp_agree_mpx (s1 s2 : State) (m : list f32) :
  dsp_agree s1 s2 ->
  dsp_agree (set_mpx_in (fill (mpx_in s1) m) s1)
            (set_mpx_in (fill (mpx_in s2) m) s2).
Proof.
  intros (Ar & Ap & Al & Arr & Am). unfold dsp_agree, set_mpx_in.
  cbn [running pilot preemp_l lpf_l preemp_r lpf_r mpx_in]. rewrite Am. auto.
Qed.

Lemma set_mpx_in_wf (s : State) (m : list f32) :
  wired s -> wf_lengths s ->
  wired (set_mpx_in (fill (mpx_in s) m) s)
  /\ wf_lengths (set_mpx_in (fill (mpx_in s) m) s)
  /\ audio_stereo_input (set_mpx_in (fill (mpx_in s) m) s) = audio_stereo_input s.
Proof.
  intros Hw (F1 & F2 & F3 & F4 & F5). split; [exact Hw |]. split; [| reflexivity].
  unfold wf_lengths, set_mpx_in. cbn [audio_stereo_input left right mpx_in output].
  rewrite length_fill. auto.
Qed.

(** The events of a run depend on the state it starts from through
    what the loop carries along only. *)
Lemma streaming_loop_agree (envs : list IterEnv) (s1 s2 : State) :
  Forall reads_whole_blocks envs ->
  wired s1 -> wf_lengths s1 -> wired s2 -> wf_lengths s2 -> dsp_agree s1 s2 ->
  snd (streaming_loop lib cfg envs s1) = snd (streaming_loop lib cfg envs s2).
Proof.
  intros Hall. revert s1 s2.
  induction Hall as [| e envs He Hall IH]; intros s1 s2 Hw1 Hl1 Hw2 Hl2 Ha;
    [reflexivity |].
  destruct (running (deliver (sig_before e) s1)) eqn:Hr1.
  2: { assert (Hr2 : running (deliver (sig_before e) s2) = false).
       { rewrite deliver_set_running, running_set_running in Hr1 |- *.
         destruct Ha as (<- & _). exact Hr1. }
       rewrite !streaming_loop_stopped by assumption. reflexivity. }
  assert (Hr2 : running (deliver (sig_before e) s2) = true).
  { rewrite deliver_set_running, running_set_running in Hr1 |- *.
    destruct Ha as (<- & _). exact Hr1. }
  cbn [streaming_loop]. rewrite Hr1, Hr2. cbn [negb].
  rewrite (running_deliver_true _ _ Hr1), (running_deliver_true _ _ Hr2).
  destruct (input_read e) as [d |] eqn:Hin; [| reflexivity].
  specialize (He d Hin).
  destruct (input_filled_wf d s1 Hw1 Hl1) as (Fw1 & Fl1 & _).
  destruct (input_filled_wf d s2 Hw2 Hl2) as (Fw2 & Fl2 & _).
  destruct (dsp_agree_input s1 s2 d Hl1 Hl2 Ha He) as [Fa Fin].
  set (t1 := set_audio_stereo_input (fill (audio_stereo_input s1) d) s1) in *.
  set (t2 := set_audio_stereo_input (fill (audio_stereo_input s2) d) s2) in *.
  unfold read_mpx. destruct (mpx_configured cfg).
  - destruct (mpx_read e) as [m |]; [| reflexivity].
    destruct (set_mpx_in_wf t1 m Fw1 Fl1) as (Mw1 & Ml1 & Mi1).
    destruct (set_mpx_in_wf t2 m Fw2 Fl2) as (Mw2 & Ml2 & Mi2).
    pose proof (dsp_agree_mpx t1 t2 m Fa) as Ma.
    set (r1 := set_mpx_in (fill (mpx_in t1) m) t1) in *.
    set (r2 := set_mpx_in (fill (mpx_in t2) m) t2) in *.
    assert (Min : audio_stereo_input r1 = audio_stereo_input r2) by congruence.
    destruct (process_block_agree (sig_during e) r1 r2 Mw1 Ml1 Mw2 Ml2 Ma Min)
      as [Pa Po].
    destruct (process_block_wf lib cfg (sig_during e) r1 Mw1 Ml1) as [Pw1 Pl1].
    destruct (process_block_wf lib cfg (sig_during e) r2 Mw2 Ml2) as [Pw2 Pl2].
    cbv beta iota zeta. rewrite Po.
    destruct (write_ok e); cbn [fst snd]; [| reflexivity].
    rewrite (IH _ _ Pw1 Pl1 Pw2 Pl2 Pa). reflexivity.
  - destruct (process_block_agree (sig_during e) t1 t2 Fw1 Fl1 Fw2 Fl2 Fa Fin)
      as [Pa Po].
    destruct (process_block_wf lib cfg (sig_during e) t1 Fw1 Fl1) as [Pw1 Pl1].
    destruct (process_block_wf lib cfg (sig_during e) t2 Fw2 Fl2) as [Pw2 Pl2].
    cbv beta iota zeta. rewrite Po.
    destruct (write_ok e); cbn [fst snd]; [| reflexivity].
    rewrite (IH _ _ Pw1 Pl1 Pw2 Pl2 Pa). reflexivity.
Qed.

End Agree.

(** X8.  The program declares [audio_stereo_input], [left], [right],
    [output] and the seven floats the DSP objects are bound to without
    initialising them.  Provided the input device delivers whole
    blocks, none of these is read before it is written: the exit
    status and every block written are the same whatever the stack
    held when [main] was entered. *)
Theorem uninitialised_memory_is_never_read
    (lib : Library) (cfg : Config) (st : Startup) (u : Indeterminate)
    (envs : list IterEnv) :
  Forall reads_whole_blocks envs ->
  main lib cfg (mkStartup (output_opens st) (input_opens st) (mpx_opens st) u) envs
  = main lib cfg st envs.
Proof.
  intros Hall. unfold main. cbn [output_opens input_opens mpx_opens stack].
  destruct (output_opens st); [| reflexivity].
  destruct (input_opens st); [| reflexivity]. cbn [negb].
  destruct (mpx_configured cfg && negb (mpx_opens st)); [reflexivity |].
  destruct (main_init_wf lib cfg u) as [Hw1 Hl1].
  destruct (main_init_wf lib cfg (stack st)) as [Hw2 Hl2].
  rewrite (streaming_loop_agree lib cfg envs _ _ Hall Hw1 Hl1 Hw2 Hl2
             (main_init_agree lib cfg u (stack st))).
  reflexivity.
Qed.

Lemma pass_ok_whole : Forall reads_whole_blocks [pass_ok].
Proof.
  constructor; [| constructor]. intros d H. injection H as <-.
  vm_compute. reflexivity.
Qed.

Lemma X8_witness :
  main example_library default_config
    (mkStartup (output_opens example_startup) (input_opens example_startup)
       (mpx_opens example_startup) zero_stack) [pass_ok]
  = main example_library default_config example_startup [pass_ok].
Proof.
  exact (uninitialised_memory_is_never_read example_library default_config
           example_startup zero_stack [pass_ok] pass_ok_whole).
Defined.

(** ** A programme with two equal channels *)

Section Mono.

Variable lib : Library.
Variable cfg : Config.

Lemma same_filter_next (f g : BiquadFilter) (x : f32) :
  same_filter f g ->
  biquad_output f x = biquad_output g x /\
  same_filter (biquad_next f x) (biquad_next g x).
Proof.
  intros (Hc & H1 & H2 & H3 & H4).
  assert (Ho : biquad_output f x = biquad_output g x).
  { unfold biquad_output. rewrite Hc, H1, H2, H3, H4. reflexivity. }
  split; [exact Ho |].
  unfold same_filter, biquad_next, biquad_shift. cbn [coeffs x1 x2 y1 y2].
  rewrite Ho. auto.
Qed.

Lemma chains_alike (xs : list f32) (p1 l1 p2 l2 : BiquadFilter) :
  same_filter p1 p2 -> same_filter l1 l2 ->
  same_filter (fst (foldl chain_next (p1, l1) xs))
              (fst (foldl chain_next (p2, l2) xs)) /\
  same_filter (snd (foldl chain_next (p1, l1) xs))
              (snd (foldl chain_next (p2, l2) xs)).
Proof.
  revert p1 l1 p2 l2. induction xs as [| x xs IH]; intros p1 l1 p2 l2 Hp Hl.
  - split; assumption.
  - cbn [foldl]. unfold chain_next at 2 4 6 8. cbn [fst snd].
    destruct (same_filter_next p1 p2 x Hp) as [Ho Hp'].
    rewrite Ho.
    destruct (same_filter_next l1 l2 (biquad_output p2 x) Hl) as [_ Hl'].
    apply IH; assumption.
Qed.

Lemma stereo_encode_diag (flag : Z) (x p c : f32) :
  is_finite x = true -> stereo_encode flag x x p c = mono_of x x.
Proof.
  intros Hf. rewrite stereo_encode_unfold. unfold half_difference.
  rewrite truthy_is_zero, (fdiv_zero_2 _ (fsub_diag x Hf)). reflexivity.
Qed.

Lemma mono_channels (input : list f32) (n : nat) (l r : list f32) :
  (n <= BUFFER_SIZE)%nat ->
  (forall i, (i < BUFFER_SIZE)%nat ->
     rd l i = rd input (2 * i) /\ rd r i = rd input (2 * i + 1)) ->
  (forall i, (i < BUFFER_SIZE)%nat -> rd input (2 * i) = rd input (2 * i + 1)) ->
  rd l <$> seq 0 n = rd r <$> seq 0 n.
Proof.
  intros Hn Hlr Hm. apply fmap_seq_ext. intros i Hi.
  destruct (Hlr i) as [-> ->]; [lia |]. apply Hm. lia.
Qed.

(** With the two channels in the same condition and the same signal
    on both, sample [i] finds the two chains in the same condition. *)
Lemma before_sample_alike (sig : nat -> bool) (i : nat) (s : State) :
  wired s -> wf_lengths s -> channels_alike s ->
  (forall k, (k < BUFFER_SIZE)%nat ->
     rd (audio_stereo_input s) (2 * k) = rd (audio_stereo_input s) (2 * k + 1)) ->
  (i <= BUFFER_SIZE)%nat ->
  channels_alike (before_sample lib cfg sig i (deinterleaved s)).
Proof.
  intros Hw Hl [Cp Cl] Hm Hi.
  destruct (deinterleaved_wf s Hw Hl) as [Dw Dl].
  unfold channels_alike, before_sample.
  destruct (deliver_frame (sig i) (block_loop lib cfg sig i (deinterleaved s)))
    as (_ & _ & _ & _ & _ & _ & _ & -> & -> & -> & ->).
  destruct (block_loop_chains lib cfg sig i _ Dw Dl Hi) as [L R].
  destruct (deinterleaved_filters s) as (E1 & E2 & E3 & E4).
  rewrite E1, E2 in L. rewrite E3, E4 in R.
  rewrite (mono_channels (audio_stereo_input s) i
             (left (deinterleaved s)) (right (deinterleaved s)) Hi
             (fun k Hk => deinterleaved_channels s k Hl Hk) Hm) in L.
  pose proof (f_equal fst L) as L1. pose proof (f_equal snd L) as L2.
  pose proof (f_equal fst R) as R1. pose proof (f_equal snd R) as R2.
  cbn [fst snd] in L1, L2, R1, R2. rewrite L1, L2, R1, R2.
  apply chains_alike; assumption.
Qed.

End Mono.

(** X9.  A programme without a stereo difference goes out without the
    pilot.  The two channels start in the same condition; while both
    carry the same signal they stay so, block after block; and then
    the two filter chains give the same sample [l], and the encoder
    writes [(l + l) / 2] for it when [l] is finite: no pilot and no
    subcarrier, whatever [--stereo] says. *)
Theorem mono_programme_goes_out_without_pilot
    (lib : Library) (cfg : Config) (sig : nat -> bool) (s : State) :
  wired s -> wf_lengths s -> channels_alike s ->
  (forall k, (k < BUFFER_SIZE)%nat ->
     rd (audio_stereo_input s) (2 * k) = rd (audio_stereo_input s) (2 * k + 1)) ->
  (forall u, channels_alike (main_init lib cfg u)) /\
  channels_alike (process_block lib cfg sig s) /\
  forall i, (i < BUFFER_SIZE)%nat ->
    let b := before_sample lib cfg sig i (deinterleaved s) in
    let l := chain_output (preemp_l b) (lpf_l b) (rd (audio_stereo_input s) (2 * i)) in
    chain_output (preemp_r b) (lpf_r b) (rd (audio_stereo_input s) (2 * i + 1)) = l /\
    (is_finite l = true ->
     output (process_block lib cfg sig s) !! i
     = Some (mono_of l l + rd (mpx_in s) i)%f32).
Proof.
  intros Hw Hl Ha Hm. split; [| split].
  - intros u. unfold channels_alike, same_filter, main_init. cbn. auto 10.
  - pose proof (before_sample_alike lib cfg sig BUFFER_SIZE s Hw Hl Ha Hm
                  (Nat.le_refl _)) as Hb.
    unfold before_sample in Hb. unfold channels_alike in Hb |- *.
    destruct (deliver_frame (sig BUFFER_SIZE)
                (block_loop lib cfg sig BUFFER_SIZE (deinterleaved s)))
      as (_ & _ & _ & _ & _ & _ & _ & E1 & E2 & E3 & E4).
    rewrite E1, E2, E3, E4 in Hb.
    rewrite process_block_deinterleaved. exact Hb.
  - intros i Hi. cbv zeta.
    destruct (before_sample_alike lib cfg sig i s Hw Hl Ha Hm) as [Bp Bl];
      [lia |].
    assert (Hlr : chain_output
                    (preemp_r (before_sample lib cfg sig i (deinterleaved s)))
                    (lpf_r (before_sample lib cfg sig i (deinterleaved s)))
                    (rd (audio_stereo_input s) (2 * i + 1))
                  = chain_output
                      (preemp_l (before_sample lib cfg sig i (deinterleaved s)))
                      (lpf_l (before_sample lib cfg sig i (deinterleaved s)))
                      (rd (audio_stereo_input s) (2 * i))).
    { unfold chain_output. rewrite <- (Hm i Hi).
      destruct (same_filter_next _ _ (rd (audio_stereo_input s) (2 * i)) Bp)
        as [<- _].
      destruct (same_filter_next _ _
                  (biquad_output
                     (preemp_l (before_sample lib cfg sig i (deinterleaved s)))
                     (rd (audio_stereo_input s) (2 * i))) Bl) as [<- _].
      reflexivity. }
    split; [exact Hlr |]. intros Hf.
    rewrite (process_block_cell lib cfg sig i s Hw Hl Hi).
    unfold encoded_sample. rewrite Hlr.
    rewrite (stereo_encode_diag _ _ _ _ Hf). reflexivity.
Qed.

Lemma example_state_alike : channels_alike example_state.
Proof. unfold channels_alike, same_filter. cbn. auto 10. Qed.

Lemma example_state_mono (k : nat) :
  (k < BUFFER_SIZE)%nat ->
  rd (audio_stereo_input example_state) (2 * k)
  = rd (audio_stereo_input example_state) (2 * k + 1).
Proof.
  intros Hk. unfold example_state, main_init. cbn [audio_stereo_input].
  unfold rd. rewrite !list_lookup_fmap.
  rewrite !lookup_seq_lt by (unfold BUFFER_SIZE in *; lia). reflexivity.
Qed.

Lemma X9_witness :
  channels_alike
    (process_block example_library default_config no_signal example_state).
Proof.
  exact (proj1 (proj2 (mono_programme_goes_out_without_pilot example_library
                         default_config no_signal example_state
                         (proj1 example_state_wf) (proj2 example_state_wf)
                         example_state_alike example_state_mono))).
Defined.

(** ** [main] as a whole: devices and exit status *)

Section Devices.

Variable lib : Library.
Variable cfg : Config.

Lemma loop_opens_nothing (envs : list IterEnv) (s : State) (d : Device) (ok : bool) :
  wired s -> wf_lengths s ->
  ~ In (EvOpen d ok) (snd (streaming_loop lib cfg envs s)).
Proof.
  intros Hw Hl Hin. apply in_split in Hin as (t1 & t2 & E).
  destruct (streaming_loop_events lib cfg envs s Hw Hl) as [_ H].
  exact (H _ _ _ E).
Qed.

Lemma failure_is_device_use (ev : Event) :
  is_failure ev = true -> is_device_use ev = true.
Proof. destruct ev as [| | ? [|] | ? [|] |]; (discriminate || reflexivity). Qed.

Lemma count_zero_not_in (p : Event -> bool) (t : list Event) (ev : Event) :
  count p t = 0%nat -> In ev t -> p ev = false.
Proof.
  induction t as [| x t IH]; [intros _ [] |].
  intros Hc [-> | Hin]; cbn in Hc.
  - destruct (p ev); [discriminate | reflexivity].
  - apply IH; [| exact Hin]. destruct (p x); [discriminate | exact Hc].
Qed.

End Devices.

(** X10.  The exit status tells whether the devices could be opened,
    and nothing else.  [main] returns 1 exactly when a call of
    [pa_simple_new] failed, and it has then not read or written any
    device; otherwise it returns 0, also when the loop was left
    because a read or a write failed. *)
Theorem exit_status_reports_opening_only
    (lib : Library) (cfg : Config) (st : Startup) (envs : list IterEnv) :
  let r := main lib cfg st envs in
  (fst r = 0 \/ fst r = 1) /\
  (fst r = 1 <-> exists d, In (EvOpen d false) (snd r)) /\
  (fst r = 1 -> count is_device_use (snd r) = 0%nat) /\
  (forall ev, In ev (snd r) -> is_failure ev = true -> fst r = 0).
Proof.
  cbv zeta.
  assert (H : (fst (main lib cfg st envs) = 0 \/ fst (main lib cfg st envs) = 1) /\
              (fst (main lib cfg st envs) = 1
               <-> exists d, In (EvOpen d false) (snd (main lib cfg st envs))) /\
              (fst (main lib cfg st envs) = 1
               -> count is_device_use (snd (main lib cfg st envs)) = 0%nat)).
  { unfold main.
    destruct (output_opens st); cbn [negb].
    2: { cbn. split; [auto |]. split; [| reflexivity].
         split; [eauto | reflexivity]. }
    destruct (input_opens st); cbn [negb].
    2: { cbn. split; [auto |]. split; [| reflexivity].
         split; [eauto | reflexivity]. }
    destruct (mpx_configured cfg) eqn:Hc; cbn [andb].
    - destruct (mpx_opens st); cbn [negb].
      2: { cbn. split; [auto |]. split; [| reflexivity].
           split; [eauto 6 | reflexivity]. }
      cbn [fst snd app]. split; [auto |]. split; [| discriminate].
      split; [discriminate |]. intros (d & [Hd | [Hd | [Hd | Hd]]]);
        try discriminate.
      destruct (main_init_wf lib cfg (stack st)) as [Hw Hl].
      destruct (loop_opens_nothing lib cfg envs _ d false Hw Hl Hd).
    - cbn [fst snd app]. split; [auto |]. split; [| discriminate].
      split; [discriminate |]. intros (d & [Hd | [Hd | Hd]]);
        try discriminate.
      destruct (main_init_wf lib cfg (stack st)) as [Hw Hl].
      destruct (loop_opens_nothing lib cfg envs _ d false Hw Hl Hd). }
  destruct H as (H1 & H2 & H3).
  split; [exact H1 |]. split; [exact H2 |]. split; [exact H3 |].
  intros ev Hin Hf. destruct H1 as [H1 | H1]; [exact H1 |].
  apply failure_is_device_use in Hf.
  rewrite (count_zero_not_in _ _ _ (H3 H1) Hin) in Hf. discriminate.
Qed.

(** X11.  No device is used before it has been opened.  In the events
    of [main] every read of a device comes after the successful
    [pa_simple_new] of that device, every write after that of the
    output device; in particular the MPX device is read only if it was
    configured and opened.  Each device is opened at most once, and
    only after the ones before it were opened with success. *)
Theorem devices_are_opened_before_use
    (lib : Library) (cfg : Config) (st : Startup) (envs : list IterEnv)
    (t1 : list Event) (ev : Event) (t2 : list Event) :
  snd (main lib cfg st envs) = t1 ++ ev :: t2 ->
  match ev with
  | EvRead d _ => In (EvOpen d true) t1
  | EvWrite _ _ => In (EvOpen OutputDevice true) t1
  | EvOpen d _ =>
      (forall ok, ~ In (EvOpen d ok) t1) /\
      (forall d' ok, In (EvOpen d' ok) t1 -> ok = true)
  | _ => True
  end.
Proof.
  intros H.
  assert (Hloop : forall pre t1',
            In (EvOpen OutputDevice true) pre ->
            In (EvOpen InputDevice true) pre ->
            (mpx_configured cfg = true -> In (EvOpen MpxDevice true) pre) ->
            snd (streaming_loop lib cfg envs (main_init lib cfg (stack st)))
            = t1' ++ ev :: t2 ->
            match ev with
            | EvRead d _ => In (EvOpen d true) (pre ++ t1')
            | EvWrite _ _ => In (EvOpen OutputDevice true) (pre ++ t1')
            | EvOpen d _ =>
                (forall ok, ~ In (EvOpen d ok) (pre ++ t1')) /\
                (forall d' ok, In (EvOpen d' ok) (pre ++ t1') -> ok = true)
            | _ => True
            end).
  { intros pre t1' Ho Hi Hm E.
    destruct (main_init_wf lib cfg (stack st)) as [Hw Hl].
    destruct (streaming_loop_events lib cfg envs _ Hw Hl) as [_ Hev].
    specialize (Hev _ _ _ E).
    destruct ev as [d ok | b | d ok | blk ok | msg]; try exact I.
    - destruct Hev.
    - destruct d.
      + apply in_or_app. left. exact Hi.
      + apply in_or_app. left. apply Hm.
        destruct ok; cbn in Hev; tauto.
      + destruct ok; destruct Hev.
    - apply in_or_app. left. exact Ho. }
  unfold main in H.
  destruct (output_opens st); cbn [negb] in H.
  2: { cbn [snd] in H.
       repeat first
         [ apply nil_split in H; destruct H
         | apply cons_split in H;
           destruct H as [(-> & -> & ->) | (? & -> & H)] ];
         try exact I.
       split; [intros ok [] | intros d' ok []]. }
  destruct (input_opens st); cbn [negb] in H.
  2: { cbn [snd] in H.
       repeat first
         [ apply nil_split in H; destruct H
         | apply cons_split in H;
           destruct H as [(-> & -> & ->) | (? & -> & H)] ];
         try exact I.
       - split; [intros ok [] | intros d' ok []].
       - split.
         + intros ok [Hx | []]. discriminate.
         + intros d' ok [Hx | []]. injection Hx as _ <-. reflexivity. }
  destruct (mpx_configured cfg) eqn:Hc; cbn [andb] in H.
  - destruct (mpx_opens st); cbn [negb] in H.
    2: { cbn [snd] in H.
         repeat first
           [ apply nil_split in H; destruct H
           | apply cons_split in H;
             destruct H as [(-> & -> & ->) | (? & -> & H)] ];
           try exact I.
         - split; [intros ok [] | intros d' ok []].
         - split.
           + intros ok [Hx | []]. discriminate.
           + intros d' ok [Hx | []]. injection Hx as _ <-. reflexivity.
         - split.
           + intros ok [Hx | [Hx | []]]; discriminate.
           + intros d' ok [Hx | [Hx | []]]; injection Hx as _ <-; reflexivity. }
    cbn [snd app] in H.
    apply cons_split in H. destruct H as [(-> & -> & ->) | (t1a & -> & H)].
    { split; [intros ok [] | intros d' ok []]. }
    apply cons_split in H. destruct H as [(-> & -> & ->) | (t1b & -> & H)].
    { split.
      + intros ok [Hx | []]. discriminate.
      + intros d' ok [Hx | []]. injection Hx as _ <-. reflexivity. }
    apply cons_split in H. destruct H as [(-> & -> & ->) | (t1c & -> & H)].
    { split.
      + intros ok [Hx | [Hx | []]]; discriminate.
      + intros d' ok [Hx | [Hx | []]]; injection Hx as _ <-; reflexivity. }
    apply (Hloop [EvOpen OutputDevice true; EvOpen InputDevice true;
                  EvOpen MpxDevice true] t1c); cbn; auto.
  - cbn [snd app] in H.
    apply cons_split in H. destruct H as [(-> & -> & ->) | (t1a & -> & H)].
    { split; [intros ok [] | intros d' ok []]. }
    apply cons_split in H. destruct H as [(-> & -> & ->) | (t1b & -> & H)].
    { split.
      + intros ok [Hx | []]. discriminate.
      + intros d' ok [Hx | []]. injection Hx as _ <-. reflexivity. }
    apply (Hloop [EvOpen OutputDevice true; EvOpen InputDevice true] t1b);
      cbn; auto. discriminate.
Qed.

Lemma X11_witness :
  In (EvOpen InputDevice true)
     [EvOpen OutputDevice true; EvOpen InputDevice true; EvRunning true].
Proof.
  exact (devices_are_opened_before_use example_library default_config
           example_startup [pass_input_fails]
           [EvOpen OutputDevice true; EvOpen InputDevice true; EvRunning true]
           (EvRead InputDevice false)
           [EvStderr "Error reading from input device"] eq_refl).
Defined.

(** X12.  On every way out of [main] the devices handed to
    [pa_simple_free] are devices that were opened, each at most once,
    and the input and the output device are among them whenever they
    were opened.  The MPX device is never among them: once opened it
    is not released. *)
Theorem opened_devices_are_freed_except_mpx
    (lib : Library) (cfg : Config) (st : Startup) (envs : list IterEnv) :
  let t := snd (main lib cfg st envs) in
  let freed := main_frees cfg st in
  List.NoDup freed /\
  (forall d, In d freed -> In (EvOpen d true) t) /\
  (forall d, In (EvOpen d true) t -> d <> MpxDevice -> In d freed) /\
  ~ In MpxDevice freed.
Proof.
  cbv zeta. unfold main, main_frees.
  assert (Hnd1 : List.NoDup [OutputDevice]).
  { constructor; [intros [] | constructor]. }
  assert (Hnd2 : List.NoDup [InputDevice; OutputDevice]).
  { constructor; [intros [Hx | []]; discriminate | exact Hnd1]. }
  destruct (output_opens st); cbn [negb].
  2: { cbn [snd]. split; [constructor |]. split; [intros d [] |].
       split; [| intros []].
       intros d [Hx | [Hx | []]]; discriminate. }
  destruct (input_opens st); cbn [negb].
  2: { cbn [snd]. split; [exact Hnd1 |]. split.
       - intros d [<- | []]. left. reflexivity.
       - split.
         + intros d [Hx | [Hx | [Hx | []]]] Hd; try discriminate.
           injection Hx as <-. left. reflexivity.
         + intros [Hx | []]. discriminate. }
  assert (Hfreed : forall t, forall d, In d [InputDevice; OutputDevice] ->
            In (EvOpen d true)
               (EvOpen OutputDevice true :: EvOpen InputDevice true :: t)).
  { intros t d [<- | [<- | []]]; cbn; auto. }
  assert (Hno : ~ In MpxDevice [InputDevice; OutputDevice]).
  { intros [Hx | [Hx | []]]; discriminate. }
  assert (Hall : forall d, d <> MpxDevice -> In d [InputDevice; OutputDevice]).
  { intros [| |] Hd; cbn; auto; destruct Hd; reflexivity. }
  destruct (mpx_configured cfg && negb (mpx_opens st)); cbn [snd].
  - split; [exact Hnd2 |]. split; [apply Hfreed |].
    split; [| exact Hno]. intros d _ Hd. apply Hall, Hd.
  - split; [exact Hnd2 |]. split; [apply Hfreed |].
    split; [| exact Hno]. intros d _ Hd. apply Hall, Hd.
Qed.

(** ** The command line *)

Section CommandLine.

Variable atoi : string -> Z.

(** Only [-h] leaves the [switch] by [return]. *)
Lemma option_case_none (o : Options) (opt : ascii) (optarg : string) :
  option_case atoi o opt optarg = None <-> opt = "h"%char.
Proof.
  unfold option_case.
  destruct (Ascii.eqb_spec opt "s"); [subst; cbn; split; discriminate |].
  destruct (Ascii.eqb_spec opt "S"); [subst; cbn; split; discriminate |].
  destruct (Ascii.eqb_spec opt "i"); [subst; cbn; split; discriminate |].
  destruct (Ascii.eqb_spec opt "o"); [subst; cbn; split; discriminate |].
  destruct (Ascii.eqb_spec opt "m"); [subst; cbn; split; discriminate |].
  destruct (Ascii.eqb_spec opt "h"); [tauto |].
  split; [discriminate | contradiction].
Qed.

Lemma parse_options_none (args : list (ascii * string)) (o : Options) :
  parse_options atoi args o = None <-> exists a, In ("h"%char, a) args.
Proof.
  revert o. induction args as [| [opt optarg] args IH]; intros o.
  - cbn. split; [discriminate | intros (a & [])].
  - cbn [parse_options].
    destruct (option_case atoi o opt optarg) as [o' |] eqn:Ho.
    + rewrite IH. split.
      * intros (a & Ha). exists a. right. exact Ha.
      * intros (a & [Ha | Ha]); [| eauto].
        injection Ha as -> ->.
        assert (Hn : option_case atoi o "h" a = None)
          by (apply option_case_none; reflexivity).
        congruence.
    + apply option_case_none in Ho. subst opt.
      split; [| reflexivity]. intros _. exists optarg. left. reflexivity.
Qed.

(** What one option does to each of the five settings. *)
Lemma option_case_some (o o' : Options) (opt : ascii) (optarg : string) :
  option_case atoi o opt optarg = Some o' ->
  opt_stereo o' = (if Ascii.eqb opt "s" then atoi optarg else opt_stereo o) /\
  opt_sample_rate o'
    = (if Ascii.eqb opt "S" then atoi optarg else opt_sample_rate o) /\
  opt_input o' = (if Ascii.eqb opt "i" then optarg else opt_input o) /\
  opt_output o' = (if Ascii.eqb opt "o" then optarg else opt_output o) /\
  opt_mpx o' = (if Ascii.eqb opt "m" then optarg else opt_mpx o).
Proof.
  unfold option_case.
  destruct (Ascii.eqb_spec opt "s");
    [subst; intros H; injection H as <-; cbn; auto |].
  destruct (Ascii.eqb_spec opt "S");
    [subst; intros H; injection H as <-; cbn; auto |].
  destruct (Ascii.eqb_spec opt "i");
    [subst; intros H; injection H as <-; cbn; auto |].
  destruct (Ascii.eqb_spec opt "o");
    [subst; intros H; injection H as <-; cbn; auto |].
  destruct (Ascii.eqb_spec opt "m");
    [subst; intros H; injection H as <-; cbn; auto |].
  destruct (Ascii.eqb_spec opt "h"); [discriminate |].
  intros H; injection H as <-. auto.
Qed.

Lemma parse_options_some (args : list (ascii * string)) (o o' : Options) :
  parse_options atoi args o = Some o' ->
  opt_stereo o' = from_option atoi (opt_stereo o) (last_arg "s" args) /\
  opt_sample_rate o' = from_option atoi (opt_sample_rate o) (last_arg "S" args) /\
  opt_input o' = default (opt_input o) (last_arg "i" args) /\
  opt_output o' = default (opt_output o) (last_arg "o" args) /\
  opt_mpx o' = default (opt_mpx o) (last_arg "m" args).
Proof.
  revert o. induction args as [| [opt optarg] args IH]; intros o H.
  - injection H as <-. cbn. auto.
  - cbn [parse_options] in H.
    destruct (option_case atoi o opt optarg) as [o1 |] eqn:Ho; [| discriminate].
    destruct (IH o1 H) as (I1 & I2 & I3 & I4 & I5).
    destruct (option_case_some o o1 opt optarg Ho) as (C1 & C2 & C3 & C4 & C5).
    cbn [last_arg].
    rewrite I1, I2, I3, I4, I5, C1, C2, C3, C4, C5.
    destruct (last_arg "s" args), (last_arg "S" args), (last_arg "i" args),
      (last_arg "o" args), (last_arg "m" args);
      cbn [from_option default];
      destruct (Ascii.eqb opt "s"), (Ascii.eqb opt "S"), (Ascii.eqb opt "i"),
        (Ascii.eqb opt "o"), (Ascii.eqb opt "m"); cbn; auto.
Qed.

End CommandLine.

(** X13.  [--help] ends the program before any device is opened, with
    status 0, wherever it stands on the command line and whatever
    stands before it; no other option ends it. *)
Theorem help_opens_no_device
    (atoi : string -> Z) (lib : Library) (args : list (ascii * string))
    (st : Startup) (envs : list IterEnv) :
  ((exists a, In ("h"%char, a) args) -> fm96 atoi lib args st envs = (0, [])) /\
  ((forall a, ~ In ("h"%char, a) args) ->
   exists o, parse_options atoi args default_options = Some o /\
             fm96 atoi lib args st envs = main lib (config_of o) st envs).
Proof.
  unfold fm96. split.
  - intros H. apply (parse_options_none atoi args default_options) in H.
    rewrite H. reflexivity.
  - intros H.
    destruct (parse_options atoi args default_options) as [o |] eqn:Ho.
    + exists o. split; reflexivity.
    + apply parse_options_none in Ho. destruct Ho as (a & Ha).
      destruct (H a Ha).
Qed.

(** X14.  Of an option given several times the last one counts, and
    an option not given keeps its default: stereo 1, sample rate
    192000, input and output device "default", no MPX device.  What
    [getopt_long] does not recognise changes nothing. *)
Theorem last_option_wins
    (atoi : string -> Z) (args : list (ascii * string)) (o : Options) :
  parse_options atoi args default_options = Some o ->
  opt_stereo o = from_option atoi 1 (last_arg "s" args) /\
  opt_sample_rate o = from_option atoi 192000 (last_arg "S" args) /\
  opt_input o = default "default"%string (last_arg "i" args) /\
  opt_output o = default "default"%string (last_arg "o" args) /\
  opt_mpx o = default EmptyString (last_arg "m" args) /\
  (mpx_configured (config_of o) = true <->
   exists a, last_arg "m" args = Some a /\ a <> EmptyString).
Proof.
  intros H.
  destruct (parse_options_some atoi args default_options o H)
    as (H1 & H2 & H3 & H4 & H5).
  split; [exact H1 |]. split; [exact H2 |]. split; [exact H3 |].
  split; [exact H4 |]. split; [exact H5 |].
  unfold mpx_configured, config_of. cbn [audio_mpx_device]. rewrite H5.
  destruct (last_arg "m" args) as [a |]; cbn [default opt_mpx default_options].
  - destruct a as [| c a]; cbn.
    + split; [discriminate |]. intros (a' & Ha & Hn). injection Ha as <-.
      destruct Hn. reflexivity.
    + split; [| reflexivity]. intros _. eexists. split; [reflexivity |].
      discriminate.
  - cbn. split; [discriminate |]. intros (a & Ha & _). discriminate.
Qed.

Lemma X14_witness :
  opt_input (mkOptions 0 192000 "hw:2" "default" "")
  = default "default"%string
      (last_arg "i" [("i"%char, "hw:1"%string); ("s"%char, "0"%string);
                     ("?"%char, EmptyString); ("i"%char, "hw:2"%string)]).
Proof.
  exact (proj1 (proj2 (proj2
           (last_option_wins example_atoi
              [("i"%char, "hw:1"%string); ("s"%char, "0"%string);
               ("?"%char, EmptyString); ("i"%char, "hw:2"%string)]
              (mkOptions 0 192000 "hw:2" "default" "") eq_refl)))).
Defined.
